(** * SparkKeep: the outbox and the sync engine

    A shallow embedding of [src/data/types.ts], [src/data/localdb.ts] and
    [src/data/syncService.ts].

    - The two SQLite tables are values: [ideas] is a finite map keyed by
      the primary key [localId], [outbox] is the list of rows in table
      order.
    - A row's [payload] column is kept in parsed form.  Rows are written
      only by [enqueueOutbox], which stores [JSON.stringify] of an object,
      so [JSON.parse] in [processItem] returns that object; a field that
      is absent or [null] is [None] (both fall through [??]).
    - The asynchronous engine is a step function on an explicit state.
      Each suspended invocation of [flushOutbox] is a [Pass]; the events
      are the callbacks the JavaScript event loop can run.  The remote
      service's answer and the clock reading arrive with the event that
      resumes a pass.  Storage calls are taken to succeed. *)

From Stdlib Require Import ZArith.
From stdpp Require Import gmap strings list fin_maps sorting.

Open Scope Z_scope.

(** ** types.ts *)

Inductive IdeaType := PROJECT | FEATURE.
Inductive IdeaStatus := INBOX | BACKLOG | IN_PROGRESS | DONE.

Module IdeaRecord.
Record t := mk {
  localId : string;
  serverId : option string;
  content : string;
  type : IdeaType;
  parentProjectLocalId : option string;
  parentProjectServerId : option string;
  status : IdeaStatus;
  archived : bool;
  createdAt : Z;
  updatedAt : Z
}.
End IdeaRecord.

Inductive Action :=
  createProject | createFeature | updateIdea | updateStatus | archiveIdea | deleteIdea.

(** The object stored in an outbox row's [payload] column: the union of
    the fields the call sites of [enqueueOutbox] put there. *)
Module Payload.
Record t := mk {
  localId : option string;
  content : option string;
  status : option IdeaStatus;
  serverId : option string;
  parentProjectLocalId : option string;
  parentProjectServerId : option string
}.
End Payload.

Module OutboxItem.
Record t := mk {
  id : string;
  action : Action;
  payload : Payload.t;
  createdAt : Z;
  attemptCount : Z;
  lastError : option string
}.
End OutboxItem.

(** JavaScript truthiness of a string: only the empty string is falsy. *)
Definition truthy (s : string) : bool :=
  match s with EmptyString => false | String _ _ => true end.

Definition truthyOpt (o : option string) : bool :=
  match o with Some s => truthy s | None => false end.

(** ** localdb.ts *)

Record Db := mkDb {
  ideas : gmap string IdeaRecord.t;
  outbox : list OutboxItem.t
}.

Definition enqueueOutbox (d : Db) (action : Action) (payload : Payload.t)
    (id : string) (createdAt : Z) : Db :=
  mkDb (ideas d)
       (outbox d ++ [OutboxItem.mk id action payload createdAt 0 None]).

Definition setSynced (serverId : string) (now : Z) (r : IdeaRecord.t) : IdeaRecord.t :=
  IdeaRecord.mk (IdeaRecord.localId r) (Some serverId) (IdeaRecord.content r)
    (IdeaRecord.type r) (IdeaRecord.parentProjectLocalId r)
    (IdeaRecord.parentProjectServerId r) (IdeaRecord.status r)
    (IdeaRecord.archived r) (IdeaRecord.createdAt r) now.

(** [UPDATE ideas SET serverId, updatedAt WHERE localId = $localId]; a
    missing [localId] binds NULL, which matches no row. *)
Definition markIdeaSynced (d : Db) (localId : option string) (serverId : string)
    (now : Z) : Db :=
  match localId with
  | Some l => mkDb (alter (setSynced serverId now) l (ideas d)) (outbox d)
  | None => d
  end.

(** [json_extract(payload, '$.localId') = $localId]: true only when both
    sides are present and equal. *)
Definition payloadLocalIdIs (localId : option string) (row : OutboxItem.t) : bool :=
  match localId, Payload.localId (OutboxItem.payload row) with
  | Some a, Some b => bool_decide (a = b)
  | _, _ => false
  end.

Definition removeOutboxByLocalId (d : Db) (localId : option string) : Db :=
  mkDb (ideas d)
       (List.filter (fun row => negb (payloadLocalIdIs localId row)) (outbox d)).

Definition removeOutboxById (d : Db) (id : string) : Db :=
  mkDb (ideas d)
       (List.filter (fun row => negb (bool_decide (OutboxItem.id row = id))) (outbox d)).

(** [ORDER BY createdAt ASC], as a stable insertion sort: rows with the
    same [createdAt] keep their table order. *)
Fixpoint insertByCreatedAt (x : OutboxItem.t) (l : list OutboxItem.t) : list OutboxItem.t :=
  match l with
  | [] => [x]
  | y :: l' =>
      if OutboxItem.createdAt x <=? OutboxItem.createdAt y
      then x :: y :: l'
      else y :: insertByCreatedAt x l'
  end.

Definition orderByCreatedAt (l : list OutboxItem.t) : list OutboxItem.t :=
  List.fold_right insertByCreatedAt [] l.

Definition getOutboxItems (d : Db) : list OutboxItem.t :=
  orderByCreatedAt (outbox d).

(** [row?.serverId ?? null]. *)
Definition getServerIdByLocalId (d : Db) (localId : option string) : option string :=
  match localId with
  | Some l =>
      match ideas d !! l with
      | Some row => IdeaRecord.serverId row
      | None => None
      end
  | None => None
  end.

Definition bumpAttempt (errorMessage : option string) (row : OutboxItem.t) : OutboxItem.t :=
  OutboxItem.mk (OutboxItem.id row) (OutboxItem.action row) (OutboxItem.payload row)
    (OutboxItem.createdAt row) (OutboxItem.attemptCount row + 1) errorMessage.

Definition incrementOutboxAttempt (d : Db) (localId : string)
    (errorMessage : option string) : Db :=
  mkDb (ideas d)
       (List.map (fun row => if payloadLocalIdIs (Some localId) row
                             then bumpAttempt errorMessage row else row)
                 (outbox d)).

(** *** localdb.ts: the rest of the local store *)

Definition isProject (t : IdeaType) : bool :=
  match t with PROJECT => true | FEATURE => false end.

Definition isFeature (t : IdeaType) : bool :=
  match t with FEATURE => true | PROJECT => false end.

Definition isInbox (st : IdeaStatus) : bool :=
  match st with INBOX => true | _ => false end.

(** [insertIdeaLocal(params)], with the values [Crypto.randomUUID()] and
    [Date.now()] return.  [localId] is the primary key: the [INSERT]
    fails on a key that is already there, and the function then throws
    ([None]). *)
Definition insertIdeaLocal (d : Db) (content : string) (type : IdeaType)
    (parentProjectLocalId : option string) (status : option IdeaStatus)
    (localId : string) (now : Z) : option (Db * IdeaRecord.t) :=
  let status :=
    default (match type with PROJECT => BACKLOG | FEATURE => INBOX end) status in
  let record :=
    IdeaRecord.mk localId None content type parentProjectLocalId None status false
      now now in
  match ideas d !! localId with
  | Some _ => None
  | None => Some (mkDb (<[localId := record]> (ideas d)) (outbox d), record)
  end.

Definition setStatus (status : IdeaStatus) (now : Z) (r : IdeaRecord.t) : IdeaRecord.t :=
  IdeaRecord.mk (IdeaRecord.localId r) (IdeaRecord.serverId r) (IdeaRecord.content r)
    (IdeaRecord.type r) (IdeaRecord.parentProjectLocalId r)
    (IdeaRecord.parentProjectServerId r) status
    (IdeaRecord.archived r) (IdeaRecord.createdAt r) now.

Definition updateIdeaLocalStatus (d : Db) (localId : string) (status : IdeaStatus)
    (now : Z) : Db :=
  mkDb (alter (setStatus status now) localId (ideas d)) (outbox d).

Definition setArchived (now : Z) (r : IdeaRecord.t) : IdeaRecord.t :=
  IdeaRecord.mk (IdeaRecord.localId r) (IdeaRecord.serverId r) (IdeaRecord.content r)
    (IdeaRecord.type r) (IdeaRecord.parentProjectLocalId r)
    (IdeaRecord.parentProjectServerId r) (IdeaRecord.status r)
    true (IdeaRecord.createdAt r) now.

Definition archiveIdeaLocal (d : Db) (localId : string) (now : Z) : Db :=
  mkDb (alter (setArchived now) localId (ideas d)) (outbox d).

Definition deleteIdeaLocal (d : Db) (localId : string) : Db :=
  mkDb (delete localId (ideas d)) (outbox d).

(** The rows of the [ideas] table. *)
Definition ideasRows (d : Db) : list IdeaRecord.t :=
  snd <$> map_to_list (ideas d).

(** [ORDER BY createdAt DESC].  SQL leaves the order of rows with the
    same [createdAt] open; here they keep the order of [ideasRows]. *)
Fixpoint insertByCreatedAtDesc (x : IdeaRecord.t) (l : list IdeaRecord.t)
    : list IdeaRecord.t :=
  match l with
  | [] => [x]
  | y :: l' =>
      if IdeaRecord.createdAt y <=? IdeaRecord.createdAt x
      then x :: y :: l'
      else y :: insertByCreatedAtDesc x l'
  end.

Definition orderByCreatedAtDesc (l : list IdeaRecord.t) : list IdeaRecord.t :=
  List.fold_right insertByCreatedAtDesc [] l.

(** [SELECT * FROM ideas WHERE ... ORDER BY createdAt DESC]. *)
Definition selectIdeas (where_ : IdeaRecord.t -> bool) (d : Db) : list IdeaRecord.t :=
  orderByCreatedAtDesc (List.filter where_ (ideasRows d)).

Definition listProjectsLocal (d : Db) : list IdeaRecord.t :=
  selectIdeas (fun r => isProject (IdeaRecord.type r) && negb (IdeaRecord.archived r)) d.

Definition listInboxLocal (d : Db) : list IdeaRecord.t :=
  selectIdeas (fun r => isInbox (IdeaRecord.status r) && negb (IdeaRecord.archived r)) d.

Definition listFeaturesByProjectLocal (d : Db) (projectLocalId : string)
    : list IdeaRecord.t :=
  selectIdeas
    (fun r => isFeature (IdeaRecord.type r)
              && bool_decide (IdeaRecord.parentProjectLocalId r = Some projectLocalId)
              && negb (IdeaRecord.archived r)) d.

Definition listAllIdeas (d : Db) : list IdeaRecord.t :=
  selectIdeas (fun r => negb (IdeaRecord.archived r)) d.

(** [listRecentIdeas(limit = 3)]: [LIMIT ?]; in SQLite a negative limit
    is no limit. *)
Definition listRecentIdeas (d : Db) (limit : option Z) : list IdeaRecord.t :=
  let n := default 3 limit in
  let rows := selectIdeas (fun r => negb (IdeaRecord.archived r)) d in
  if n <? 0 then rows else take (Z.to_nat n) rows.

Module OutboxStatus.
Record t := mk {
  localId : string;
  action : Action;
  attemptCount : Z;
  lastError : option string
}.
End OutboxStatus.

(** The body of the loop of [getOutboxStatusAll]: a row whose payload
    has no truthy [localId] is skipped. *)
Definition outboxStatusOf (r : OutboxItem.t) : option OutboxStatus.t :=
  match Payload.localId (OutboxItem.payload r) with
  | Some l =>
      if truthy l
      then Some (OutboxStatus.mk l (OutboxItem.action r)
                   (OutboxItem.attemptCount r) (OutboxItem.lastError r))
      else None
  | None => None
  end.

(** [getOutboxStatusAll]: the rows in table order. *)
Definition getOutboxStatusAll (d : Db) : list OutboxStatus.t :=
  omap outboxStatusOf (outbox d).

(** ** syncService.ts: processing one item *)

Definition MAX_RETRY_ATTEMPTS : Z := 10.

(** The mutations of the remote service, with the arguments
    [processItem] passes. *)
Inductive RemoteCall :=
| CallCreateProject (content : option string)
| CallCreateFeature (content : option string) (parentProjectId : option string)
    (status : IdeaStatus)
| CallUpdateStatus (id : string) (status : option IdeaStatus)
| CallArchiveIdea (id : string)
| CallDeleteIdea (id : string).

(** What the awaited mutation does: resolve with a value (the new
    document id for the create calls) or reject with an error whose
    [message] may be missing. *)
Inductive Reply :=
| Resolved (value : string)
| Rejected (message : option string).

Record Outcome := mkOutcome {
  out_db : Db;
  out_call : option RemoteCall;
  out_success : bool
}.

(** [a ?? b] on values where absent and [null] are both [None]. *)
Definition orElse {A} (a b : option A) : option A :=
  match a with Some _ => a | None => b end.

(** The parent id [createFeature] is called with. *)
Definition resolveParent (d : Db) (p : Payload.t) : option string :=
  orElse (Payload.parentProjectServerId p)
         (if truthyOpt (Payload.parentProjectLocalId p)
          then getServerIdByLocalId d (Payload.parentProjectLocalId p)
          else None).

(** [payload.serverId ?? (await getServerIdByLocalId(payload.localId))]. *)
Definition resolveServerId (d : Db) (p : Payload.t) : option string :=
  orElse (Payload.serverId p) (getServerIdByLocalId d (Payload.localId p)).

(** The [catch] block of [processItem]. [item] is the row as it was read
    by [getOutboxItems], so [attemptCount] is the count before this
    failure. *)
Definition onFailure (d : Db) (item : OutboxItem.t) (message : option string)
    : Db * bool :=
  let d1 :=
    match Payload.localId (OutboxItem.payload item) with
    | Some l =>
        if truthy l
        then incrementOutboxAttempt d l (Some (default "Sync failed"%string message))
        else d
    | None => d
    end in
  if MAX_RETRY_ATTEMPTS <=? OutboxItem.attemptCount item
  then (removeOutboxById d1 (OutboxItem.id item), true)
  else (d1, false).

(** [await mutation(args)] inside the [try]: when the call resolves the
    rest of the branch [k] runs and the item is done; when it rejects
    control passes to the [catch] block. *)
Definition awaitRemote (d : Db) (item : OutboxItem.t) (call : RemoteCall)
    (reply : Reply) (k : string -> Db) : Outcome :=
  match reply with
  | Resolved value => mkOutcome (k value) (Some call) true
  | Rejected message =>
      let '(d', ok) := onFailure d item message in
      mkOutcome d' (Some call) ok
  end.

(** [if (serverId) ... else ...] on a resolved id. *)
Definition whenTruthy (serverId : option string) : option string :=
  match serverId with
  | Some sid => if truthy sid then Some sid else None
  | None => None
  end.

Definition processItem (d : Db) (item : OutboxItem.t) (reply : Reply) (now : Z)
    : Outcome :=
  let payload := OutboxItem.payload item in
  let localId := Payload.localId payload in
  match OutboxItem.action item with
  | createProject =>
      awaitRemote d item (CallCreateProject (Payload.content payload)) reply
        (fun serverId =>
           removeOutboxByLocalId (markIdeaSynced d localId serverId now) localId)
  | createFeature =>
      let parentServerId := resolveParent d payload in
      awaitRemote d item
        (CallCreateFeature (Payload.content payload) parentServerId
           (default INBOX (Payload.status payload)))
        reply
        (fun serverId =>
           removeOutboxByLocalId (markIdeaSynced d localId serverId now) localId)
  | updateStatus =>
      match whenTruthy (resolveServerId d payload) with
      | Some serverId =>
          awaitRemote d item (CallUpdateStatus serverId (Payload.status payload)) reply
            (fun _ => removeOutboxByLocalId d localId)
      | None => mkOutcome (removeOutboxById d (OutboxItem.id item)) None true
      end
  | archiveIdea =>
      match whenTruthy (resolveServerId d payload) with
      | Some serverId =>
          awaitRemote d item (CallArchiveIdea serverId) reply
            (fun _ => removeOutboxByLocalId d localId)
      | None => mkOutcome (removeOutboxById d (OutboxItem.id item)) None true
      end
  | deleteIdea =>
      match whenTruthy (resolveServerId d payload) with
      | Some serverId =>
          awaitRemote d item (CallDeleteIdea serverId) reply
            (fun _ => removeOutboxByLocalId d localId)
      | None => mkOutcome (removeOutboxById d (OutboxItem.id item)) None true
      end
  | updateIdea => mkOutcome d None false
  end.

(** ** syncService.ts: the engine *)

Definition RETRY_DELAYS : list Z := [2000; 5000; 10000; 30000].

(** A suspended invocation of [flushOutbox]: waiting for
    [getOutboxItems], or inside the loop waiting for [processItem] on
    [item], with the items still to visit and the flag [anyFailed]. *)
Inductive Pass :=
| Fetching
| InFlight (item : OutboxItem.t) (rest : list OutboxItem.t) (anyFailed : bool).

Inductive TimerKind := RetryTimer | SyncNowTimer.

Record Timer := mkTimer {
  timerId : nat;
  timerKind : TimerKind;
  timerDelay : Z
}.

(** The module-level variables, the two refs of the hook, the store,
    the suspended passes and the pending timers.  [log] is a history
    variable: one entry per completed [processItem], with the entry id
    and the remote call it made. *)
Record State := mkState {
  isOnline : bool;
  isSyncing : bool;
  retryTimeoutId : option nat;
  mountedRef : bool;
  currentRetryIndex : nat;
  db : Db;
  passes : list Pass;
  timers : list Timer;
  nextTimerId : nat;
  log : list (string * option RemoteCall)
}.

Definition initial (d : Db) : State :=
  mkState true false None true 0%nat d [] [] 1%nat [].

Definition set_isOnline (b : bool) (s : State) : State :=
  mkState b (isSyncing s) (retryTimeoutId s) (mountedRef s) (currentRetryIndex s)
    (db s) (passes s) (timers s) (nextTimerId s) (log s).

Definition set_isSyncing (b : bool) (s : State) : State :=
  mkState (isOnline s) b (retryTimeoutId s) (mountedRef s) (currentRetryIndex s)
    (db s) (passes s) (timers s) (nextTimerId s) (log s).

Definition set_retryTimeoutId (t : option nat) (s : State) : State :=
  mkState (isOnline s) (isSyncing s) t (mountedRef s) (currentRetryIndex s)
    (db s) (passes s) (timers s) (nextTimerId s) (log s).

Definition set_mountedRef (b : bool) (s : State) : State :=
  mkState (isOnline s) (isSyncing s) (retryTimeoutId s) b (currentRetryIndex s)
    (db s) (passes s) (timers s) (nextTimerId s) (log s).

Definition set_currentRetryIndex (n : nat) (s : State) : State :=
  mkState (isOnline s) (isSyncing s) (retryTimeoutId s) (mountedRef s) n
    (db s) (passes s) (timers s) (nextTimerId s) (log s).

Definition set_db (d : Db) (s : State) : State :=
  mkState (isOnline s) (isSyncing s) (retryTimeoutId s) (mountedRef s)
    (currentRetryIndex s) d (passes s) (timers s) (nextTimerId s) (log s).

Definition set_passes (ps : list Pass) (s : State) : State :=
  mkState (isOnline s) (isSyncing s) (retryTimeoutId s) (mountedRef s)
    (currentRetryIndex s) (db s) ps (timers s) (nextTimerId s) (log s).

Definition set_timers (ts : list Timer) (s : State) : State :=
  mkState (isOnline s) (isSyncing s) (retryTimeoutId s) (mountedRef s)
    (currentRetryIndex s) (db s) (passes s) ts (nextTimerId s) (log s).

Definition set_nextTimerId (n : nat) (s : State) : State :=
  mkState (isOnline s) (isSyncing s) (retryTimeoutId s) (mountedRef s)
    (currentRetryIndex s) (db s) (passes s) (timers s) n (log s).

Definition set_log (l : list (string * option RemoteCall)) (s : State) : State :=
  mkState (isOnline s) (isSyncing s) (retryTimeoutId s) (mountedRef s)
    (currentRetryIndex s) (db s) (passes s) (timers s) (nextTimerId s) l.

(** [clearTimeout(id)]. *)
Definition clearTimeout (id : nat) (ts : list Timer) : list Timer :=
  List.filter (fun t => negb (Nat.eqb (timerId t) id)) ts.

(** [setTimeout(callback, delay)]: the new handle and the state with the
    timer pending. *)
Definition setTimeout (kind : TimerKind) (delay : Z) (s : State) : nat * State :=
  let id := nextTimerId s in
  (id, set_nextTimerId (S id) (set_timers (timers s ++ [mkTimer id kind delay]) s)).

(** [if (retryTimeoutId) clearTimeout(retryTimeoutId)]: a handle is
    truthy unless it is [null] or [0]. *)
Definition clearRetryTimeout (s : State) : State :=
  match retryTimeoutId s with
  | Some id => if Nat.eqb id 0 then s else set_timers (clearTimeout id (timers s)) s
  | None => s
  end.

Definition retryDelay (index : nat) : Z :=
  nth (Nat.min index (length RETRY_DELAYS - 1)) RETRY_DELAYS 0.

(** The guard and the synchronous prefix of [flushOutbox], up to
    [await getOutboxItems()]. *)
Definition flushOutbox (s : State) : State :=
  if negb (mountedRef s) || isSyncing s || negb (isOnline s) then s
  else set_passes (passes s ++ [Fetching]) (set_isSyncing true s).

(** Lines 166-183 of [flushOutbox]: the code after the loop and the
    [finally] block, for the pass at position [k]. *)
Definition finishPass (k : nat) (anyFailed : bool) (s : State) : State :=
  let s1 :=
    if anyFailed && isOnline s && mountedRef s then
      let delay := retryDelay (currentRetryIndex s) in
      let s2 := set_currentRetryIndex (S (currentRetryIndex s)) s in
      let '(id, s3) := setTimeout RetryTimer delay (clearRetryTimeout s2) in
      set_retryTimeoutId (Some id) s3
    else set_currentRetryIndex 0 s in
  set_passes (delete k (passes s1)) (set_isSyncing false s1).

(** The head of [for (const item of items)]: leave the loop when the
    list is exhausted or the engine is unmounted or offline, otherwise
    call [processItem] and suspend. *)
Definition loopHead (k : nat) (items : list OutboxItem.t) (anyFailed : bool)
    (s : State) : State :=
  match items with
  | [] => finishPass k anyFailed s
  | item :: rest =>
      if negb (mountedRef s) || negb (isOnline s) then finishPass k anyFailed s
      else set_passes (<[k := InFlight item rest anyFailed]> (passes s)) s
  end.

(** [getOutboxItems] resolves for pass [k]. *)
Definition fetched (k : nat) (s : State) : State :=
  match passes s !! k with
  | Some Fetching =>
      match getOutboxItems (db s) with
      | [] =>
          set_passes (delete k (passes s))
            (set_isSyncing false (set_currentRetryIndex 0 s))
      | items => loopHead k items false s
      end
  | _ => s
  end.

(** [processItem] resolves for pass [k]: the remote answered [reply] (if
    it was asked) and [Date.now()] read [now]. *)
Definition itemDone (k : nat) (reply : Reply) (now : Z) (s : State) : State :=
  match passes s !! k with
  | Some (InFlight item rest anyFailed) =>
      let o := processItem (db s) item reply now in
      let s1 := set_log (log s ++ [(OutboxItem.id item, out_call o)])
                  (set_db (out_db o) s) in
      loopHead k rest (if out_success o then anyFailed else true) s1
  | _ => s
  end.

Definition syncNow (s : State) : State :=
  if negb (isOnline s) then s
  else snd (setTimeout SyncNowTimer 100 s).

(** [state.isConnected] is [boolean | null]. *)
Definition handleConnectivityChange (isConnected : option bool) (s : State) : State :=
  let wasOffline := negb (isOnline s) in
  let s1 := set_isOnline (default false isConnected) s in
  if wasOffline && isOnline s1 && mountedRef s1
  then flushOutbox (set_currentRetryIndex 0 s1)
  else s1.

Inductive AppStateStatus := active | background | inactive.

Definition handleAppStateChange (st : AppStateStatus) (s : State) : State :=
  match st with
  | active => if isOnline s && mountedRef s then flushOutbox s else s
  | _ => s
  end.

(** The body and the cleanup of the second [useEffect]. *)
Definition mount (s : State) : State :=
  flushOutbox (set_mountedRef true s).

Definition unmount (s : State) : State :=
  let s1 := set_mountedRef false s in
  match retryTimeoutId s1 with
  | Some id =>
      if Nat.eqb id 0 then s1
      else set_retryTimeoutId None (set_timers (clearTimeout id (timers s1)) s1)
  | None => s1
  end.

(** A pending timer fires and its callback runs. *)
Definition fireTimer (id : nat) (s : State) : State :=
  match List.find (fun t => Nat.eqb (timerId t) id) (timers s) with
  | Some t =>
      let s1 := set_timers (clearTimeout id (timers s)) s in
      match timerKind t with
      | RetryTimer => if mountedRef s1 && isOnline s1 then flushOutbox s1 else s1
      | SyncNowTimer => flushOutbox s1
      end
  | None => s
  end.

Inductive Event :=
| EvMount
| EvUnmount
| EvConnectivity (isConnected : option bool)
| EvAppState (st : AppStateStatus)
| EvSyncNow
| EvTimer (id : nat)
| EvFetched (k : nat)
| EvItemDone (k : nat) (reply : Reply) (now : Z)
| EvEnqueue (action : Action) (payload : Payload.t) (id : string) (createdAt : Z).

Definition step (s : State) (e : Event) : State :=
  match e with
  | EvMount => mount s
  | EvUnmount => unmount s
  | EvConnectivity c => handleConnectivityChange c s
  | EvAppState st => handleAppStateChange st s
  | EvSyncNow => syncNow s
  | EvTimer id => fireTimer id s
  | EvFetched k => fetched k s
  | EvItemDone k reply now => itemDone k reply now s
  | EvEnqueue a p id t => set_db (enqueueOutbox (db s) a p id t) s
  end.

Definition run (s : State) (es : list Event) : State := fold_left step es s.

(** One uninterrupted pass: a trigger, the fetch, and one completion per
    reply. *)
Definition passEvents (replies : list (Reply * Z)) : list Event :=
  EvFetched 0 :: List.map (fun r => EvItemDone 0 (fst r) (snd r)) replies.

Definition runPass (s : State) (replies : list (Reply * Z)) : State :=
  run (flushOutbox s) (passEvents replies).

(** What the loop computes when nothing else runs in between: the store,
    [anyFailed] and the new log entries. *)
Fixpoint drainItems (d : Db) (items : list OutboxItem.t) (replies : list (Reply * Z))
    (anyFailed : bool) : Db * bool * list (string * option RemoteCall) :=
  match items, replies with
  | item :: rest, (reply, now) :: replies' =>
      let o := processItem d item reply now in
      let '(d', af, l) :=
        drainItems (out_db o) rest replies' (if out_success o then anyFailed else true) in
      (d', af, (OutboxItem.id item, out_call o) :: l)
  | _, _ => (d, anyFailed, [])
  end.

(** [anyFailed] at the end of the loop of such a pass. *)
Definition passAnyFailed (s : State) (replies : list (Reply * Z)) : bool :=
  snd (fst (drainItems (db s) (getOutboxItems (db s)) replies false)).

(** The events that call [flushOutbox]: mount, a connectivity change,
    an app-state change, [syncNow] (through its timer) and a timer. *)
Definition isTrigger (e : Event) : bool :=
  match e with
  | EvMount | EvConnectivity _ | EvAppState _ | EvSyncNow | EvTimer _ => true
  | _ => false
  end.

(** The retry timers that have been set and have neither fired nor
    been cleared. *)
Definition pendingRetries (s : State) : list Timer :=
  List.filter (fun t => match timerKind t with RetryTimer => true | _ => false end)
    (timers s).

(** The delay of the pending retry that [retryTimeoutId] refers to. *)
Definition scheduledRetry (s : State) : option Z :=
  match retryTimeoutId s with
  | Some id =>
      timerDelay <$> List.find (fun t => Nat.eqb (timerId t) id) (pendingRetries s)
  | None => None
  end.

(** ** The older per-item flush ([useOutboxSync])

    The body of the loop of [flush]: the same five branches as
    [processItem], but an entry without a server id is left alone, and
    the [catch] block only counts the attempt. *)

Definition legacyCatch (d : Db) (item : OutboxItem.t) (message : option string) : Db :=
  match Payload.localId (OutboxItem.payload item) with
  | Some l =>
      if truthy l
      then incrementOutboxAttempt d l (Some (default "Sync failed"%string message))
      else d
  | None => d
  end.

Definition legacyAwait (d : Db) (item : OutboxItem.t) (call : RemoteCall)
    (reply : Reply) (k : string -> Db) : Db * option RemoteCall :=
  match reply with
  | Resolved value => (k value, Some call)
  | Rejected message => (legacyCatch d item message, Some call)
  end.

Definition legacyFlushItem (d : Db) (item : OutboxItem.t) (reply : Reply) (now : Z)
    : Db * option RemoteCall :=
  let payload := OutboxItem.payload item in
  let localId := Payload.localId payload in
  match OutboxItem.action item with
  | createProject =>
      legacyAwait d item (CallCreateProject (Payload.content payload)) reply
        (fun serverId =>
           removeOutboxByLocalId (markIdeaSynced d localId serverId now) localId)
  | createFeature =>
      let parentServerId := resolveParent d payload in
      legacyAwait d item
        (CallCreateFeature (Payload.content payload) parentServerId
           (default INBOX (Payload.status payload)))
        reply
        (fun serverId =>
           removeOutboxByLocalId (markIdeaSynced d localId serverId now) localId)
  | updateStatus =>
      match whenTruthy (resolveServerId d payload) with
      | Some serverId =>
          legacyAwait d item (CallUpdateStatus serverId (Payload.status payload)) reply
            (fun _ => removeOutboxByLocalId d localId)
      | None => (d, None)
      end
  | archiveIdea =>
      match whenTruthy (resolveServerId d payload) with
      | Some serverId =>
          legacyAwait d item (CallArchiveIdea serverId) reply
            (fun _ => removeOutboxByLocalId d localId)
      | None => (d, None)
      end
  | deleteIdea =>
      match whenTruthy (resolveServerId d payload) with
      | Some serverId =>
          legacyAwait d item (CallDeleteIdea serverId) reply
            (fun _ => removeOutboxByLocalId d localId)
      | None => (d, None)
      end
  | updateIdea => (d, None)
  end.

(** ** The screens' handlers

    The store part of the handlers in the screens; each of them ends
    with [triggerSync()], which is the event [EvSyncNow]. *)

(** [enqueueOutbox] with the primary-key check of its [INSERT]: a row
    with the same [id] makes the statement fail and the function throw.
    [enqueueOutbox] above is the case in which it succeeds. *)
Definition enqueueOutboxChecked (d : Db) (action : Action) (payload : Payload.t)
    (id : string) (createdAt : Z) : option Db :=
  if bool_decide (id ∈ List.map OutboxItem.id (outbox d)) then None
  else Some (enqueueOutbox d action payload id createdAt).

(** [item.serverId ?? await getServerIdByLocalId(item.localId)]. *)
Definition knownServerId (d : Db) (item : IdeaRecord.t) : option string :=
  orElse (IdeaRecord.serverId item)
         (getServerIdByLocalId d (Some (IdeaRecord.localId item))).

(** [deleteItem(item)]: note the server id before the row goes, delete
    the row, queue the remote delete.  When the enqueue throws the local
    delete has already happened. *)
Definition deleteItem (d : Db) (item : IdeaRecord.t) (id : string) (now : Z) : Db :=
  let serverId := knownServerId d item in
  let d1 := deleteIdeaLocal d (IdeaRecord.localId item) in
  default d1
    (enqueueOutboxChecked d1 deleteIdea
       (Payload.mk (Some (IdeaRecord.localId item)) None None serverId None None)
       id now).

(** [markDone(item)]. *)
Definition markDone (d : Db) (item : IdeaRecord.t) (updatedAt : Z) (id : string)
    (now : Z) : Db :=
  let serverId := knownServerId d item in
  let d1 := updateIdeaLocalStatus d (IdeaRecord.localId item) DONE updatedAt in
  default d1
    (enqueueOutboxChecked d1 updateStatus
       (Payload.mk (Some (IdeaRecord.localId item)) None (Some DONE) serverId None None)
       id now).

(** [archiveProject(project)]. *)
Definition archiveProject (d : Db) (project : IdeaRecord.t) (updatedAt : Z)
    (id : string) (now : Z) : Db :=
  let serverId := knownServerId d project in
  let d1 := archiveIdeaLocal d (IdeaRecord.localId project) updatedAt in
  default d1
    (enqueueOutboxChecked d1 archiveIdea
       (Payload.mk (Some (IdeaRecord.localId project)) None None serverId None None)
       id now).

(** The [onPress] of 'Delete' in [deleteProject(project)]. *)
Definition deleteProject (d : Db) (project : IdeaRecord.t) (id : string) (now : Z)
    : Db :=
  let serverId := knownServerId d project in
  let d1 := deleteIdeaLocal d (IdeaRecord.localId project) in
  default d1
    (enqueueOutboxChecked d1 deleteIdea
       (Payload.mk (Some (IdeaRecord.localId project)) None None serverId None None)
       id now).

(** [onSubmit] of the home screen; [trimmed] is [content.trim()].  When
    [insertIdeaLocal] throws nothing is queued. *)
Definition onSubmit (d : Db) (trimmed : string) (mode : IdeaType)
    (localId : string) (createdAt : Z) (id : string) (now : Z) : Db :=
  if truthy trimmed then
    match insertIdeaLocal d trimmed mode None None localId createdAt with
    | Some (d1, local) =>
        let payload :=
          match mode with
          | PROJECT =>
              Payload.mk (Some (IdeaRecord.localId local)) (Some trimmed) None None
                None None
          | FEATURE =>
              Payload.mk (Some (IdeaRecord.localId local)) (Some trimmed) (Some INBOX)
                None None None
          end in
        default d1
          (enqueueOutboxChecked d1
             (match mode with PROJECT => createProject | FEATURE => createFeature end)
             payload id now)
    | None => d
    end
  else d.

(** [addFeature] of the project screen; [text] is [content.trim()]. *)
Definition addFeature (d : Db) (text : string) (projectLocalId : string)
    (localId : string) (createdAt : Z) (id : string) (now : Z) : Db :=
  if truthy text then
    match insertIdeaLocal d text FEATURE (Some projectLocalId) (Some BACKLOG)
            localId createdAt with
    | Some (d1, local) =>
        default d1
          (enqueueOutboxChecked d1 createFeature
             (Payload.mk (Some (IdeaRecord.localId local)) (Some text) (Some BACKLOG)
                None (Some projectLocalId) None)
             id now)
    | None => d
    end
  else d.

(** [n] passes in a row in each of which the remote rejects the one
    call made. *)
Definition failedPasses (n : nat) (message : option string) (now : Z) (s : State)
    : State :=
  Nat.iter n (fun s' => runPass s' [(Rejected message, now)]) s.

(** ** convex/ideas.ts: the mutations

    The [ideas] table of the remote database is the list of its
    documents in creation order.  [ctx.db.insert] appends a document
    under a new id, which the platform chooses and which is an argument
    here; [ctx.db.get] finds a document by id; [ctx.db.patch] and
    [ctx.db.delete] act on the document with the id and raise a platform
    error when there is none.  A handler either returns a value or
    throws: an [Error] of the handler with its message, or an error of
    the platform ([None]). *)

Module RemoteIdea.
Record t := mk {
  id : string;
  content : string;
  type : IdeaType;
  parentProjectId : option string;
  status : IdeaStatus;
  archived : bool;
  createdAt : Z;
  updatedAt : Z
}.
End RemoteIdea.

Inductive HandlerResult :=
| Returned (value : string)
| Thrown (message : option string).

Module Convex.

Definition get (r : list RemoteIdea.t) (id : string) : option RemoteIdea.t :=
  List.find (fun doc => bool_decide (RemoteIdea.id doc = id)) r.

Definition patch (r : list RemoteIdea.t) (id : string)
    (f : RemoteIdea.t -> RemoteIdea.t) : list RemoteIdea.t :=
  List.map (fun doc => if bool_decide (RemoteIdea.id doc = id) then f doc else doc) r.

Definition createProject (r : list RemoteIdea.t) (content : string)
    (newId : string) (now : Z) : list RemoteIdea.t * HandlerResult :=
  (r ++ [RemoteIdea.mk newId content PROJECT None BACKLOG false now now],
   Returned newId).

Definition createFeature (r : list RemoteIdea.t) (content : string)
    (parentProjectId : option string) (status : option IdeaStatus)
    (newId : string) (now : Z) : list RemoteIdea.t * HandlerResult :=
  let invalid :=
    match parentProjectId with
    | Some p =>
        if truthy p then
          match get r p with
          | Some parent => negb (isProject (RemoteIdea.type parent))
          | None => true
          end
        else false
    | None => false
    end in
  if invalid then (r, Thrown (Some "Invalid project"%string))
  else
    (r ++ [RemoteIdea.mk newId content FEATURE parentProjectId
             (default INBOX status) false now now],
     Returned newId).

Definition updateStatus (r : list RemoteIdea.t) (id : string) (status : IdeaStatus)
    (now : Z) : list RemoteIdea.t * HandlerResult :=
  match get r id with
  | None => (r, Thrown (Some "Idea not found"%string))
  | Some _ =>
      (patch r id (fun doc =>
         RemoteIdea.mk (RemoteIdea.id doc) (RemoteIdea.content doc) (RemoteIdea.type doc)
           (RemoteIdea.parentProjectId doc) status (RemoteIdea.archived doc)
           (RemoteIdea.createdAt doc) now),
       Returned id)
  end.

Definition archiveIdea (r : list RemoteIdea.t) (id : string) (now : Z)
    : list RemoteIdea.t * HandlerResult :=
  match get r id with
  | None => (r, Thrown (Some "Idea not found"%string))
  | Some _ =>
      (patch r id (fun doc =>
         RemoteIdea.mk (RemoteIdea.id doc) (RemoteIdea.content doc) (RemoteIdea.type doc)
           (RemoteIdea.parentProjectId doc) (RemoteIdea.status doc) true
           (RemoteIdea.createdAt doc) now),
       Returned id)
  end.

Definition deleteIdea (r : list RemoteIdea.t) (id : string)
    : list RemoteIdea.t * HandlerResult :=
  match get r id with
  | None => (r, Thrown None)
  | Some _ =>
      (List.filter (fun doc => negb (bool_decide (RemoteIdea.id doc = id))) r,
       Returned id)
  end.

End Convex.

(** The mutation behind a call of the client, for arguments that pass
    the validators: [content] must be a string and [status] one of the
    four literals. *)
Definition runMutation (r : list RemoteIdea.t) (call : RemoteCall)
    (newId : string) (now : Z) : list RemoteIdea.t * HandlerResult :=
  match call with
  | CallCreateProject (Some content) => Convex.createProject r content newId now
  | CallCreateFeature (Some content) parent status =>
      Convex.createFeature r content parent (Some status) newId now
  | CallUpdateStatus id (Some status) => Convex.updateStatus r id status now
  | CallArchiveIdea id => Convex.archiveIdea r id now
  | CallDeleteIdea id => Convex.deleteIdea r id
  | _ => (r, Thrown None)
  end.

(** What the client's promise does with the handler's result; [wrap] is
    the message the client library puts on the error it rejects
    with. *)
Definition toReply (wrap : option string -> option string) (res : HandlerResult)
    : Reply :=
  match res with
  | Returned value => Resolved value
  | Thrown message => Rejected (wrap message)
  end.

(** [processItem] against the remote database: the call it makes, if
    any, runs the mutation, and the mutation's result is its reply. *)
Definition syncItem (wrap : option string -> option string) (d : Db)
    (r : list RemoteIdea.t) (item : OutboxItem.t) (newId : string)
    (remoteNow now : Z) : Db * list RemoteIdea.t :=
  match out_call (processItem d item (Rejected None) now) with
  | Some call =>
      let '(r', res) := runMutation r call newId remoteNow in
      (out_db (processItem d item (toReply wrap res) now), r')
  | None => (out_db (processItem d item (Rejected None) now), r)
  end.

(** ** Predicates used in the statements *)

(** [item] is a create entry for the record [localId]: the entries
    whose success writes that record's [serverId]. *)
Definition isCreateFor (localId : string) (item : OutboxItem.t) : Prop :=
  (OutboxItem.action item = createProject \/ OutboxItem.action item = createFeature) /\
  Payload.localId (OutboxItem.payload item) = Some localId.

Definition le_createdAt (a b : OutboxItem.t) : Prop :=
  OutboxItem.createdAt a <= OutboxItem.createdAt b.

Definition lt_createdAt (a b : OutboxItem.t) : Prop :=
  OutboxItem.createdAt a < OutboxItem.createdAt b.

(** [isSyncing] is set exactly while one invocation of [flushOutbox]
    is suspended, and there is never a second one. *)
Definition syncGuard (s : State) : Prop :=
  (isSyncing s = false /\ passes s = []) \/
  (isSyncing s = true /\ exists p, passes s = [p]).

(** Timer handles are fresh, and a pending retry is the one
    [retryTimeoutId] holds. *)
Definition timersOk (s : State) : Prop :=
  (1 <= nextTimerId s)%nat /\
  NoDup (List.map timerId (timers s)) /\
  (forall t, In t (timers s) -> (1 <= timerId t < nextTimerId s)%nat) /\
  (forall t, In t (timers s) -> timerKind t = RetryTimer ->
             retryTimeoutId s = Some (timerId t)).


(** The entry ids a suspended pass still holds: the item in flight and
    the items left in its list. *)
Definition passItemIds (p : Pass) : list string :=
  match p with
  | Fetching => []
  | InFlight item rest _ => OutboxItem.id item :: List.map OutboxItem.id rest
  end.

(** The entry id [i] is neither in the outbox nor held by a pass. *)
Definition gone (i : string) (s : State) : Prop :=
  ~ In i (List.map OutboxItem.id (outbox (db s))) /\
  forall p, In p (passes s) -> ~ In i (passItemIds p).

(** No event of [es] enqueues an entry with id [i] again. *)
Definition notEnqueued (i : string) (e : Event) : Prop :=
  match e with
  | EvEnqueue _ _ id _ => id <> i
  | _ => True
  end.

(** The key of a row of [ideas] is its [localId] column. *)
Definition keysOk (d : Db) : Prop :=
  forall l r, ideas d !! l = Some r -> IdeaRecord.localId r = l.

(** Entry ids are unique, as the primary key of [outbox] demands. *)
Definition uniqueIds (d : Db) : Prop :=
  NoDup (List.map OutboxItem.id (outbox d)).

(** The event does not enqueue an id that is already in the outbox. *)
Definition freshEnqueue (s : State) (e : Event) : Prop :=
  match e with
  | EvEnqueue _ _ id _ => ~ In id (List.map OutboxItem.id (outbox (db s)))
  | _ => True
  end.

(** Every enqueue along the run uses an id that is not in the outbox at
    that moment ([Crypto.randomUUID()]). *)
Fixpoint freshRun (s : State) (es : list Event) : Prop :=
  match es with
  | [] => True
  | e :: es' => freshEnqueue s e /\ freshRun (step s e) es'
  end.

(** Two records agree on everything the sync engine does not write. *)
Definition sameLocalFields (r r' : IdeaRecord.t) : Prop :=
  IdeaRecord.localId r' = IdeaRecord.localId r /\
  IdeaRecord.content r' = IdeaRecord.content r /\
  IdeaRecord.type r' = IdeaRecord.type r /\
  IdeaRecord.parentProjectLocalId r' = IdeaRecord.parentProjectLocalId r /\
  IdeaRecord.parentProjectServerId r' = IdeaRecord.parentProjectServerId r /\
  IdeaRecord.status r' = IdeaRecord.status r /\
  IdeaRecord.archived r' = IdeaRecord.archived r /\
  IdeaRecord.createdAt r' = IdeaRecord.createdAt r.

(** An entry [processItem] can settle once the remote accepts its call:
    a handled action with a [localId] in the payload. *)
Definition settles (item : OutboxItem.t) : Prop :=
  OutboxItem.action item <> updateIdea /\
  is_Some (Payload.localId (OutboxItem.payload item)).

Definition ge_createdAt (a b : IdeaRecord.t) : Prop :=
  IdeaRecord.createdAt b <= IdeaRecord.createdAt a.

(** ** Sample stores

    Small stores used to run the definitions on concrete inputs. *)

Definition sampleIdea (localId : string) (type : IdeaType) : IdeaRecord.t :=
  IdeaRecord.mk localId None "Ship v1" type None None BACKLOG false 1 1.

Definition payloadCreate (localId : string) : Payload.t :=
  Payload.mk (Some localId) (Some "Ship v1"%string) None None None None.

Definition payloadFeature (localId parent : string) : Payload.t :=
  Payload.mk (Some localId) (Some "Login"%string) (Some BACKLOG) None (Some parent) None.

Definition payloadStatus (localId : string) : Payload.t :=
  Payload.mk (Some localId) None (Some DONE) None None None.

Definition rowCreateA : OutboxItem.t :=
  OutboxItem.mk "o1" createProject (payloadCreate "A") 10 0 None.

Definition rowFeatureF : OutboxItem.t :=
  OutboxItem.mk "o2" createFeature (payloadFeature "F" "A") 20 0 None.

Definition rowStatusA : OutboxItem.t :=
  OutboxItem.mk "o3" updateStatus (payloadStatus "A") 30 0 None.

Definition rowUpdateIdeaA : OutboxItem.t :=
  OutboxItem.mk "o4" updateIdea (payloadCreate "A") 40 0 None.


Definition sampleIdeas : gmap string IdeaRecord.t :=
  {[ "A"%string := sampleIdea "A" PROJECT; "F"%string := sampleIdea "F" FEATURE ]}.

(** A project and a feature under it, both captured offline. *)
Definition dbProjectFeature : Db := mkDb sampleIdeas [rowCreateA; rowFeatureF].

(** The same rows inserted with the clock going backwards. *)
Definition dbUnordered : Db := mkDb sampleIdeas [rowFeatureF; rowCreateA].

(** A project whose status was changed before its creation was sent. *)
Definition dbCreateThenStatus : Db := mkDb sampleIdeas [rowCreateA; rowStatusA].

Definition dbCreateThenUpdateIdea : Db := mkDb sampleIdeas [rowCreateA; rowUpdateIdeaA].

Definition dbCreateOnly : Db := mkDb sampleIdeas [rowCreateA].


(** A store right after [initDb]. *)
Definition dbEmpty : Db := mkDb ∅ [].

Definition remoteProject : RemoteIdea.t :=
  RemoteIdea.mk "srv_1" "Garden" PROJECT None BACKLOG false 50 50.

Definition remoteLoose : RemoteIdea.t :=
  RemoteIdea.mk "srv_2" "Login" FEATURE None INBOX false 60 60.

Definition remoteSample : list RemoteIdea.t := [remoteProject; remoteLoose].

(** The project of [dbProjectFeature] deleted on the projects screen
    while its entry and its feature's entry are still queued. *)
Definition dbProjectDeleted : Db :=
  deleteProject dbProjectFeature (sampleIdea "A" PROJECT) "o9" 50.

Definition syncedFeature : IdeaRecord.t :=
  IdeaRecord.mk "F" (Some "srv_2"%string) "Login" FEATURE (Some "A"%string) None
    BACKLOG false 2 60.

Definition dbSyncedFeature : Db := mkDb {[ "F"%string := syncedFeature ]} [].

(** A synced feature marked done and then deleted while offline: two
    entries for the same record. *)
Definition dbDoneThenDeleted : Db :=
  deleteItem (markDone dbSyncedFeature syncedFeature 70 "o1" 71) syncedFeature "o2" 81.

Definition noWrap (message : option string) : option string := message.

Definition syncedProject : IdeaRecord.t :=
  IdeaRecord.mk "A" (Some "srv_1"%string) "Garden" PROJECT None None BACKLOG false 1 50.

Definition featureOfA : IdeaRecord.t :=
  IdeaRecord.mk "F" None "Login" FEATURE (Some "A"%string) None BACKLOG false 2 2.

(** A synced project with one feature under it, nothing queued. *)
Definition dbSynced : Db :=
  mkDb {[ "A"%string := syncedProject; "F"%string := featureOfA ]} [].

Definition remoteFeatureOfA : RemoteIdea.t :=
  RemoteIdea.mk "srv_2" "Login" FEATURE (Some "srv_1"%string) BACKLOG false 60 60.

Definition remoteSynced : list RemoteIdea.t := [remoteProject; remoteFeatureOfA].

Definition rowFeatureStale : OutboxItem.t :=
  OutboxItem.mk "o6" createFeature
    (Payload.mk (Some "F"%string) (Some "Login"%string) (Some BACKLOG)
       None None (Some "srv_9"%string))
    20 0 None.

Definition dbStaleParent : Db :=
  mkDb {[ "F"%string := sampleIdea "F" FEATURE ]} [rowFeatureStale].

(** * Properties *)

(** ** The outbox query *)

Lemma insertByCreatedAt_Permutation x l : insertByCreatedAt x l ≡ₚ x :: l.
Proof.
  induction l as [|y l IH]; simpl; [done|].
  destruct (_ <=? _); [done|].
  rewrite IH. apply perm_swap.
Qed.

Lemma orderByCreatedAt_Permutation l : orderByCreatedAt l ≡ₚ l.
Proof.
  induction l as [|x l IH]; simpl; [done|].
  rewrite insertByCreatedAt_Permutation. by rewrite IH.
Qed.

Lemma insertByCreatedAt_sorted x l :
  StronglySorted le_createdAt l ->
  StronglySorted le_createdAt (insertByCreatedAt x l).
Proof.
  induction 1 as [|y l Hs IH Hy]; simpl.
  - repeat constructor.
  - destruct (Z.leb_spec (OutboxItem.createdAt x) (OutboxItem.createdAt y)).
    + constructor; [by constructor|].
      constructor; [done|].
      eapply Forall_impl; [exact Hy|]. unfold le_createdAt in *. intros; lia.
    + constructor; [done|].
      rewrite insertByCreatedAt_Permutation.
      constructor; [unfold le_createdAt; lia | done].
Qed.

Lemma orderByCreatedAt_sorted l : StronglySorted le_createdAt (orderByCreatedAt l).
Proof.
  induction l; simpl; [constructor | by apply insertByCreatedAt_sorted].
Qed.

(** With pairwise distinct timestamps the order is strict. *)
Lemma sorted_distinct_strict (l : list OutboxItem.t) :
  StronglySorted le_createdAt l ->
  NoDup (OutboxItem.createdAt <$> l) ->
  StronglySorted lt_createdAt l.
Proof.
  induction 1 as [|x l Hs IH Hx]; intros Hnd; [constructor|].
  rewrite fmap_cons, NoDup_cons in Hnd. destruct Hnd as [Hnin Hnd].
  constructor; [auto|].
  rewrite Forall_forall in Hx |- *. intros y Hy.
  specialize (Hx y Hy). unfold le_createdAt, lt_createdAt in *.
  assert (OutboxItem.createdAt x <> OutboxItem.createdAt y).
  { intros Heq. apply Hnin. rewrite Heq. by apply list_elem_of_fmap_2. }
  lia.
Qed.

(** A table that is already in ascending order is returned as it is:
    the sort is stable. *)
Lemma orderByCreatedAt_id l :
  StronglySorted le_createdAt l -> orderByCreatedAt l = l.
Proof.
  induction 1 as [|x l Hs IH Hx]; simpl; [done|].
  rewrite IH. destruct Hx as [|y l' Hxy _]; simpl; [done|].
  unfold le_createdAt in Hxy.
  by destruct (Z.leb_spec (OutboxItem.createdAt x) (OutboxItem.createdAt y)); [|lia].
Qed.

(** ** One call of [processItem] *)

Lemma awaitRemote_call d item call reply k :
  out_call (awaitRemote d item call reply k) = Some call.
Proof.
  unfold awaitRemote. destruct reply; [done|]. by destruct (onFailure _ _ _).
Qed.

(** Whether a remote call is made, and which, is decided before the
    remote answers. *)
Lemma processItem_call_indep d item reply now reply' now' :
  out_call (processItem d item reply now) = out_call (processItem d item reply' now').
Proof.
  unfold processItem, awaitRemote.
  destruct (OutboxItem.action item); try destruct (whenTruthy _);
    destruct reply, reply'; simpl; try done;
    repeat match goal with |- context [onFailure ?a ?b ?c] => destruct (onFailure a b c) end;
    done.
Qed.

(** A call that rejects leaves the [catch] block in charge. *)
Lemma processItem_rejected d item message now call :
  out_call (processItem d item (Rejected message) now) = Some call ->
  processItem d item (Rejected message) now =
    mkOutcome (fst (onFailure d item message)) (Some call) (snd (onFailure d item message)).
Proof.
  unfold processItem, awaitRemote.
  destruct (OutboxItem.action item); try destruct (whenTruthy _); simpl;
    try destruct (onFailure d item message); simpl; intros; simplify_eq; done.
Qed.

(** A call that resolves deletes by the payload's [localId] and touches
    no other row. *)
Lemma processItem_resolved d item value now call :
  out_call (processItem d item (Resolved value) now) = Some call ->
  out_success (processItem d item (Resolved value) now) = true /\
  outbox (out_db (processItem d item (Resolved value) now)) =
    List.filter
      (fun row => negb (payloadLocalIdIs (Payload.localId (OutboxItem.payload item)) row))
      (outbox d).
Proof.
  unfold processItem, awaitRemote, markIdeaSynced.
  destruct (OutboxItem.action item); try destruct (whenTruthy _); simpl;
    try destruct (Payload.localId _); simpl; intros; simplify_eq; done.
Qed.

Lemma incrementOutboxAttempt_ids d l e :
  List.map OutboxItem.id (outbox (incrementOutboxAttempt d l e)) =
  List.map OutboxItem.id (outbox d).
Proof.
  unfold incrementOutboxAttempt; simpl. rewrite List.map_map.
  apply List.map_ext. intros row. cbv beta.
  destruct (Payload.localId _); [destruct (bool_decide _)|]; reflexivity.
Qed.

Lemma removeOutboxById_In d id row :
  In row (outbox (removeOutboxById d id)) <->
  In row (outbox d) /\ OutboxItem.id row <> id.
Proof.
  unfold removeOutboxById; simpl. rewrite List.filter_In.
  rewrite negb_true_iff, bool_decide_eq_false. done.
Qed.

Lemma onFailure_below d item message :
  OutboxItem.attemptCount item < MAX_RETRY_ATTEMPTS ->
  snd (onFailure d item message) = false /\
  List.map OutboxItem.id (outbox (fst (onFailure d item message))) =
    List.map OutboxItem.id (outbox d).
Proof.
  intros Hlt. unfold onFailure.
  destruct (Z.leb_spec MAX_RETRY_ATTEMPTS (OutboxItem.attemptCount item)); [lia|].
  simpl. split; [done|].
  destruct (Payload.localId _) as [l|]; [|done].
  destruct (truthy l); [apply incrementOutboxAttempt_ids | done].
Qed.


Lemma onFailure_ideas d item message :
  ideas (fst (onFailure d item message)) = ideas d.
Proof.
  unfold onFailure.
  destruct (_ <=? _); simpl;
    destruct (Payload.localId _) as [l|]; try destruct (truthy l); done.
Qed.

(** [processItem] changes the [ideas] table only through
    [markIdeaSynced], after a create call has resolved. *)
Lemma processItem_ideas d item reply now :
  ideas (out_db (processItem d item reply now)) = ideas d \/
  (exists l value,
      (OutboxItem.action item = createProject \/ OutboxItem.action item = createFeature) /\
      Payload.localId (OutboxItem.payload item) = Some l /\
      reply = Resolved value /\
      ideas (out_db (processItem d item reply now)) =
        alter (setSynced value now) l (ideas d)).
Proof.
  unfold processItem, awaitRemote, markIdeaSynced.
  destruct (OutboxItem.action item); try destruct (whenTruthy _);
    destruct reply as [v|m]; simpl;
    try (pose proof (onFailure_ideas d item m); destruct (onFailure d item m); by left);
    try (by left);
    (destruct (Payload.localId _) as [l|] eqn:Hl; simpl; [right | by left]);
    exists l, v; auto.
Qed.

(** A row is left exactly as it is by the processing of an item with
    another entry id and another payload [localId]. *)
Lemma processItem_frame d item reply now row :
  In row (outbox d) ->
  OutboxItem.id row <> OutboxItem.id item ->
  payloadLocalIdIs (Payload.localId (OutboxItem.payload item)) row = false ->
  In row (outbox (out_db (processItem d item reply now))).
Proof.
  intros Hin Hid Hl.
  assert (Hrm : forall d', In row (outbox d') ->
            In row (outbox (removeOutboxByLocalId d'
                              (Payload.localId (OutboxItem.payload item))))).
  { intros d' H. unfold removeOutboxByLocalId; simpl.
    apply List.filter_In. by rewrite Hl. }
  assert (Hmk : forall v, In row (outbox (markIdeaSynced d
                    (Payload.localId (OutboxItem.payload item)) v now))).
  { intros v. unfold markIdeaSynced. by destruct (Payload.localId _). }
  assert (Hid' : forall d', In row (outbox d') ->
            In row (outbox (removeOutboxById d' (OutboxItem.id item)))).
  { intros d' H. by apply removeOutboxById_In. }
  assert (Hfail : forall m, In row (outbox (fst (onFailure d item m)))).
  { intros m. unfold onFailure.
    set (d1 := match Payload.localId _ with Some _ => _ | None => _ end).
    assert (In row (outbox d1)).
    { subst d1. destruct (Payload.localId _) as [l|] eqn:Hpl; [|done].
      destruct (truthy l); [|done].
      unfold incrementOutboxAttempt; cbn [outbox]. apply List.in_map_iff.
      exists row. rewrite Hl. split; [reflexivity | assumption]. }
    destruct (_ <=? _); cbn [fst]; auto. }
  unfold processItem, awaitRemote.
  destruct (OutboxItem.action item); try destruct (whenTruthy _);
    destruct reply as [v|m];
    try (specialize (Hfail m); destruct (onFailure d item m));
    cbn [out_db fst] in *; auto.
Qed.

(** ** An uninterrupted pass *)

Lemma drainItems_ids d items : forall replies af,
  length replies = length items ->
  List.map fst (snd (drainItems d items replies af)) = List.map OutboxItem.id items.
Proof.
  revert d. induction items as [|item rest IH]; intros d replies af Hlen.
  - by destruct replies.
  - destruct replies as [|[reply now] replies]; [done|].
    simpl in Hlen. simpl.
    specialize (IH (out_db (processItem d item reply now)) replies
                  (if out_success (processItem d item reply now) then af else true)).
    destruct (drainItems _ rest replies _) as [[d' af'] l]. simpl in *.
    f_equal. apply IH. lia.
Qed.

Lemma drainItems_app d l1 : forall l2 r1 r2 af,
  length r1 = length l1 ->
  drainItems d (l1 ++ l2) (r1 ++ r2) af =
    let '(d1, af1, log1) := drainItems d l1 r1 af in
    let '(d2, af2, log2) := drainItems d1 l2 r2 af1 in
    (d2, af2, log1 ++ log2).
Proof.
  revert d. induction l1 as [|item rest IH]; intros d l2 r1 r2 af Hlen.
  - destruct r1; [|done]. simpl. by destruct (drainItems d l2 r2 af) as [[? ?] ?].
  - destruct r1 as [|[reply now] r1]; [done|]. simpl in Hlen. simpl.
    rewrite IH by lia.
    destruct (drainItems _ rest r1 _) as [[d1 af1] log1].
    by destruct (drainItems d1 l2 r2 af1) as [[d2 af2] log2].
Qed.

(** Once set, [anyFailed] stays set. *)
Lemma drainItems_anyFailed_mono d items : forall replies,
  snd (fst (drainItems d items replies true)) = true.
Proof.
  revert d. induction items as [|item rest IH]; intros d replies; [done|].
  destruct replies as [|[reply now] replies]; [done|]. simpl.
  specialize (IH (out_db (processItem d item reply now)) replies).
  destruct (out_success _); destruct (drainItems _ rest replies true) as [[? ?] ?]; done.
Qed.

Lemma finishPass_single af o sy rt m idx d p ts nt lg :
  finishPass 0 af (mkState o sy rt m idx d [p] ts nt lg) =
  finishPass 0 af (mkState o sy rt m idx d [] ts nt lg).
Proof.
  unfold finishPass, clearRetryTimeout, setTimeout.
  destruct af, o, m, rt as [[|?]|]; reflexivity.
Qed.

(** The [finally] block overwrites [isSyncing] whatever it was. *)
Lemma finishPass_idle af o sy rt m idx d ps ts nt lg :
  finishPass 0 af (mkState o sy rt m idx d ps ts nt lg) =
  finishPass 0 af (mkState o false rt m idx d ps ts nt lg).
Proof.
  unfold finishPass, clearRetryTimeout, setTimeout.
  destruct af, o, m, rt as [[|?]|]; reflexivity.
Qed.

(** The loop of a pass that runs alone, online and mounted. *)
Lemma run_inflight rest : forall item af replies sy rt idx d ts nt lg,
  length replies = S (length rest) ->
  run (mkState true sy rt true idx d [InFlight item rest af] ts nt lg)
      (List.map (fun r => EvItemDone 0 (fst r) (snd r)) replies) =
  let '(d', af', l) := drainItems d (item :: rest) replies af in
  finishPass 0 af' (mkState true sy rt true idx d' [] ts nt (lg ++ l)).
Proof.
  induction rest as [|item' rest IH]; intros item af replies sy rt idx d ts nt lg Hlen;
    destruct replies as [|[reply now] replies]; simpl in Hlen; try lia.
  - destruct replies; [|done]. cbn.
    unfold set_log, set_db; cbn. apply finishPass_single.
  - cbn [List.map run fold_left step fst snd].
    unfold itemDone at 1. cbn [passes lookup list_lookup].
    unfold loopHead, set_log, set_db, set_passes. cbn.
    specialize (IH item' (if out_success (processItem d item reply now) then af else true)
                  replies sy rt idx (out_db (processItem d item reply now)) ts nt
                  (lg ++ [(OutboxItem.id item, out_call (processItem d item reply now))])).
    unfold run in IH. rewrite IH by lia.
    destruct replies as [|[reply' now'] replies]; [simpl in Hlen; lia|].
    cbn [drainItems].
    destruct (drainItems _ rest replies _) as [[d'' af''] l'].
    by rewrite <- app_assoc.
Qed.

Lemma getOutboxItems_length d : length (getOutboxItems d) = length (outbox d).
Proof. unfold getOutboxItems. by rewrite orderByCreatedAt_Permutation. Qed.

(** A pass started from an idle engine that stays online and mounted,
    with one reply per fetched item, is the loop [drainItems] followed
    by the code after the loop. *)
Lemma runPass_spec s replies :
  passes s = [] -> isSyncing s = false -> isOnline s = true -> mountedRef s = true ->
  length replies = length (outbox (db s)) ->
  runPass s replies =
    let '(d', af, l) := drainItems (db s) (getOutboxItems (db s)) replies false in
    finishPass 0 af (set_log (log s ++ l) (set_db d' s)).
Proof.
  destruct s as [o sy rt m idx d ps ts nt lg]; simpl.
  intros -> -> -> -> Hlen. rewrite <- getOutboxItems_length in Hlen.
  destruct (drainItems d (getOutboxItems d) replies false) as [[d' af] l] eqn:Hdrain.
  unfold runPass, flushOutbox, passEvents; cbn.
  unfold fetched; cbn.
  destruct (getOutboxItems d) as [|item rest] eqn:Hitems.
  - destruct replies; [|done]. simpl in Hdrain. simplify_eq. cbn. by rewrite app_nil_r.
  - pose proof (run_inflight rest item false replies true rt idx d ts nt lg Hlen) as Hrun.
    rewrite Hdrain in Hrun. refine (eq_trans Hrun _).
    apply (finishPass_idle af true true rt true idx d' [] ts nt (lg ++ l)).
Qed.

(** The log after such a pass: one new entry per fetched item. *)
Lemma runPass_log s replies :
  passes s = [] -> isSyncing s = false -> isOnline s = true -> mountedRef s = true ->
  length replies = length (outbox (db s)) ->
  log (runPass s replies) =
    log s ++ snd (drainItems (db s) (getOutboxItems (db s)) replies false).
Proof.
  intros Hp Hsy Ho Hm Hlen.
  rewrite (runPass_spec s replies Hp Hsy Ho Hm Hlen).
  destruct (drainItems (db s) _ replies false) as [[d' af] l]. simpl.
  destruct s as [o sy rt m idx d ps ts nt lg].
  unfold finishPass, clearRetryTimeout, setTimeout; simpl.
  by destruct (af && o && m), rt as [[|?]|].
Qed.

(** ** Invariants of the engine *)

Lemma syncGuard_flushOutbox s : syncGuard s -> syncGuard (flushOutbox s).
Proof.
  unfold syncGuard, flushOutbox. destruct s as [o sy rt m idx d ps ts nt lg]; simpl.
  intros [[-> ->]|[-> [p ->]]]; destruct m, o; simpl; eauto.
Qed.

Lemma syncGuard_finishPass af s p :
  passes s = [p] -> syncGuard (finishPass 0 af s).
Proof.
  destruct s as [o sy rt m idx d ps ts nt lg]; simpl. intros ->. left.
  unfold finishPass, clearRetryTimeout, setTimeout.
  destruct af, o, m, rt as [[|?]|]; done.
Qed.

Lemma syncGuard_loopHead items af s p :
  isSyncing s = true -> passes s = [p] -> syncGuard (loopHead 0 items af s).
Proof.
  intros Hsy Hp. unfold loopHead.
  destruct items as [|item rest]; [by eapply syncGuard_finishPass|].
  destruct (_ || _); [by eapply syncGuard_finishPass|].
  right. destruct s; simpl in *; subst. eauto.
Qed.

Lemma syncGuard_lookup s k p :
  syncGuard s -> passes s !! k = Some p ->
  k = 0%nat /\ isSyncing s = true /\ passes s = [p].
Proof.
  intros [[_ Hp]|[Hsy [q Hp]]] Hk; rewrite Hp in Hk.
  - done.
  - destruct k; simpl in Hk; simplify_eq; done.
Qed.

Lemma syncGuard_step s e : syncGuard s -> syncGuard (step s e).
Proof.
  intros Hg. destruct e; simpl.
  - apply syncGuard_flushOutbox. by destruct s.
  - unfold unmount. destruct s as [o sy rt m idx d ps ts nt lg].
    destruct rt as [[|?]|]; exact Hg.
  - unfold handleConnectivityChange.
    destruct (_ && _); [apply syncGuard_flushOutbox|]; by destruct s.
  - unfold handleAppStateChange. destruct st; try done.
    destruct (_ && _); [by apply syncGuard_flushOutbox | done].
  - unfold syncNow. destruct (negb _); [done|]. by destruct s.
  - unfold fireTimer. destruct (List.find _ _) as [t|]; [|done].
    assert (syncGuard (set_timers (clearTimeout id (timers s)) s)) by (by destruct s).
    destruct (timerKind t); [destruct (_ && _)|]; auto using syncGuard_flushOutbox.
  - unfold fetched. destruct (passes s !! k) as [p|] eqn:Hk; [|done].
    destruct (syncGuard_lookup s k p Hg Hk) as (-> & Hsy & Hp).
    destruct p; [|done].
    destruct (getOutboxItems (db s)) as [|item rest].
    + left. destruct s; simpl in *; subst. done.
    + by eapply syncGuard_loopHead.
  - unfold itemDone. destruct (passes s !! k) as [p|] eqn:Hk; [|done].
    destruct (syncGuard_lookup s k p Hg Hk) as (-> & Hsy & Hp).
    destruct p as [|item rest af]; [done|].
    eapply syncGuard_loopHead; destruct s; simpl in *; done.
  - by destruct s.
Qed.

Lemma syncGuard_run es : forall s, syncGuard s -> syncGuard (run s es).
Proof.
  induction es as [|e es IH]; intros s Hg; [done|].
  apply IH. by apply syncGuard_step.
Qed.

Lemma syncGuard_initial d : syncGuard (initial d).
Proof. by left. Qed.

Lemma timersOk_frame s s' :
  timers s' = timers s -> nextTimerId s' = nextTimerId s ->
  retryTimeoutId s' = retryTimeoutId s ->
  timersOk s -> timersOk s'.
Proof. unfold timersOk. intros -> -> ->. done. Qed.

Lemma timersOk_flushOutbox s : timersOk s -> timersOk (flushOutbox s).
Proof.
  apply timersOk_frame; unfold flushOutbox; destruct (_ || _); by destruct s.
Qed.

Lemma clearTimeout_In id ts t :
  In t (clearTimeout id ts) <-> In t ts /\ timerId t <> id.
Proof.
  unfold clearTimeout. rewrite List.filter_In, negb_true_iff, Nat.eqb_neq. done.
Qed.

Lemma clearTimeout_NoDup id ts :
  NoDup (List.map timerId ts) -> NoDup (List.map timerId (clearTimeout id ts)).
Proof.
  induction ts as [|t ts IH]; simpl; [done|].
  rewrite NoDup_cons. intros [Hnin Hnd].
  destruct (negb _); simpl; [|auto].
  apply NoDup_cons. split; [|auto].
  intros Hin. apply Hnin.
  apply list_elem_of_In, List.in_map_iff in Hin as (t' & <- & Hin).
  apply list_elem_of_In, List.in_map_iff. exists t'.
  by apply clearTimeout_In in Hin as [? _].
Qed.

(** Cancelling a timer keeps the invariant, whatever
    [retryTimeoutId] becomes, as long as no retry stays pending under
    another handle. *)
Lemma timersOk_clear s id rt' :
  timersOk s ->
  (forall t, In t (clearTimeout id (timers s)) -> timerKind t = RetryTimer ->
             rt' = Some (timerId t)) ->
  timersOk (set_retryTimeoutId rt' (set_timers (clearTimeout id (timers s)) s)).
Proof.
  intros (Hn & Hnd & Hb & Hr) Hrt. destruct s as [o sy rt m idx d ps ts nt lg].
  unfold timersOk in *; simpl in *.
  split_and!; [done | by apply clearTimeout_NoDup | | done].
  intros t Ht. apply clearTimeout_In in Ht as [Ht _]. auto.
Qed.

(** After [if (retryTimeoutId) clearTimeout(retryTimeoutId)] no retry
    is pending. *)
Lemma clearRetryTimeout_none s t :
  timersOk s -> In t (timers (clearRetryTimeout s)) -> timerKind t <> RetryTimer.
Proof.
  intros (Hn & Hnd & Hb & Hr) Hin Hk. unfold clearRetryTimeout in Hin.
  destruct (retryTimeoutId s) as [id|] eqn:Hrt.
  - destruct (Nat.eqb_spec id 0) as [->|Hne].
    + specialize (Hr t Hin Hk). specialize (Hb t Hin).
      simplify_eq. lia.
    + destruct s; simpl in *. apply clearTimeout_In in Hin as [Hin Hid].
      specialize (Hr t Hin Hk). congruence.
  - specialize (Hr t Hin Hk). congruence.
Qed.

Lemma timersOk_setTimeout_fresh s kind delay :
  timersOk s ->
  NoDup (List.map timerId (timers (snd (setTimeout kind delay s)))) /\
  (forall t, In t (timers (snd (setTimeout kind delay s))) ->
     (1 <= timerId t < nextTimerId (snd (setTimeout kind delay s)))%nat).
Proof.
  intros (Hn & Hnd & Hb & Hr). destruct s as [o sy rt m idx d ps ts nt lg].
  simpl in *. split.
  - rewrite List.map_app. simpl. apply NoDup_app. split_and!; [done | | apply NoDup_singleton].
    intros x Hx Hx'. apply list_elem_of_singleton in Hx'. subst x.
    apply list_elem_of_In, List.in_map_iff in Hx as (t & Hid & Hin).
    specialize (Hb t Hin). lia.
  - intros t Hin. apply List.in_app_iff in Hin as [Hin|[<-|[]]]; simpl.
    + specialize (Hb t Hin). lia.
    + lia.
Qed.

Lemma timersOk_syncNow s : timersOk s -> timersOk (syncNow s).
Proof.
  intros Hok. unfold syncNow. destruct (negb _); [done|].
  destruct (timersOk_setTimeout_fresh s SyncNowTimer 100 Hok) as [Hnd Hb].
  destruct Hok as (Hn & _ & _ & Hr).
  destruct s as [o sy rt m idx d ps ts nt lg]. unfold timersOk in *; simpl in *.
  split_and!; [lia | done | done |].
  intros t Hin Hk. apply List.in_app_iff in Hin as [Hin|[<-|[]]]; [auto | done].
Qed.

Lemma clearRetryTimeout_timersOk s : timersOk s -> timersOk (clearRetryTimeout s).
Proof.
  intros Hok. unfold clearRetryTimeout.
  destruct (retryTimeoutId s) as [id|] eqn:Hrt; [|done].
  destruct (Nat.eqb id 0); [done|].
  pose proof (timersOk_clear s id (Some id) Hok) as H.
  destruct s as [o sy rt m idx d ps ts nt lg]; simpl in *. subst rt. apply H.
  intros t Hin Hk. apply clearTimeout_In in Hin as [Hin _].
  destruct Hok as (_ & _ & _ & Hr). by apply Hr.
Qed.

Lemma timersOk_finishPass k af s : timersOk s -> timersOk (finishPass k af s).
Proof.
  intros Hok. unfold finishPass.
  destruct (af && isOnline s && mountedRef s).
  - set (s2 := set_currentRetryIndex (S (currentRetryIndex s)) s).
    assert (Hok2 : timersOk s2) by (by destruct s).
    pose proof (clearRetryTimeout_timersOk s2 Hok2) as Hok3.
    pose proof (fun t => clearRetryTimeout_none s2 t Hok2) as Hnone.
    destruct (timersOk_setTimeout_fresh (clearRetryTimeout s2) RetryTimer
                (retryDelay (currentRetryIndex s)) Hok3) as [Hnd Hb].
    destruct Hok3 as (Hn & _ & _ & _).
    destruct (clearRetryTimeout s2) as [o sy rt m idx d ps ts nt lg].
    unfold timersOk in *; simpl in *.
    split_and!; [lia | done | done |].
    intros t Hin Hk. apply List.in_app_iff in Hin as [Hin|[<-|[]]]; [|done].
    by destruct (Hnone t Hin).
  - by destruct s.
Qed.

Lemma timersOk_loopHead k items af s : timersOk s -> timersOk (loopHead k items af s).
Proof.
  intros Hok. unfold loopHead.
  destruct items; [by apply timersOk_finishPass|].
  destruct (_ || _); [by apply timersOk_finishPass|]. by destruct s.
Qed.

Lemma timersOk_step s e : timersOk s -> timersOk (step s e).
Proof.
  intros Hok. destruct e; simpl.
  - apply timersOk_flushOutbox. by destruct s.
  - unfold unmount.
    assert (Hok1 : timersOk (set_mountedRef false s)) by (by destruct s).
    destruct (retryTimeoutId (set_mountedRef false s)) as [id|] eqn:Hrt; [|done].
    destruct (Nat.eqb id 0); [done|].
    apply timersOk_clear; [done|].
    intros t Hin Hk. apply clearTimeout_In in Hin as [Hin Hid].
    destruct Hok1 as (_ & _ & _ & Hr). specialize (Hr t Hin Hk). congruence.
  - unfold handleConnectivityChange.
    destruct (_ && _); [apply timersOk_flushOutbox|]; by destruct s.
  - unfold handleAppStateChange. destruct st; try done.
    destruct (_ && _); [by apply timersOk_flushOutbox | done].
  - by apply timersOk_syncNow.
  - unfold fireTimer. destruct (List.find _ _) as [t|]; [|done].
    assert (timersOk (set_timers (clearTimeout id (timers s)) s)).
    { pose proof (timersOk_clear s id (retryTimeoutId s) Hok) as H.
      destruct s as [o sy rt m idx d ps ts nt lg]; simpl in *. apply H.
      intros t' Hin Hk. apply clearTimeout_In in Hin as [Hin _].
      destruct Hok as (_ & _ & _ & Hr). by apply Hr. }
    destruct (timerKind t); [destruct (_ && _)|]; auto using timersOk_flushOutbox.
  - unfold fetched. destruct (passes s !! k) as [[|]|]; try done.
    destruct (getOutboxItems (db s)); [by destruct s|].
    by apply timersOk_loopHead.
  - unfold itemDone. destruct (passes s !! k) as [[|]|]; try done.
    apply timersOk_loopHead. by destruct s.
  - by destruct s.
Qed.

Lemma timersOk_run es : forall s, timersOk s -> timersOk (run s es).
Proof.
  induction es as [|e es IH]; intros s Hok; [done|].
  apply IH. by apply timersOk_step.
Qed.

Lemma timersOk_initial d : timersOk (initial d).
Proof.
  unfold timersOk; simpl. split_and!; [lia | constructor | done | done].
Qed.

(** All pending retries share the handle in [retryTimeoutId], and
    handles are distinct: there is at most one. *)
Lemma pendingRetries_at_most_one s :
  timersOk s -> (length (pendingRetries s) <= 1)%nat.
Proof.
  intros (_ & Hnd & _ & Hr). unfold pendingRetries.
  destruct (List.filter _ (timers s)) as [|t1 [|t2 l]] eqn:Hf; simpl; [lia | lia |].
  exfalso.
  assert (H1 : In t1 (List.filter
            (fun t => match timerKind t with RetryTimer => true | _ => false end)
            (timers s))) by (rewrite Hf; simpl; auto).
  assert (H2 : In t2 (List.filter
            (fun t => match timerKind t with RetryTimer => true | _ => false end)
            (timers s))) by (rewrite Hf; simpl; auto).
  apply List.filter_In in H1 as [H1 K1], H2 as [H2 K2].
  assert (timerId t1 = timerId t2).
  { destruct (timerKind t1) eqn:E1, (timerKind t2) eqn:E2; try done.
    pose proof (Hr t1 H1 E1). pose proof (Hr t2 H2 E2). congruence. }
  assert (Hnd' : NoDup (List.map timerId (List.filter
            (fun t => match timerKind t with RetryTimer => true | _ => false end)
            (timers s)))).
  { clear -Hnd. induction (timers s) as [|t ts IH]; simpl; [constructor|].
    simpl in Hnd. apply NoDup_cons in Hnd as [Hnin Hnd].
    destruct (timerKind t); simpl; [|auto].
    apply NoDup_cons. split; [|auto].
    intros Hin. apply Hnin.
    apply list_elem_of_In, List.in_map_iff in Hin as (t' & <- & Hin).
    apply list_elem_of_In, List.in_map_iff. exists t'.
    by apply List.filter_In in Hin as [? _]. }
  rewrite Hf in Hnd'. simpl in Hnd'.
  apply NoDup_cons in Hnd' as [Hnin _]. apply Hnin. rewrite H. left.
Qed.

(** * The claims *)

(** ** C1 *)

(** C1: a drain pass works through the outbox in ascending [createdAt]
    order.  [getOutboxItems] returns all rows of the outbox, sorted by
    [createdAt] (strictly, when the timestamps are pairwise distinct; and
    unchanged, when the table is already in enqueue order), and a pass
    that starts from an idle engine and runs online and mounted calls
    [processItem] once per returned item, one after the other in that
    list order: the log grows by exactly the entries [drainItems]
    produces, whose entry ids are the ids of the list in order. *)
Theorem C1_fifo_drain_order (s : State) (replies : list (Reply * Z)) :
  passes s = [] -> isSyncing s = false -> isOnline s = true -> mountedRef s = true ->
  length replies = length (outbox (db s)) ->
  let items := getOutboxItems (db s) in
  items ≡ₚ outbox (db s) /\
  StronglySorted le_createdAt items /\
  (NoDup (OutboxItem.createdAt <$> outbox (db s)) -> StronglySorted lt_createdAt items) /\
  (StronglySorted le_createdAt (outbox (db s)) -> items = outbox (db s)) /\
  exists entries,
    entries = snd (drainItems (db s) items replies false) /\
    log (runPass s replies) = log s ++ entries /\
    List.map fst entries = List.map OutboxItem.id items.
Proof.
  intros Hp Hsy Ho Hm Hlen items.
  assert (Hperm : items ≡ₚ outbox (db s)) by apply orderByCreatedAt_Permutation.
  assert (Hsorted : StronglySorted le_createdAt items) by apply orderByCreatedAt_sorted.
  split_and!; [done | done | | apply orderByCreatedAt_id |].
  - intros Hnd. apply sorted_distinct_strict; [done|]. by rewrite Hperm.
  - eexists. split; [reflexivity|]. split.
    + by apply runPass_log.
    + apply drainItems_ids. rewrite Hlen. symmetry. apply getOutboxItems_length.
Qed.

Lemma C1_fifo_drain_order_witness :
  List.map OutboxItem.id (getOutboxItems dbUnordered) = ["o1"; "o2"]%string /\
  StronglySorted lt_createdAt (getOutboxItems dbUnordered) /\
  List.map fst
    (log (runPass (initial dbUnordered)
            [(Resolved "srv_1"%string, 100); (Resolved "srv_2"%string, 101)])) =
    ["o1"; "o2"]%string.
Proof.
  destruct (C1_fifo_drain_order (initial dbUnordered)
              [(Resolved "srv_1"%string, 100); (Resolved "srv_2"%string, 101)]
              eq_refl eq_refl eq_refl eq_refl eq_refl)
    as (_ & _ & Hstrict & _ & entries & _ & Hlog & Hids).
  split; [reflexivity|]. split.
  - apply Hstrict. by apply (bool_decide_unpack _).
  - rewrite Hlog. simpl. exact Hids.
Defined.

(** ** C2 *)

Lemma flushOutbox_noop s :
  isSyncing s = true \/ isOnline s = false -> flushOutbox s = s.
Proof.
  unfold flushOutbox. intros [-> | ->]; by destruct (mountedRef s); simpl;
    try destruct (isSyncing s).
Qed.

Lemma trigger_while_syncing s e :
  isTrigger e = true -> isSyncing s = true ->
  passes (step s e) = passes s /\ db (step s e) = db s /\ log (step s e) = log s /\
  isSyncing (step s e) = true.
Proof.
  intros He Hsy. destruct s as [o sy rt m idx d ps ts nt lg]; simpl in Hsy; subst sy.
  destruct e; try discriminate He; simpl.
  - unfold mount, flushOutbox; simpl. done.
  - unfold handleConnectivityChange, flushOutbox; simpl.
    by destruct o, isConnected as [[|]|], m.
  - unfold handleAppStateChange, flushOutbox; simpl. by destruct st, o, m.
  - unfold syncNow; simpl. by destruct o.
  - unfold fireTimer, flushOutbox; simpl.
    destruct (List.find _ ts) as [t|]; [|done]. simpl.
    by destruct (timerKind t), m, o.
Qed.

Lemma trigger_while_offline s e :
  isTrigger e = true -> isOnline (step s e) = false ->
  passes (step s e) = passes s /\ db (step s e) = db s /\ log (step s e) = log s /\
  isSyncing (step s e) = isSyncing s.
Proof.
  intros He. destruct s as [o sy rt m idx d ps ts nt lg].
  destruct e; try discriminate He; simpl.
  - unfold mount, flushOutbox; simpl. by destruct sy, o.
  - unfold handleConnectivityChange, flushOutbox; simpl.
    by destruct o, isConnected as [[|]|], m, sy.
  - unfold handleAppStateChange, flushOutbox; simpl. by destruct st, o, m, sy.
  - unfold syncNow; simpl. by destruct o.
  - unfold fireTimer, flushOutbox; simpl.
    destruct (List.find _ ts) as [t|]; [|done]. simpl.
    by destruct (timerKind t), m, o, sy.
Qed.

(** Going offline in the middle of a pass: the loop breaks before the
    second item, nothing is scheduled, and [isSyncing] is cleared. *)
Example early_abort_clears_isSyncing :
  let s := run (initial dbProjectFeature)
             [EvMount; EvFetched 0; EvConnectivity (Some false);
              EvItemDone 0 (Resolved "srv_1"%string) 100] in
  isSyncing s = false /\ passes s = [] /\ timers s = [] /\
  List.map fst (log s) = ["o1"%string] /\ outbox (db s) = [rowFeatureF].
Proof. vm_compute. by split_and!. Qed.

(** C2: at most one drain pass is active at a time.  In every state the
    engine can reach, at most one invocation of [flushOutbox] is
    suspended and [isSyncing] is set exactly when there is one;
    [flushOutbox] returns at once, changing nothing, when [isSyncing] is
    set or the engine is offline, so a trigger event in such a state
    starts no pass and touches neither the store nor the log; whenever
    an event ends the pass, on whatever path, [isSyncing] is false
    afterwards; and with no pass active, a trigger on a mounted, online
    engine starts one. *)
Theorem C2_at_most_one_drain (d : Db) (es : list Event) :
  let s := run (initial d) es in
  (length (passes s) <= 1)%nat /\
  (isSyncing s = true <-> passes s <> []) /\
  (isSyncing s = true \/ isOnline s = false -> flushOutbox s = s) /\
  (forall e, isTrigger e = true ->
     isSyncing s = true \/ isOnline (step s e) = false ->
     passes (step s e) = passes s /\ db (step s e) = db s /\
     log (step s e) = log s /\ isSyncing (step s e) = isSyncing s) /\
  (forall e, (length (passes (step s e)) < length (passes s))%nat ->
     isSyncing (step s e) = false /\ passes (step s e) = []) /\
  (passes s = [] -> mountedRef s = true -> isOnline s = true ->
     isSyncing s = false /\
     passes (flushOutbox s) = [Fetching] /\ isSyncing (flushOutbox s) = true).
Proof.
  intros s.
  assert (Hg : syncGuard s) by apply syncGuard_run, syncGuard_initial.
  split_and!.
  - destruct Hg as [[_ ->]|[_ [p ->]]]; simpl; lia.
  - destruct Hg as [[-> ->]|[-> [p ->]]]; split; done.
  - apply flushOutbox_noop.
  - intros e He [Hsy|Hoff].
    + rewrite Hsy. by apply trigger_while_syncing.
    + by apply trigger_while_offline.
  - intros e Hlt.
    pose proof (syncGuard_step s e Hg) as [[? ?]|[_ [p Hp]]]; [done|].
    rewrite Hp in Hlt. simpl in Hlt.
    destruct Hg as [[_ Hq]|[_ [q Hq]]]; rewrite Hq in Hlt; simpl in Hlt; lia.
  - intros Hp Hm Ho.
    destruct Hg as [[Hsy _]|[_ [p Hq]]]; [|congruence].
    unfold flushOutbox. rewrite Hsy, Hm, Ho, Hp. done.
Qed.

Lemma C2_at_most_one_drain_witness :
  let s := run (initial dbCreateOnly)
             [EvMount; EvFetched 0; EvItemDone 0 (Rejected None) 100] in
  isSyncing s = false /\ passes s = [] /\
  passes (flushOutbox s) = [Fetching] /\ isSyncing (flushOutbox s) = true.
Proof.
  destruct (C2_at_most_one_drain dbCreateOnly
              [EvMount; EvFetched 0; EvItemDone 0 (Rejected None) 100])
    as (_ & _ & _ & _ & _ & Hnew).
  destruct (Hnew eq_refl eq_refl eq_refl) as (Hsy & Hp & Hsy').
  split_and!; [exact Hsy | reflexivity | exact Hp | exact Hsy'].
Defined.

(** ** C3 *)

Lemma drainItems_cons d item rest reply now replies af :
  drainItems d (item :: rest) ((reply, now) :: replies) af =
    let o := processItem d item reply now in
    let r := drainItems (out_db o) rest replies (if out_success o then af else true) in
    (fst (fst r), snd (fst r), (OutboxItem.id item, out_call o) :: snd r).
Proof.
  simpl. by destruct (drainItems _ rest replies _) as [[? ?] ?].
Qed.

Lemma drainItems_log_length d items replies af :
  length replies = length items ->
  length (snd (drainItems d items replies af)) = length items.
Proof.
  intros Hlen.
  rewrite <- (length_map fst (snd (drainItems d items replies af))).
  rewrite drainItems_ids by done. apply length_map.
Qed.

(** [markIdeaSynced] never deletes a record. *)
Lemma processItem_keeps_record d item reply now (l : string) :
  is_Some (ideas d !! l) ->
  is_Some (ideas (out_db (processItem d item reply now)) !! l).
Proof.
  intros Hl. destruct (processItem_ideas d item reply now)
    as [->|(l' & v & _ & _ & _ & ->)]; [done|].
  rewrite lookup_alter. case_decide; [|done]. subst l'.
  destruct Hl as [r ->]. by eexists.
Qed.

Lemma drainItems_keeps_record (l : string) items : forall d replies af,
  is_Some (ideas d !! l) ->
  is_Some (ideas (fst (fst (drainItems d items replies af))) !! l).
Proof.
  induction items as [|item rest IH]; intros d replies af Hl; [done|].
  destruct replies as [|[reply now] replies]; [done|].
  rewrite drainItems_cons. cbn [fst]. apply IH.
  by apply processItem_keeps_record.
Qed.

(** Only a create entry for [l] rewrites the record of [l]. *)
Lemma processItem_other_record d item reply now (l : string) :
  ~ isCreateFor l item ->
  ideas (out_db (processItem d item reply now)) !! l = ideas d !! l.
Proof.
  intros Hn. destruct (processItem_ideas d item reply now)
    as [->|(l' & v & Hact & Hl' & _ & ->)]; [done|].
  rewrite lookup_alter_ne; [done|].
  intros ->. apply Hn. by split.
Qed.

Lemma drainItems_other_record (l : string) items : forall d replies af,
  Forall (fun item => ~ isCreateFor l item) items ->
  ideas (fst (fst (drainItems d items replies af))) !! l = ideas d !! l.
Proof.
  induction items as [|item rest IH]; intros d replies af Hall; [done|].
  destruct replies as [|[reply now] replies]; [done|].
  apply Forall_cons in Hall as [Hitem Hall].
  rewrite drainItems_cons. cbn [fst]. rewrite IH by done.
  by apply processItem_other_record.
Qed.

Lemma drainItems_no_record (l : string) items : forall d replies af,
  ideas d !! l = None ->
  ideas (fst (fst (drainItems d items replies af))) !! l = None.
Proof.
  induction items as [|item rest IH]; intros d replies af Hl; [done|].
  destruct replies as [|[reply now] replies]; [done|].
  rewrite drainItems_cons. cbn [fst]. apply IH.
  destruct (processItem_ideas d item reply now)
    as [->|(l' & v & _ & _ & _ & ->)]; [done|].
  rewrite lookup_alter. case_decide; [subst l'|done]. by rewrite Hl.
Qed.

(** The claim as written fails.  The project [A] and its feature [F] are
    captured offline; then [deleteProject] deletes the row of [A] and
    queues [o9], and the entries [o1] and [o2] stay queued.  In the next
    pass the [createProject] call for [A] resolves with [srv_1] and the
    entry succeeds, but [markIdeaSynced] finds no row to update, and the
    [createFeature] call for [F] is made without a parent id. *)
Lemma C3_counterexample :
  ideas dbProjectDeleted !! "A"%string = None /\
  List.map OutboxItem.id (getOutboxItems dbProjectDeleted) = ["o1"; "o2"; "o9"]%string /\
  out_success (processItem dbProjectDeleted rowCreateA (Resolved "srv_1"%string) 100)
    = true /\
  log (runPass (initial dbProjectDeleted)
         [(Resolved "srv_1"%string, 100); (Resolved "srv_2"%string, 101);
          (Resolved "unused"%string, 102)]) =
    [("o1"%string, Some (CallCreateProject (Some "Ship v1"%string)));
     ("o2"%string, Some (CallCreateFeature (Some "Login"%string) None BACKLOG));
     ("o9"%string, None)].
Proof. vm_compute. by split_and!. Qed.

(** C3 (amended): parent resolution within one pass.  Let the list of a
    pass contain a [createProject] entry for the record [A], later a
    [createFeature] entry whose payload names [A] as
    [parentProjectLocalId] and has no [parentProjectServerId], and no
    other create entry for [A] in between, and let the remote resolve
    the [createProject] call with [value].  When the record of [A] is in
    the [ideas] table at the start of the pass, the [createFeature] call
    of the same pass is made with [parentProjectId = value].  When the
    record of [A] is not in the table, [markIdeaSynced] stores nothing
    and the [createFeature] call of the same pass is made without a
    parent.  Whenever no parent id resolves, the feature is created
    without one, and the entry succeeds when the call resolves. *)
Theorem C3_parent_resolution_in_pass (s : State) (A : string)
    (pre mid post : list OutboxItem.t) (cp cf : OutboxItem.t)
    (rpre rmid rpost : list (Reply * Z)) (value : string) (now : Z)
    (reply_cf : Reply) (now_cf : Z) :
  passes s = [] -> isSyncing s = false -> isOnline s = true -> mountedRef s = true ->
  getOutboxItems (db s) = pre ++ cp :: mid ++ cf :: post ->
  length rpre = length pre -> length rmid = length mid -> length rpost = length post ->
  OutboxItem.action cp = createProject ->
  Payload.localId (OutboxItem.payload cp) = Some A ->
  OutboxItem.action cf = createFeature ->
  Payload.parentProjectLocalId (OutboxItem.payload cf) = Some A ->
  Payload.parentProjectServerId (OutboxItem.payload cf) = None ->
  truthy A = true ->
  Forall (fun item => ~ isCreateFor A item) mid ->
  let replies := rpre ++ (Resolved value, now) :: rmid ++ (reply_cf, now_cf) :: rpost in
  let sent parent :=
    log (runPass s replies) !! (length (log s) + length pre + S (length mid))%nat =
      Some (OutboxItem.id cf,
            Some (CallCreateFeature (Payload.content (OutboxItem.payload cf)) parent
                    (default INBOX (Payload.status (OutboxItem.payload cf))))) in
  (is_Some (ideas (db s) !! A) -> sent (Some value)) /\
  (ideas (db s) !! A = None -> sent None) /\
  forall d0 value0 now0,
    resolveParent d0 (OutboxItem.payload cf) = None ->
    out_call (processItem d0 cf (Resolved value0) now0) =
      Some (CallCreateFeature (Payload.content (OutboxItem.payload cf)) None
              (default INBOX (Payload.status (OutboxItem.payload cf)))) /\
    out_success (processItem d0 cf (Resolved value0) now0) = true.
Proof.
  intros Hp Hsy Ho Hm Hitems Hlpre Hlmid Hlpost Hcp HcpA Hcf HcfA HcfS HA Hmid replies sent.
  assert (Hsent : forall parent,
            (let d1 := fst (fst (drainItems (db s) pre rpre false)) in
             forall af2,
               let d2 := fst (fst (drainItems
                                     (out_db (processItem d1 cp (Resolved value) now))
                                     mid rmid af2)) in
               getServerIdByLocalId d2 (Some A) = parent) ->
            sent parent).
  { intros parent Hres. subst sent. cbn beta.
    rewrite runPass_log; [|done..|].
    2:{ rewrite <- getOutboxItems_length, Hitems. unfold replies.
        rewrite !length_app. simpl. rewrite !length_app. simpl. lia. }
    rewrite Hitems. unfold replies.
    rewrite drainItems_app by done.
    pose proof (drainItems_log_length (db s) pre rpre false Hlpre) as Hl1.
    destruct (drainItems (db s) pre rpre false) as [[d1 af1] log1]. simpl in Hl1, Hres.
    rewrite drainItems_cons. cbn zeta.
    set (o1 := processItem d1 cp (Resolved value) now) in *.
    set (af2 := if out_success o1 then af1 else true).
    specialize (Hres af2).
    rewrite drainItems_app by done.
    pose proof (drainItems_log_length (out_db o1) mid rmid af2 Hlmid) as Hl2.
    destruct (drainItems (out_db o1) mid rmid af2) as [[d2 af3] log2].
    simpl in Hl2, Hres.
    rewrite drainItems_cons. cbn zeta.
    destruct (drainItems _ post rpost _) as [[d3 af4] log3]. simpl.
    rewrite <- Nat.add_assoc.
    rewrite lookup_app_r by lia.
    replace (length (log s) + (length pre + S (length mid)) - length (log s))%nat
      with (length log1 + S (length log2))%nat by lia.
    rewrite lookup_app_r by lia.
    replace (length log1 + S (length log2) - length log1)%nat
      with (S (length log2 + 0)) by lia.
    simpl. rewrite lookup_app_r by lia.
    replace (length log2 + 0 - length log2)%nat with 0%nat by lia. simpl.
    do 2 f_equal.
    unfold processItem. rewrite Hcf. simpl.
    unfold resolveParent. rewrite HcfS, HcfA. simpl. rewrite HA.
    rewrite Hres. apply awaitRemote_call. }
  split_and!.
  - intros Hrec. apply Hsent. intros d1 af2 d2. subst d2.
    unfold getServerIdByLocalId.
    rewrite (drainItems_other_record A mid _ rmid af2 Hmid).
    pose proof (drainItems_keeps_record A pre (db s) rpre false Hrec) as [r Hr].
    fold d1 in Hr.
    unfold processItem. rewrite Hcp, HcpA. simpl.
    rewrite lookup_alter, decide_True by done. by rewrite Hr.
  - intros Hnone. apply Hsent. intros d1 af2 d2. subst d2.
    unfold getServerIdByLocalId.
    rewrite drainItems_no_record; [done|].
    unfold processItem. rewrite Hcp, HcpA. simpl.
    rewrite lookup_alter, decide_True by done.
    pose proof (drainItems_no_record A pre (db s) rpre false Hnone) as Hr.
    fold d1 in Hr. by rewrite Hr.
  - intros d0 value0 now0 Hnone. unfold processItem. rewrite Hcf. simpl.
    by rewrite Hnone.
Qed.

Lemma C3_parent_resolution_in_pass_witness :
  log (runPass (initial dbProjectFeature)
         [(Resolved "srv_1"%string, 100); (Resolved "srv_2"%string, 101)]) !! 1%nat =
    Some ("o2"%string,
          Some (CallCreateFeature (Some "Login"%string) (Some "srv_1"%string) BACKLOG)).
Proof.
  refine (proj1 (C3_parent_resolution_in_pass (initial dbProjectFeature) "A"
                   [] [] [] rowCreateA rowFeatureF [] [] [] "srv_1" 100
                   (Resolved "srv_2"%string) 101
                   eq_refl eq_refl eq_refl eq_refl eq_refl eq_refl eq_refl eq_refl
                   eq_refl eq_refl eq_refl eq_refl eq_refl eq_refl _) _).
  - constructor.
  - exists (sampleIdea "A" PROJECT). vm_compute. reflexivity.
Defined.

(** ** C4 *)



(** ** C5 *)

(** C5: an [updateStatus], [archiveIdea] or [deleteIdea] entry whose
    payload has no [serverId] and whose record has none in the [ideas]
    table makes no remote call; [processItem] deletes the entry by its
    own id and nothing else, leaves every other row as it was (no
    [attemptCount] or [lastError] written), and reports success, so
    [anyFailed] is not set. *)
Theorem C5_missing_serverId_noop (d : Db) (item : OutboxItem.t) (reply : Reply) (now : Z) :
  In (OutboxItem.action item) [updateStatus; archiveIdea; deleteIdea] ->
  Payload.serverId (OutboxItem.payload item) = None ->
  getServerIdByLocalId d (Payload.localId (OutboxItem.payload item)) = None ->
  let o := processItem d item reply now in
  out_call o = None /\
  out_success o = true /\
  out_db o = removeOutboxById d (OutboxItem.id item) /\
  ideas (out_db o) = ideas d /\
  (forall row, In row (outbox (out_db o)) <->
               In row (outbox d) /\ OutboxItem.id row <> OutboxItem.id item) /\
  forall af, fst (drainItems d [item] [(reply, now)] af) = (out_db o, af).
Proof.
  intros Hact Hsid Hlookup o.
  assert (Ho : o = mkOutcome (removeOutboxById d (OutboxItem.id item)) None true).
  { subst o. unfold processItem, resolveServerId. rewrite Hsid, Hlookup. simpl.
    simpl in Hact. destruct Hact as [<-|[<-|[<-|[]]]]; done. }
  split_and!; try (rewrite Ho; done).
  - intros row. rewrite Ho. apply removeOutboxById_In.
  - intros af. simpl. fold o. by rewrite Ho.
Qed.

Lemma C5_missing_serverId_noop_witness :
  let o := processItem dbCreateThenStatus rowStatusA (Resolved "unused"%string) 100 in
  out_call o = None /\ out_success o = true /\ outbox (out_db o) = [rowCreateA].
Proof.
  destruct (C5_missing_serverId_noop dbCreateThenStatus rowStatusA
              (Resolved "unused"%string) 100
              ltac:(simpl; auto) eq_refl eq_refl)
    as (Hcall & Hok & Hdb & _).
  split_and!; [exact Hcall | exact Hok | rewrite Hdb; reflexivity].
Defined.

(** ** C6 *)

Lemma filter_retry_none (ts : list Timer) :
  (forall t, In t ts -> timerKind t <> RetryTimer) ->
  List.filter (fun t => match timerKind t with RetryTimer => true | _ => false end) ts = [].
Proof.
  induction ts as [|t ts IH]; intros Hall; simpl; [done|].
  destruct (timerKind t) eqn:Hk.
  - exfalso. apply (Hall t); simpl; auto.
  - apply IH. intros t' Hin. apply Hall. simpl. auto.
Qed.

(** The code after the loop when [anyFailed] is set and the engine is
    online and mounted. *)
Lemma finishPass_failed k s :
  timersOk s -> isOnline s = true -> mountedRef s = true ->
  currentRetryIndex (finishPass k true s) = S (currentRetryIndex s) /\
  pendingRetries (finishPass k true s) =
    [mkTimer (nextTimerId s) RetryTimer (retryDelay (currentRetryIndex s))] /\
  retryTimeoutId (finishPass k true s) = Some (nextTimerId s) /\
  scheduledRetry (finishPass k true s) = Some (retryDelay (currentRetryIndex s)).
Proof.
  intros Hok Ho Hm.
  set (s2 := set_currentRetryIndex (S (currentRetryIndex s)) s).
  assert (Hok2 : timersOk s2) by (by destruct s).
  pose proof (filter_retry_none _ (fun t => clearRetryTimeout_none s2 t Hok2)) as Hnone.
  assert (Hnt : nextTimerId (clearRetryTimeout s2) = nextTimerId s).
  { unfold clearRetryTimeout. destruct (retryTimeoutId s2) as [[|?]|]; by destruct s. }
  assert (Hidx : currentRetryIndex (clearRetryTimeout s2) = S (currentRetryIndex s)).
  { unfold clearRetryTimeout. destruct (retryTimeoutId s2) as [[|?]|]; by destruct s. }
  assert (Hp : pendingRetries (finishPass k true s) =
               [mkTimer (nextTimerId s) RetryTimer (retryDelay (currentRetryIndex s))]).
  { unfold finishPass. rewrite Ho, Hm. cbn [andb]. fold s2.
    destruct (clearRetryTimeout s2) as [o sy rt m idx d ps ts nt lg].
    unfold pendingRetries, setTimeout in *; simpl in *. subst nt.
    rewrite List.filter_app, Hnone. done. }
  assert (Hrt : retryTimeoutId (finishPass k true s) = Some (nextTimerId s)).
  { unfold finishPass. rewrite Ho, Hm. cbn [andb]. fold s2.
    destruct (clearRetryTimeout s2) as [o sy rt m idx d ps ts nt lg].
    simpl in *. by subst nt. }
  split_and!; [|done|done|].
  - unfold finishPass. rewrite Ho, Hm. cbn [andb]. fold s2.
    destruct (clearRetryTimeout s2) as [o sy rt m idx d ps ts nt lg].
    simpl in *. done.
  - unfold scheduledRetry. rewrite Hrt, Hp. simpl. by rewrite Nat.eqb_refl.
Qed.

Lemma finishPass_clean k s :
  currentRetryIndex (finishPass k false s) = 0%nat /\
  timers (finishPass k false s) = timers s /\
  retryTimeoutId (finishPass k false s) = retryTimeoutId s.
Proof. by destruct s. Qed.

Lemma finishPass_flags k af s :
  isOnline (finishPass k af s) = isOnline s /\
  mountedRef (finishPass k af s) = mountedRef s /\
  isSyncing (finishPass k af s) = false /\
  passes (finishPass k af s) = delete k (passes s) /\
  db (finishPass k af s) = db s /\
  log (finishPass k af s) = log s.
Proof.
  destruct s as [o sy rt m idx d ps ts nt lg].
  unfold finishPass, clearRetryTimeout, setTimeout; simpl.
  by destruct (af && o && m), rt as [[|?]|].
Qed.

(** What an uninterrupted pass leaves behind. *)
Lemma runPass_effect s replies :
  timersOk s ->
  passes s = [] -> isSyncing s = false -> isOnline s = true -> mountedRef s = true ->
  length replies = length (outbox (db s)) ->
  let s' := runPass s replies in
  (timersOk s' /\ passes s' = [] /\ isSyncing s' = false /\
   isOnline s' = true /\ mountedRef s' = true) /\
  (passAnyFailed s replies = true ->
     currentRetryIndex s' = S (currentRetryIndex s) /\
     scheduledRetry s' = Some (retryDelay (currentRetryIndex s)) /\
     length (pendingRetries s') = 1%nat) /\
  (passAnyFailed s replies = false ->
     currentRetryIndex s' = 0%nat /\ timers s' = timers s).
Proof.
  intros Hok Hp Hsy Ho Hm Hlen s'. subst s'.
  rewrite (runPass_spec s replies Hp Hsy Ho Hm Hlen). unfold passAnyFailed.
  destruct (drainItems (db s) (getOutboxItems (db s)) replies false) as [[d' af] l].
  set (s1 := set_log (log s ++ l) (set_db d' s)). cbn [fst snd].
  assert (Hok1 : timersOk s1) by (by destruct s).
  assert (Ho1 : isOnline s1 = true) by (by destruct s).
  assert (Hm1 : mountedRef s1 = true) by (by destruct s).
  assert (Hp1 : passes s1 = []) by (by destruct s).
  assert (Hi1 : currentRetryIndex s1 = currentRetryIndex s) by (by destruct s).
  assert (Ht1 : timers s1 = timers s) by (by destruct s).
  destruct (finishPass_flags 0 af s1) as (Ho2 & Hm2 & Hsy2 & Hp2 & _ & _).
  split_and!.
  - by apply timersOk_finishPass.
  - by rewrite Hp2, Hp1.
  - done.
  - by rewrite Ho2.
  - by rewrite Hm2.
  - intros ->. destruct (finishPass_failed 0 s1 Hok1 Ho1 Hm1) as (Hi & Hpr & _ & Hsched).
    rewrite Hi, Hsched, Hpr, Hi1. done.
  - intros ->. destruct (finishPass_clean 0 s1) as (Hi & Ht & _).
    by rewrite Hi, Ht.
Qed.

Lemma retryDelay_table (n : nat) :
  retryDelay 0 = 2000 /\ retryDelay 1 = 5000 /\ retryDelay 2 = 10000 /\
  ((3 <= n)%nat -> retryDelay n = 30000).
Proof.
  split_and!; try reflexivity.
  intros Hn. unfold retryDelay. simpl length.
  replace (Nat.min n (4 - 1)) with 3%nat by lia. reflexivity.
Qed.

(** C6: backoff, then reset.  For an idle, online, mounted engine in any
    reachable state: a pass that ends with [anyFailed] schedules its
    retry after [RETRY_DELAYS[min(currentRetryIndex, 3)]] milliseconds,
    with [RETRY_DELAYS = [2000; 5000; 10000; 30000]], and increments
    [currentRetryIndex] afterwards; a pass without failure resets
    [currentRetryIndex] to 0.  Hence, starting from index 0, three failed
    passes in a row schedule 2000, 5000 and 10000 ms, a following pass
    without failure resets the index to 0, for which the delay of the
    next failed pass is 2000 ms again, and from index 3 on the delay is
    30000 ms. *)
Theorem C6_backoff_then_reset (d : Db) (es : list Event) :
  let s0 := run (initial d) es in
  passes s0 = [] -> isOnline s0 = true -> mountedRef s0 = true ->
  RETRY_DELAYS = [2000; 5000; 10000; 30000] /\
  (forall r, length r = length (outbox (db s0)) ->
     (passAnyFailed s0 r = true ->
        scheduledRetry (runPass s0 r) =
          Some (nth (Nat.min (currentRetryIndex s0) 3) RETRY_DELAYS 0) /\
        currentRetryIndex (runPass s0 r) = S (currentRetryIndex s0) /\
        (currentRetryIndex s0 = 0%nat -> scheduledRetry (runPass s0 r) = Some 2000) /\
        ((3 <= currentRetryIndex s0)%nat -> scheduledRetry (runPass s0 r) = Some 30000)) /\
     (passAnyFailed s0 r = false -> currentRetryIndex (runPass s0 r) = 0%nat)) /\
  (currentRetryIndex s0 = 0%nat ->
   forall r1 r2 r3 r4,
     let s1 := runPass s0 r1 in
     let s2 := runPass s1 r2 in
     let s3 := runPass s2 r3 in
     let s4 := runPass s3 r4 in
     length r1 = length (outbox (db s0)) -> passAnyFailed s0 r1 = true ->
     length r2 = length (outbox (db s1)) -> passAnyFailed s1 r2 = true ->
     length r3 = length (outbox (db s2)) -> passAnyFailed s2 r3 = true ->
     length r4 = length (outbox (db s3)) -> passAnyFailed s3 r4 = false ->
     scheduledRetry s1 = Some 2000 /\ scheduledRetry s2 = Some 5000 /\
     scheduledRetry s3 = Some 10000 /\
     currentRetryIndex s3 = 3%nat /\ currentRetryIndex s4 = 0%nat).
Proof.
  intros s0 Hp Ho Hm.
  assert (Hok : timersOk s0) by apply timersOk_run, timersOk_initial.
  assert (Hsy : isSyncing s0 = false).
  { pose proof (syncGuard_run es (initial d) (syncGuard_initial d)) as [[? _]|[_ [p Hq]]];
      [done|]. fold s0 in Hq. congruence. }
  split; [done|]. split.
  - intros r Hlen.
    destruct (runPass_effect s0 r Hok Hp Hsy Ho Hm Hlen) as (_ & Hfail & Hclean).
    split.
    + intros Hf. destruct (Hfail Hf) as (Hi & Hs & _). split_and!; [done | done | |].
      * intros H0. by rewrite Hs, H0.
      * intros H3. rewrite Hs. f_equal. by apply retryDelay_table.
    + intros Hf. by destruct (Hclean Hf).
  - intros Hidx r1 r2 r3 r4 s1 s2 s3 s4 L1 F1 L2 F2 L3 F3 L4 F4.
    destruct (runPass_effect s0 r1 Hok Hp Hsy Ho Hm L1)
      as ((Hok1 & Hp1 & Hsy1 & Ho1 & Hm1) & Hfail1 & _).
    destruct (Hfail1 F1) as (Hi1 & Hs1 & _). fold s1 in Hok1, Hp1, Hsy1, Ho1, Hm1, Hi1, Hs1.
    destruct (runPass_effect s1 r2 Hok1 Hp1 Hsy1 Ho1 Hm1 L2)
      as ((Hok2 & Hp2 & Hsy2 & Ho2 & Hm2) & Hfail2 & _).
    destruct (Hfail2 F2) as (Hi2 & Hs2 & _). fold s2 in Hok2, Hp2, Hsy2, Ho2, Hm2, Hi2, Hs2.
    destruct (runPass_effect s2 r3 Hok2 Hp2 Hsy2 Ho2 Hm2 L3)
      as ((Hok3 & Hp3 & Hsy3 & Ho3 & Hm3) & Hfail3 & _).
    destruct (Hfail3 F3) as (Hi3 & Hs3 & _). fold s3 in Hok3, Hp3, Hsy3, Ho3, Hm3, Hi3, Hs3.
    destruct (runPass_effect s3 r4 Hok3 Hp3 Hsy3 Ho3 Hm3 L4) as (_ & _ & Hclean4).
    destruct (Hclean4 F4) as (Hi4 & _). fold s4 in Hi4.
    rewrite Hs1, Hs2, Hs3, Hi4, Hi3, Hi2, Hi1, Hidx. done.
Qed.

Lemma C6_backoff_then_reset_witness :
  let fail := [(Rejected (Some "timeout"%string), 100)] in
  let s1 := runPass (initial dbCreateOnly) fail in
  let s2 := runPass s1 fail in
  let s3 := runPass s2 fail in
  let s4 := runPass s3 [(Resolved "srv_1"%string, 200)] in
  scheduledRetry s1 = Some 2000 /\ scheduledRetry s2 = Some 5000 /\
  scheduledRetry s3 = Some 10000 /\ currentRetryIndex s4 = 0%nat.
Proof.
  destruct (C6_backoff_then_reset dbCreateOnly [] eq_refl eq_refl eq_refl)
    as (_ & _ & Hchain).
  destruct (Hchain eq_refl
              [(Rejected (Some "timeout"%string), 100)]
              [(Rejected (Some "timeout"%string), 100)]
              [(Rejected (Some "timeout"%string), 100)]
              [(Resolved "srv_1"%string, 200)]
              eq_refl eq_refl eq_refl eq_refl eq_refl eq_refl eq_refl eq_refl)
    as (H1 & H2 & H3 & _ & H4).
  by split_and!.
Defined.

(** ** C7 *)

(** Under the ceiling the [catch] block bumps every row that carries the
    failing item's non-empty [localId]. *)
Lemma onFailure_bumps_row d item message row :
  OutboxItem.attemptCount item < MAX_RETRY_ATTEMPTS ->
  truthyOpt (Payload.localId (OutboxItem.payload item)) = true ->
  In row (outbox d) ->
  OutboxItem.payload row = OutboxItem.payload item ->
  In (bumpAttempt (Some (default "Sync failed"%string message)) row)
     (outbox (fst (onFailure d item message))).
Proof.
  intros Hlt Ht Hin Hpay. unfold onFailure.
  destruct (Z.leb_spec MAX_RETRY_ATTEMPTS (OutboxItem.attemptCount item)); [lia|].
  destruct (Payload.localId (OutboxItem.payload item)) as [l|] eqn:Hl; simpl in Ht; [|done].
  rewrite Ht. cbn [fst]. unfold incrementOutboxAttempt. cbn [outbox].
  apply List.in_map_iff. exists row. split; [|done].
  unfold payloadLocalIdIs. rewrite Hpay, Hl. by rewrite bool_decide_eq_true_2.
Qed.

(** An entry outlives a pass none of whose other entries has its id or
    its payload [localId]. *)
Lemma drainItems_keeps row items : forall d replies af,
  Forall (fun j => OutboxItem.action j = updateIdea \/
                   (OutboxItem.id row <> OutboxItem.id j /\
                    payloadLocalIdIs (Payload.localId (OutboxItem.payload j)) row = false))
         items ->
  In row (outbox d) ->
  In row (outbox (fst (fst (drainItems d items replies af)))).
Proof.
  induction items as [|j rest IH]; intros d replies af Hall Hin; [done|].
  destruct replies as [|[reply now] replies]; [done|].
  apply Forall_cons in Hall as [Hj Hall].
  rewrite drainItems_cons. cbn [fst]. apply IH; [done|].
  destruct Hj as [Hact|[Hid Hl]].
  - unfold processItem. by rewrite Hact.
  - by apply processItem_frame.
Qed.

(** The claim as written fails.  A synced feature is marked done and
    then deleted while offline, which queues [o1] ([updateStatus]) and
    [o2] ([deleteIdea]) for the same record.  In the first pass the
    call of [o1] is rejected and the call of [o2] resolves: every item
    is processed and a retry is scheduled, but the failed entry [o1] is
    not in the outbox afterwards, because the success of [o2] deletes
    every entry of the record.  In the second pass both calls are
    rejected: [o1] ends with its attempt count raised by two and with
    the error of [o2] as [lastError]. *)
Lemma C7_counterexample :
  let s1 := runPass (initial dbDoneThenDeleted)
              [(Rejected (Some "timeout"%string), 100); (Resolved "srv_2"%string, 101)] in
  let s2 := runPass (initial dbDoneThenDeleted)
              [(Rejected (Some "timeout"%string), 100);
               (Rejected (Some "busy"%string), 101)] in
  List.map (fun row => (OutboxItem.id row, OutboxItem.attemptCount row))
    (getOutboxItems dbDoneThenDeleted) = [("o1"%string, 0); ("o2"%string, 0)] /\
  log s1 = [("o1"%string, Some (CallUpdateStatus "srv_2" (Some DONE)));
            ("o2"%string, Some (CallDeleteIdea "srv_2"))] /\
  scheduledRetry s1 = Some 2000 /\
  outbox (db s1) = [] /\
  List.map (fun row => (OutboxItem.id row, OutboxItem.attemptCount row,
                        OutboxItem.lastError row)) (outbox (db s2)) =
    [("o1"%string, 2, Some "busy"%string); ("o2"%string, 2, Some "busy"%string)].
Proof. vm_compute. by split_and!. Qed.

(** C7 (amended): failures are independent within a pass.  Take a pass
    of an idle engine that stays online and mounted, and an item of its
    list whose remote call rejects while the item is below the ceiling.
    Then [processItem] is still called for every item of the list, in
    order, those after the failing one included; the pass ends with
    [anyFailed] set, so that a retry is scheduled; the failing item is
    reported as failed and no entry leaves the outbox on its account;
    and when its payload carries a [localId], its row is still queued
    right after the failure with [attemptCount] one higher and
    [lastError] set to the error's message (['Sync failed'] when the
    error has none).  That row is still in the outbox, unchanged, at the
    end of the pass when entry ids are unique and no later item of the
    pass has the same payload [localId]. *)
Theorem C7_failure_independence (d : Db) (es : list Event)
    (pre post : list OutboxItem.t) (item : OutboxItem.t)
    (rpre rpost : list (Reply * Z)) (message : option string) (now : Z)
    (call : RemoteCall) :
  let s := run (initial d) es in
  passes s = [] -> isOnline s = true -> mountedRef s = true ->
  getOutboxItems (db s) = pre ++ item :: post ->
  length rpre = length pre -> length rpost = length post ->
  let replies := rpre ++ (Rejected message, now) :: rpost in
  let d1 := fst (fst (drainItems (db s) pre rpre false)) in
  let o := processItem d1 item (Rejected message) now in
  out_call o = Some call ->
  OutboxItem.attemptCount item < MAX_RETRY_ATTEMPTS ->
  let s' := runPass s replies in
  (exists entries,
     log s' = log s ++ entries /\
     List.map fst entries = List.map OutboxItem.id (pre ++ item :: post)) /\
  (passAnyFailed s replies = true /\
   currentRetryIndex s' = S (currentRetryIndex s) /\
   scheduledRetry s' = Some (retryDelay (currentRetryIndex s)) /\
   isSyncing s' = false /\ passes s' = []) /\
  out_success o = false /\
  List.map OutboxItem.id (outbox (out_db o)) = List.map OutboxItem.id (outbox d1) /\
  (truthyOpt (Payload.localId (OutboxItem.payload item)) = true ->
   forall row, In row (outbox d1) ->
     OutboxItem.id row = OutboxItem.id item ->
     OutboxItem.payload row = OutboxItem.payload item ->
     exists row', In row' (outbox (out_db o)) /\
       OutboxItem.id row' = OutboxItem.id item /\
       OutboxItem.attemptCount row' = OutboxItem.attemptCount row + 1 /\
       OutboxItem.lastError row' = Some (default "Sync failed"%string message)) /\
  (truthyOpt (Payload.localId (OutboxItem.payload item)) = true ->
   uniqueIds (db s) ->
   Forall (fun later => Payload.localId (OutboxItem.payload later) <>
                        Payload.localId (OutboxItem.payload item)) post ->
   forall row, In row (outbox d1) ->
     OutboxItem.id row = OutboxItem.id item ->
     OutboxItem.payload row = OutboxItem.payload item ->
     In (OutboxItem.mk (OutboxItem.id item) (OutboxItem.action row)
           (OutboxItem.payload item) (OutboxItem.createdAt row)
           (OutboxItem.attemptCount row + 1)
           (Some (default "Sync failed"%string message)))
        (outbox (db s'))).
Proof.
  intros s Hp Ho Hm Hitems Hlpre Hlpost replies d1 o Hcall Hlt s'.
  assert (Hok : timersOk s) by apply timersOk_run, timersOk_initial.
  assert (Hsy : isSyncing s = false).
  { pose proof (syncGuard_run es (initial d) (syncGuard_initial d)) as [[? _]|[_ [p Hq]]];
      [done|]. fold s in Hq. congruence. }
  assert (Hlen : length replies = length (outbox (db s))).
  { rewrite <- getOutboxItems_length, Hitems. unfold replies.
    rewrite !length_app. simpl. lia. }
  pose proof (processItem_rejected d1 item message now call Hcall) as Hrej. fold o in Hrej.
  destruct (onFailure_below d1 item message Hlt) as [Hfalse Hids].
  assert (Hfail : out_success o = false) by (by rewrite Hrej).
  assert (Haf : passAnyFailed s replies = true).
  { unfold passAnyFailed. rewrite Hitems. unfold replies.
    rewrite drainItems_app by done. fold d1.
    destruct (drainItems (db s) pre rpre false) as [[d1' af1] log1] eqn:Hd1.
    simpl in d1. subst d1. rewrite drainItems_cons. cbn zeta. fold o.
    rewrite Hfail. simpl.
    pose proof (drainItems_anyFailed_mono (out_db o) post rpost) as Hmono.
    by destruct (drainItems (out_db o) post rpost true) as [[? ?] ?]. }
  destruct (runPass_effect s replies Hok Hp Hsy Ho Hm Hlen)
    as ((_ & Hp' & Hsy' & _ & _) & Hsched & _).
  destruct (Hsched Haf) as (Hidx & Hdelay & _).
  split_and!; try done.
  - eexists. split; [by apply runPass_log|].
    rewrite Hitems. apply drainItems_ids.
    by rewrite Hlen, <- getOutboxItems_length, Hitems.
  - by rewrite Hrej.
  - intros Ht row Hin Hid Hpay.
    exists (bumpAttempt (Some (default "Sync failed"%string message)) row).
    split_and!; [|done..].
    rewrite Hrej. by apply onFailure_bumps_row.
  - intros Ht Hu Hpost row Hin Hid Hpay.
    assert (Hrow' : OutboxItem.mk (OutboxItem.id item) (OutboxItem.action row)
                      (OutboxItem.payload item) (OutboxItem.createdAt row)
                      (OutboxItem.attemptCount row + 1)
                      (Some (default "Sync failed"%string message)) =
                    bumpAttempt (Some (default "Sync failed"%string message)) row).
    { unfold bumpAttempt. by rewrite Hid, Hpay. }
    rewrite Hrow'.
    set (row' := bumpAttempt (Some (default "Sync failed"%string message)) row).
    assert (Hin' : In row' (outbox (out_db o))).
    { rewrite Hrej. by apply onFailure_bumps_row. }
    assert (Hnd : NoDup (List.map OutboxItem.id (pre ++ item :: post))).
    { rewrite <- Hitems. unfold getOutboxItems.
      assert (Hperm : List.map OutboxItem.id (orderByCreatedAt (outbox (db s)))
                        ≡ₚ List.map OutboxItem.id (outbox (db s))).
      { apply Permutation_map, orderByCreatedAt_Permutation. }
      rewrite Hperm. exact Hu. }
    rewrite List.map_app in Hnd. apply NoDup_app in Hnd as (_ & _ & Hnd).
    simpl in Hnd. apply NoDup_cons in Hnd as [Hnin _].
    assert (Hkeep : Forall (fun j => OutboxItem.action j = updateIdea \/
                      (OutboxItem.id row' <> OutboxItem.id j /\
                       payloadLocalIdIs (Payload.localId (OutboxItem.payload j)) row'
                         = false)) post).
    { apply Forall_forall. intros j Hj. right. split.
      - subst row'. simpl. rewrite Hid. intros Heq. apply Hnin.
        rewrite Heq. apply list_elem_of_In, List.in_map. by apply list_elem_of_In.
      - rewrite Forall_forall in Hpost. specialize (Hpost j Hj).
        unfold payloadLocalIdIs. subst row'. simpl. rewrite Hpay.
        destruct (Payload.localId (OutboxItem.payload j)) as [a|]; [|done].
        destruct (Payload.localId (OutboxItem.payload item)) as [b|]; [|done].
        apply bool_decide_eq_false_2. congruence. }
    assert (Hdb : db s' =
              fst (fst (drainItems (db s) (getOutboxItems (db s)) replies false))).
    { subst s'. rewrite (runPass_spec s replies Hp Hsy Ho Hm Hlen).
      destruct (drainItems (db s) (getOutboxItems (db s)) replies false) as [[d' af] l].
      cbn [fst].
      destruct (finishPass_flags 0 af (set_log (log s ++ l) (set_db d' s)))
        as (_ & _ & _ & _ & Hd & _).
      rewrite Hd. by destruct s. }
    rewrite Hdb, Hitems. unfold replies.
    rewrite drainItems_app by done. fold d1.
    destruct (drainItems (db s) pre rpre false) as [[d1' af1] log1] eqn:Hd1.
    simpl in d1. subst d1. rewrite drainItems_cons. cbn zeta. fold o. cbn [fst].
    by apply drainItems_keeps.
Qed.

Lemma C7_failure_independence_witness :
  let s' := runPass (initial dbProjectFeature)
              [(Rejected (Some "timeout"%string), 100); (Resolved "srv_2"%string, 101)] in
  List.map fst (log s') = ["o1"; "o2"]%string /\
  scheduledRetry s' = Some 2000 /\
  In (OutboxItem.mk "o1" createProject (payloadCreate "A") 10 1 (Some "timeout"%string))
     (outbox (db s')).
Proof.
  destruct (C7_failure_independence dbProjectFeature [] [] [rowFeatureF] rowCreateA
              [] [(Resolved "srv_2"%string, 101)] (Some "timeout"%string) 100
              (CallCreateProject (Some "Ship v1"%string))
              eq_refl eq_refl eq_refl eq_refl eq_refl eq_refl eq_refl
              ltac:(vm_compute; reflexivity))
    as ((entries & Hlog & Hids) & (_ & _ & Hsched & _) & _ & _ & _ & Hstays).
  split_and!; [| exact Hsched |].
  - exact (eq_trans (f_equal (List.map fst) Hlog) Hids).
  - refine (Hstays eq_refl _ _ rowCreateA _ eq_refl eq_refl).
    + unfold uniqueIds. vm_compute.
      repeat (constructor; [rewrite list_elem_of_In; simpl; intuition discriminate|]).
      constructor.
    + repeat constructor. discriminate.
    + left. reflexivity.
Defined.

(** ** C8 *)

(** The claim as written fails.  After a failed pass the retry timer 1
    is pending.  A new trigger (the app coming to the foreground, a
    [syncNow], or connectivity coming back) starts a pass and leaves
    that timer pending; the pass of the new trigger succeeds and empties
    the outbox, and the old timer is still pending; it then fires and
    starts one more pass. *)
Lemma C8_counterexample :
  let s := runPass (initial dbCreateOnly) [(Rejected None, 100)] in
  let s1 := step s (EvAppState active) in
  let s2 := run s1 (passEvents [(Resolved "srv_1"%string, 200)]) in
  pendingRetries s = [mkTimer 1 RetryTimer 2000] /\
  passes s1 = [Fetching] /\ pendingRetries s1 = [mkTimer 1 RetryTimer 2000] /\
  pendingRetries (step s EvSyncNow) = [mkTimer 1 RetryTimer 2000] /\
  pendingRetries (run s [EvConnectivity (Some false); EvConnectivity (Some true)]) =
    [mkTimer 1 RetryTimer 2000] /\
  passes s2 = [] /\ outbox (db s2) = [] /\
  pendingRetries s2 = [mkTimer 1 RetryTimer 2000] /\
  passes (step s2 (EvTimer 1)) = [Fetching].
Proof. vm_compute. by split_and!. Qed.

Lemma timers_flushOutbox s : timers (flushOutbox s) = timers s.
Proof. unfold flushOutbox. destruct (_ || _); by destruct s. Qed.

Lemma pendingRetries_trigger s e :
  isTrigger e = true -> (forall id, e <> EvTimer id) ->
  pendingRetries (step s e) = pendingRetries s.
Proof.
  intros He Hne. unfold pendingRetries.
  destruct e; try discriminate He; simpl.
  - unfold mount. rewrite timers_flushOutbox. by destruct s.
  - unfold handleConnectivityChange.
    destruct (_ && _); [rewrite timers_flushOutbox|]; by destruct s.
  - unfold handleAppStateChange. destruct st; try done.
    destruct (_ && _); [by rewrite timers_flushOutbox | done].
  - unfold syncNow. destruct (negb _); [done|].
    destruct s; simpl. rewrite List.filter_app. simpl. by rewrite app_nil_r.
  - by destruct (Hne id).
Qed.

Lemma pendingRetries_unmount s : timersOk s -> pendingRetries (unmount s) = [].
Proof.
  intros Hok. set (s1 := set_mountedRef false s).
  assert (Hok1 : timersOk s1) by (by destruct s).
  assert (Ht : timers (unmount s) = timers (clearRetryTimeout s1)).
  { unfold unmount, clearRetryTimeout. fold s1.
    destruct (retryTimeoutId s1) as [[|?]|]; by destruct s. }
  unfold pendingRetries. rewrite Ht.
  apply filter_retry_none. intros t. by apply clearRetryTimeout_none.
Qed.

(** The code after the loop either leaves the pending retries alone or
    replaces them by the retry it schedules. *)
Lemma finishPass_pending k af s :
  timersOk s ->
  pendingRetries (finishPass k af s) = pendingRetries s \/
  pendingRetries (finishPass k af s) =
    [mkTimer (nextTimerId s) RetryTimer (retryDelay (currentRetryIndex s))].
Proof.
  intros Hok.
  destruct af; [destruct (isOnline s) eqn:Ho; [destruct (mountedRef s) eqn:Hm|]|].
  - right. by destruct (finishPass_failed k s Hok Ho Hm) as (_ & ? & _).
  - left. unfold finishPass. rewrite Ho, Hm. by destruct s.
  - left. unfold finishPass. rewrite Ho. by destruct s.
  - left. by destruct s.
Qed.

Lemma loopHead_pending k items af s :
  timersOk s ->
  pendingRetries (loopHead k items af s) = pendingRetries s \/
  pendingRetries (loopHead k items af s) =
    [mkTimer (nextTimerId s) RetryTimer (retryDelay (currentRetryIndex s))].
Proof.
  intros Hok. unfold loopHead.
  destruct items; [by apply finishPass_pending|].
  destruct (_ || _); [by apply finishPass_pending|]. left. by destruct s.
Qed.

(** Apart from unmount and the firing of a timer, an event leaves the
    pending retries alone or replaces them by a newly scheduled one. *)
Lemma pendingRetries_step s e :
  timersOk s -> e <> EvUnmount -> (forall id, e <> EvTimer id) ->
  pendingRetries (step s e) = pendingRetries s \/
  pendingRetries (step s e) =
    [mkTimer (nextTimerId s) RetryTimer (retryDelay (currentRetryIndex s))].
Proof.
  intros Hok Hu Ht.
  destruct (isTrigger e) eqn:He; [left; by apply pendingRetries_trigger|].
  destruct e; try discriminate He; simpl.
  - done.
  - unfold fetched. destruct (passes s !! k) as [[|]|]; auto.
    destruct (getOutboxItems (db s)); [left; by destruct s|].
    by apply loopHead_pending.
  - unfold itemDone. destruct (passes s !! k) as [[|item rest af]|]; auto.
    set (o := processItem (db s) item reply now).
    set (s1 := set_log _ _).
    assert (Hok1 : timersOk s1) by (by destruct s).
    assert (H1 : pendingRetries s1 = pendingRetries s) by (by destruct s).
    assert (H2 : nextTimerId s1 = nextTimerId s) by (by destruct s).
    assert (H3 : currentRetryIndex s1 = currentRetryIndex s) by (by destruct s).
    rewrite <- H1, <- H2, <- H3. by apply loopHead_pending.
  - left. by destruct s.
Qed.

(** C8 (amended): at most one retry is scheduled at any time, and it is
    the one [retryTimeoutId] refers to.  A trigger does not cancel it:
    [flushOutbox] leaves the timers alone, and mount, a connectivity
    change, an app-state change and [syncNow] leave the pending retry
    pending.  It is replaced when a pass ends with failures on an online,
    mounted engine (the old timer is cleared, the new one is the only
    retry pending), it survives a pass that ends without failure, and it
    is cancelled at unmount; no other event, the firing of a timer
    apart, changes the pending retry. *)
Theorem C8_single_pending_retry (d : Db) (es : list Event) :
  let s := run (initial d) es in
  (length (pendingRetries s) <= 1)%nat /\
  (forall t, In t (pendingRetries s) -> retryTimeoutId s = Some (timerId t)) /\
  timers (flushOutbox s) = timers s /\
  (forall e, isTrigger e = true -> (forall id, e <> EvTimer id) ->
     pendingRetries (step s e) = pendingRetries s) /\
  (forall k, isOnline s = true -> mountedRef s = true ->
     pendingRetries (finishPass k true s) =
       [mkTimer (nextTimerId s) RetryTimer (retryDelay (currentRetryIndex s))] /\
     forall t, In t (pendingRetries s) -> ~ In t (timers (finishPass k true s))) /\
  (forall k, pendingRetries (finishPass k false s) = pendingRetries s) /\
  pendingRetries (unmount s) = [] /\
  (forall e, e <> EvUnmount -> (forall id, e <> EvTimer id) ->
     pendingRetries (step s e) = pendingRetries s \/
     pendingRetries (step s e) =
       [mkTimer (nextTimerId s) RetryTimer (retryDelay (currentRetryIndex s))]).
Proof.
  intros s.
  assert (Hok : timersOk s) by apply timersOk_run, timersOk_initial.
  split_and!.
  - by apply pendingRetries_at_most_one.
  - intros t Hin. apply List.filter_In in Hin as [Hin Hk].
    destruct Hok as (_ & _ & _ & Hr). apply Hr; [done|]. by destruct (timerKind t).
  - apply timers_flushOutbox.
  - intros e. apply pendingRetries_trigger.
  - intros k Ho Hm. destruct (finishPass_failed k s Hok Ho Hm) as (_ & Hp & _).
    split; [done|]. intros t Hin Hin'.
    apply List.filter_In in Hin as [Hin Hk].
    assert (Hnew : In t (pendingRetries (finishPass k true s))).
    { apply List.filter_In. done. }
    rewrite Hp in Hnew. destruct Hnew as [<-|[]].
    destruct Hok as (_ & _ & Hb & _). specialize (Hb _ Hin). simpl in Hb. lia.
  - intros k. unfold pendingRetries. by destruct (finishPass_clean k s) as (_ & -> & _).
  - by apply pendingRetries_unmount.
  - intros e. by apply pendingRetries_step.
Qed.

Lemma C8_single_pending_retry_witness :
  let s := runPass (initial dbCreateOnly) [(Rejected None, 100)] in
  pendingRetries (step s (EvAppState active)) = [mkTimer 1 RetryTimer 2000] /\
  pendingRetries (finishPass 0 true s) = [mkTimer 2 RetryTimer 5000].
Proof.
  destruct (C8_single_pending_retry dbCreateOnly
              [EvAppState active; EvFetched 0; EvItemDone 0 (Rejected None) 100])
    as (_ & _ & _ & Htrig & Hrepl & _).
  split.
  - exact (Htrig (EvAppState active) eq_refl ltac:(discriminate)).
  - exact (proj1 (Hrepl 0%nat eq_refl eq_refl)).
Defined.

(** ** C9 *)

(** The claim as written fails.  The project's [createProject] entry
    [o1] and a later [updateStatus] entry [o3] for the same record are
    both in the outbox when the pass fetches it.  Processing [o1] deletes
    both rows, yet the pass still processes [o3] from its list and sends
    [updateStatus] to the remote. *)
Lemma C9_counterexample :
  outbox (out_db (processItem dbCreateThenStatus rowCreateA
                    (Resolved "srv_1"%string) 100)) = [] /\
  log (runPass (initial dbCreateThenStatus)
         [(Resolved "srv_1"%string, 100); (Resolved "srv_1"%string, 101)]) =
    [("o1"%string, Some (CallCreateProject (Some "Ship v1"%string)));
     ("o3"%string, Some (CallUpdateStatus "srv_1" (Some DONE)))].
Proof. vm_compute. by split. Qed.

(** [processItem] never adds an entry id to the outbox. *)
Lemma onFailure_ids_subset d item message i :
  In i (List.map OutboxItem.id (outbox (fst (onFailure d item message)))) ->
  In i (List.map OutboxItem.id (outbox d)).
Proof.
  unfold onFailure.
  set (d1 := match Payload.localId _ with Some _ => _ | None => _ end).
  assert (Hd1 : List.map OutboxItem.id (outbox d1) = List.map OutboxItem.id (outbox d)).
  { subst d1. destruct (Payload.localId _) as [l|]; [|done].
    destruct (truthy l); [apply incrementOutboxAttempt_ids | done]. }
  destruct (_ <=? _); cbn [fst]; [|by rewrite Hd1].
  rewrite <- Hd1. intros Hin.
  apply List.in_map_iff in Hin as (row & <- & Hin).
  apply removeOutboxById_In in Hin as [Hin _].
  apply List.in_map_iff. eauto.
Qed.

Lemma processItem_ids_subset d item reply now i :
  In i (List.map OutboxItem.id (outbox (out_db (processItem d item reply now)))) ->
  In i (List.map OutboxItem.id (outbox d)).
Proof.
  assert (Hrm : forall d' l,
            In i (List.map OutboxItem.id (outbox (removeOutboxByLocalId d' l))) ->
            In i (List.map OutboxItem.id (outbox d'))).
  { intros d' l Hin. apply List.in_map_iff in Hin as (row & <- & Hin).
    apply List.filter_In in Hin as [Hin _]. apply List.in_map_iff. eauto. }
  assert (Hid : In i (List.map OutboxItem.id (outbox (removeOutboxById d (OutboxItem.id item)))) ->
            In i (List.map OutboxItem.id (outbox d))).
  { intros Hin. apply List.in_map_iff in Hin as (row & <- & Hin).
    apply removeOutboxById_In in Hin as [Hin _]. apply List.in_map_iff. eauto. }
  assert (Hmk : forall v, outbox (markIdeaSynced d
                    (Payload.localId (OutboxItem.payload item)) v now) = outbox d).
  { intros v. unfold markIdeaSynced. by destruct (Payload.localId _). }
  pose proof (onFailure_ids_subset d item) as Hfail.
  unfold processItem, awaitRemote.
  destruct (OutboxItem.action item); try destruct (whenTruthy _);
    destruct reply as [v|m];
    try (specialize (Hfail m); destruct (onFailure d item m));
    cbn [out_db fst] in *; auto;
    intros Hin; apply Hrm in Hin; by rewrite ?Hmk in Hin.
Qed.

Lemma flushOutbox_passes s :
  db (flushOutbox s) = db s /\ log (flushOutbox s) = log s /\
  (passes (flushOutbox s) = passes s \/ passes (flushOutbox s) = passes s ++ [Fetching]).
Proof. unfold flushOutbox. destruct (_ || _); destruct s; simpl; auto. Qed.

Lemma gone_frame i s s' :
  db s' = db s ->
  (passes s' = passes s \/ passes s' = passes s ++ [Fetching]) ->
  gone i s -> gone i s'.
Proof.
  unfold gone. intros -> Hp [Hout Hpass]. split; [done|].
  intros p Hin. destruct Hp as [Hp|Hp]; rewrite Hp in Hin; [auto|].
  apply List.in_app_iff in Hin as [Hin|[<-|[]]]; [auto | simpl; tauto].
Qed.

Lemma gone_flushOutbox i s s0 :
  db s0 = db s -> passes s0 = passes s -> gone i s -> gone i (flushOutbox s0).
Proof.
  intros Hd Hp. destruct (flushOutbox_passes s0) as (Hd' & _ & Hp').
  apply gone_frame; [congruence | by rewrite <- Hp].
Qed.

Lemma gone_finishPass i k af s : gone i s -> gone i (finishPass k af s).
Proof.
  destruct (finishPass_flags k af s) as (_ & _ & _ & Hp & Hd & _).
  unfold gone. rewrite Hd, Hp. intros [Hout Hpass]. split; [done|].
  intros p Hin. apply Hpass.
  apply list_elem_of_In in Hin. apply list_elem_of_In.
  by apply list_elem_of_delete_inv in Hin.
Qed.

Lemma gone_loopHead i k items af s :
  gone i s -> ~ In i (List.map OutboxItem.id items) ->
  gone i (loopHead k items af s).
Proof.
  intros Hg Hitems. unfold loopHead.
  destruct items as [|item rest]; [by apply gone_finishPass|].
  destruct (_ || _); [by apply gone_finishPass|].
  destruct Hg as [Hout Hpass]. split; [by destruct s|].
  intros p Hin. assert (Hin' : In p (<[k:=InFlight item rest af]> (passes s))) by (by destruct s).
  apply list_elem_of_In, list_elem_of_lookup in Hin' as [j Hj].
  destruct (decide (j = k)) as [->|Hne].
  - destruct (decide (k < length (passes s))%nat).
    + rewrite list_lookup_insert_eq in Hj by done. by simplify_eq.
    + rewrite list_insert_ge in Hj by lia.
      apply Hpass, list_elem_of_In, list_elem_of_lookup. eauto.
  - rewrite list_lookup_insert_ne in Hj by done.
    apply Hpass, list_elem_of_In, list_elem_of_lookup. eauto.
Qed.

(** Once an entry id is gone it stays gone, and no call of
    [processItem] is logged for it, unless it is enqueued again. *)
Lemma gone_step i s e :
  gone i s -> notEnqueued i e ->
  gone i (step s e) /\
  forall entry, In entry (log (step s e)) -> In entry (log s) \/ fst entry <> i.
Proof.
  intros Hg Hne. destruct e; simpl.
  - unfold mount. destruct (flushOutbox_passes (set_mountedRef true s)) as (_ & Hl & _).
    split; [apply (gone_flushOutbox i s); by destruct s|].
    rewrite Hl. destruct s; simpl; auto.
  - unfold unmount. split.
    + destruct s as [o sy rt m idx d ps ts nt lg]. by destruct rt as [[|?]|].
    + destruct s as [o sy rt m idx d ps ts nt lg]. destruct rt as [[|?]|]; simpl; auto.
  - unfold handleConnectivityChange. destruct (_ && _).
    + destruct (flushOutbox_passes
                  (set_currentRetryIndex 0 (set_isOnline (default false isConnected) s)))
        as (_ & Hl & _).
      split; [apply (gone_flushOutbox i s); by destruct s|].
      rewrite Hl. destruct s; simpl; auto.
    + split; [by destruct s | destruct s; simpl; auto].
  - unfold handleAppStateChange. destruct st; auto.
    destruct (_ && _); auto.
    destruct (flushOutbox_passes s) as (_ & Hl & _).
    split; [by apply (gone_flushOutbox i s) | rewrite Hl; auto].
  - unfold syncNow. destruct (negb _); auto;
      (split; [by destruct s | destruct s; simpl; auto]).
  - unfold fireTimer. destruct (List.find _ _) as [t|]; auto.
    set (s1 := set_timers (clearTimeout id (timers s)) s).
    destruct (flushOutbox_passes s1) as (_ & Hl & _).
    assert (Hg1 : gone i s1) by (by destruct s).
    assert (Hl1 : log s1 = log s) by (by destruct s).
    destruct (timerKind t); [destruct (_ && _)|];
      (split; [try apply (gone_flushOutbox i s1); done | rewrite ?Hl, Hl1; auto]).
  - unfold fetched. destruct (passes s !! k) as [[|]|] eqn:Hk; auto.
    destruct (getOutboxItems (db s)) as [|item rest] eqn:Hitems.
    + split; [|destruct s; simpl; auto].
      pose proof (gone_finishPass i k false s Hg) as Hfin.
      destruct (finishPass_flags k false s) as (_ & _ & _ & Hp & Hd & _).
      unfold gone in *. rewrite Hd, Hp in Hfin. by destruct s.
    + split.
      * apply gone_loopHead; [done|]. rewrite <- Hitems.
        unfold getOutboxItems. destruct Hg as [Hout _].
        intros Hin. apply Hout.
        apply list_elem_of_In. apply list_elem_of_In in Hin.
        by rewrite orderByCreatedAt_Permutation in Hin.
      * assert (Hl : log (loopHead k (item :: rest) false s) = log s).
        { unfold loopHead. destruct (_ || _);
            [by destruct (finishPass_flags k false s) as (_&_&_&_&_&?) | by destruct s]. }
        rewrite Hl. auto.
  - unfold itemDone. destruct (passes s !! k) as [[|item rest af]|] eqn:Hk; auto.
    set (o := processItem (db s) item reply now).
    set (s1 := set_log (log s ++ [(OutboxItem.id item, out_call o)]) (set_db (out_db o) s)).
    destruct Hg as [Hout Hpass].
    assert (Hp : ~ In i (passItemIds (InFlight item rest af))).
    { apply Hpass, list_elem_of_In, list_elem_of_lookup. eauto. }
    simpl in Hp.
    assert (Hg1 : gone i s1).
    { split; [|by destruct s].
      intros Hin. apply Hout. apply (processItem_ids_subset (db s) item reply now).
      by destruct s. }
    split.
    + apply gone_loopHead; [done | tauto].
    + assert (Hl : log (loopHead k rest (if out_success o then af else true) s1) = log s1).
      { unfold loopHead. destruct rest; [|destruct (_ || _)];
          try (by destruct (finishPass_flags k (if out_success o then af else true) s1)
                 as (_&_&_&_&_&?)).
        all: by destruct s1. }
      rewrite Hl. intros entry Hin.
      assert (Hin' : In entry (log s ++ [(OutboxItem.id item, out_call o)])) by (by destruct s).
      apply List.in_app_iff in Hin' as [?|[<-|[]]]; [auto|].
      right. simpl. tauto.
  - simpl in Hne. split; [|destruct s; simpl; auto].
    destruct Hg as [Hout Hpass]. split; [|by destruct s].
    destruct s as [o sy rt m idx d ps ts nt lg]; simpl in *.
    rewrite List.map_app, List.in_app_iff. simpl. tauto.
Qed.

Lemma gone_run i es : forall s,
  gone i s -> Forall (notEnqueued i) es ->
  forall entry, In entry (log (run s es)) -> In entry (log s) \/ fst entry <> i.
Proof.
  induction es as [|e es IH]; intros s Hg Hall entry Hin; [auto|].
  apply Forall_cons in Hall as [He Hall].
  destruct (gone_step i s e Hg He) as [Hg' Hlog].
  destruct (IH (step s e) Hg' Hall entry Hin) as [Hin'|]; auto.
Qed.

(** An entry of the same record that is enqueued while the pass is
    already running is not in the list of the pass: it is deleted by
    the create entry's success and never sent. *)
Example status_enqueued_during_pass_is_dropped :
  let s := run (initial dbCreateOnly)
             [EvMount; EvFetched 0;
              EvEnqueue updateStatus (payloadStatus "A") "o3" 30;
              EvItemDone 0 (Resolved "srv_1"%string) 100;
              EvAppState active; EvFetched 0] in
  outbox (db s) = [] /\ passes s = [] /\
  log s = [("o1"%string, Some (CallCreateProject (Some "Ship v1"%string)))].
Proof. vm_compute. by split_and!. Qed.

Lemma NoDup_ids_eq (l : list OutboxItem.t) a b :
  NoDup (List.map OutboxItem.id l) -> In a l -> In b l ->
  OutboxItem.id a = OutboxItem.id b -> a = b.
Proof.
  induction l as [|x l IH]; simpl; [done|].
  rewrite NoDup_cons. intros [Hnin Hnd] [->|Ha] [->|Hb] Heq; auto.
  - exfalso. apply Hnin. rewrite Heq. apply list_elem_of_In, List.in_map. done.
  - exfalso. apply Hnin. rewrite <- Heq. apply list_elem_of_In, List.in_map. done.
Qed.

(** C9 (amended): when the remote call of an item resolves,
    [processItem] reports success and deletes exactly the outbox rows
    whose payload [localId] equals the item's (deletion is by [localId],
    not by entry id), so every other pending entry for the same record
    leaves the queue with it.  The entries that the running pass has
    already fetched are nonetheless still processed from its list; an
    entry of the same record that the pass has not fetched is deleted
    without ever being processed, hence without being sent, as long as
    its id is not enqueued again. *)
Theorem C9_collateral_removal (d : Db) (item : OutboxItem.t) (value : string)
    (now : Z) (call : RemoteCall) :
  let o := processItem d item (Resolved value) now in
  out_call o = Some call ->
  out_success o = true /\
  (forall row, In row (outbox (out_db o)) <->
     In row (outbox d) /\
     payloadLocalIdIs (Payload.localId (OutboxItem.payload item)) row = false) /\
  (forall l row, Payload.localId (OutboxItem.payload item) = Some l ->
     Payload.localId (OutboxItem.payload row) = Some l ->
     ~ In row (outbox (out_db o))) /\
  (forall rest replies af, length replies = length rest ->
    List.map fst (snd (drainItems d (item :: rest) ((Resolved value, now) :: replies) af)) =
      OutboxItem.id item :: List.map OutboxItem.id rest) /\
  (forall s rest af l row es,
     db s = d -> passes s = [InFlight item rest af] ->
     NoDup (List.map OutboxItem.id (outbox d)) ->
     In row (outbox d) ->
     Payload.localId (OutboxItem.payload item) = Some l ->
     Payload.localId (OutboxItem.payload row) = Some l ->
     ~ In (OutboxItem.id row) (OutboxItem.id item :: List.map OutboxItem.id rest) ->
     Forall (notEnqueued (OutboxItem.id row)) es ->
     let s' := step s (EvItemDone 0 (Resolved value) now) in
     ~ In row (outbox (db s')) /\
     forall entry, In entry (log (run s' es)) ->
                   In entry (log s) \/ fst entry <> OutboxItem.id row).
Proof.
  intros o Hcall.
  destruct (processItem_resolved d item value now call Hcall) as [Hok Hout]. fold o in Hok, Hout.
  assert (Hin : forall row, In row (outbox (out_db o)) <->
     In row (outbox d) /\
     payloadLocalIdIs (Payload.localId (OutboxItem.payload item)) row = false).
  { intros row. rewrite Hout, List.filter_In, negb_true_iff. done. }
  assert (Hgone : forall l row, Payload.localId (OutboxItem.payload item) = Some l ->
     Payload.localId (OutboxItem.payload row) = Some l ->
     ~ In row (outbox (out_db o))).
  { intros l row Hl Hrow Hrow'. apply Hin in Hrow' as [_ Hno].
    unfold payloadLocalIdIs in Hno. rewrite Hl, Hrow in Hno.
    by rewrite bool_decide_eq_true_2 in Hno. }
  split_and!; [done | done | done | |].
  - intros rest replies af Hlen.
    apply (drainItems_ids d (item :: rest) ((Resolved value, now) :: replies) af).
    simpl. by rewrite Hlen.
  - intros s rest af l row es Hd Hp Hnd Hrow Hl Hl' Hfresh Hes s'.
    set (s1 := set_log (log s ++ [(OutboxItem.id item, out_call o)]) (set_db (out_db o) s)).
    assert (Hs' : s' = loopHead 0 rest (if out_success o then af else true) s1).
    { subst s' s1 o. simpl. unfold itemDone. rewrite Hp. simpl. by rewrite Hd. }
    assert (Hg1 : gone (OutboxItem.id row) s1).
    { split.
      - assert (Hdb : db s1 = out_db o) by (by destruct s). rewrite Hdb.
        intros Hi. apply List.in_map_iff in Hi as (row' & Hid & Hrow').
        pose proof Hrow' as Hrow''. apply Hin in Hrow'' as [Hrow'' _].
        assert (row' = row) by (by apply (NoDup_ids_eq (outbox d))).
        subst row'. by apply (Hgone l row).
      - assert (Hps : passes s1 = [InFlight item rest af]) by (by destruct s).
        rewrite Hps. intros p [<-|[]]. exact Hfresh. }
    assert (Hg' : gone (OutboxItem.id row) s').
    { rewrite Hs'. apply gone_loopHead; [done|]. simpl in Hfresh. tauto. }
    assert (Hlog : log s' = log s ++ [(OutboxItem.id item, out_call o)]).
    { rewrite Hs'. unfold loopHead. destruct rest; [|destruct (_ || _)];
        try (destruct (finishPass_flags 0 (if out_success o then af else true) s1)
               as (_&_&_&_&_&->)).
      all: by destruct s. }
    split.
    + destruct Hg' as [Hout' _]. intros Hi. apply Hout'. by apply List.in_map.
    + intros entry Hentry.
      destruct (gone_run _ es s' Hg' Hes entry Hentry) as [He|]; [|by right].
      rewrite Hlog in He. apply List.in_app_iff in He as [?|[<-|[]]]; [by left|].
      right. simpl. simpl in Hfresh. intros Heq. apply Hfresh. by left.
Qed.

Lemma C9_collateral_removal_witness :
  let o := processItem dbCreateThenStatus rowCreateA (Resolved "srv_1"%string) 100 in
  out_success o = true /\ ~ In rowStatusA (outbox (out_db o)).
Proof.
  destruct (C9_collateral_removal dbCreateThenStatus rowCreateA "srv_1" 100
              (CallCreateProject (Some "Ship v1"%string)) eq_refl)
    as (Hok & _ & Hgone & _).
  split; [exact Hok | exact (Hgone "A"%string rowStatusA eq_refl eq_refl)].
Defined.

(** ** C10 *)

(** The claim as written fails in its last part.  An [updateIdea] entry
    [o4] queued behind the [createProject] entry [o1] of the same record
    is removed from the outbox by the engine: [o1] succeeds and deletes
    by [localId]. *)
Lemma C10_counterexample :
  let s' := runPass (initial dbCreateThenUpdateIdea)
              [(Resolved "srv_1"%string, 100); (Resolved "unused"%string, 101)] in
  In rowUpdateIdeaA (outbox dbCreateThenUpdateIdea) /\
  log s' = [("o1"%string, Some (CallCreateProject (Some "Ship v1"%string)));
            ("o4"%string, None)] /\
  outbox (db s') = [].
Proof. vm_compute. split_and!; auto. Qed.

(** A pass whose list contains an entry that [processItem] does not
    handle ends with [anyFailed]. *)
Lemma drainItems_unhandled item items : forall d replies af,
  OutboxItem.action item = updateIdea ->
  In item items -> length replies = length items ->
  snd (fst (drainItems d items replies af)) = true.
Proof.
  induction items as [|x rest IH]; intros d replies af Hact Hin Hlen; [done|].
  destruct replies as [|[reply now] replies]; [done|].
  rewrite drainItems_cons. cbn [fst snd]. simpl in Hlen.
  destruct Hin as [->|Hin].
  - unfold processItem at 2. rewrite Hact. cbn [out_success].
    apply drainItems_anyFailed_mono.
  - apply IH; [done | done | lia].
Qed.

(** C10 (amended): an entry whose action is none of the five handled
    kinds ([updateIdea]) makes [processItem] return [false] with no
    remote call and the store untouched: no attempt is counted and the
    entry is not removed, so the ceiling is never applied to it.  Every
    pass of an idle, online, mounted engine whose list contains such an
    entry ends with [anyFailed] and schedules a retry.  The entry stays
    in the outbox through the processing of any entry that has another
    id and another payload [localId], hence through every pass made of
    such entries and of unhandled ones; it leaves the outbox only as
    collateral of an entry with its [localId] or id. *)
Theorem C10_unhandled_action (d0 : Db) (es : list Event) (item : OutboxItem.t) :
  OutboxItem.action item = updateIdea ->
  (forall d reply now, processItem d item reply now = mkOutcome d None false) /\
  (let s := run (initial d0) es in
   passes s = [] -> isOnline s = true -> mountedRef s = true ->
   In item (getOutboxItems (db s)) ->
   forall replies, length replies = length (outbox (db s)) ->
     passAnyFailed s replies = true /\
     currentRetryIndex (runPass s replies) = S (currentRetryIndex s) /\
     scheduledRetry (runPass s replies) = Some (retryDelay (currentRetryIndex s))) /\
  (forall d j reply now,
     In item (outbox d) ->
     OutboxItem.id item <> OutboxItem.id j ->
     payloadLocalIdIs (Payload.localId (OutboxItem.payload j)) item = false ->
     In item (outbox (out_db (processItem d j reply now)))) /\
  (forall d items replies af,
     Forall (fun j => OutboxItem.action j = updateIdea \/
                      (OutboxItem.id item <> OutboxItem.id j /\
                       payloadLocalIdIs (Payload.localId (OutboxItem.payload j)) item = false))
            items ->
     In item (outbox d) ->
     In item (outbox (fst (fst (drainItems d items replies af))))).
Proof.
  intros Hact. split_and!.
  - intros d reply now. unfold processItem. by rewrite Hact.
  - intros s Hp Ho Hm Hin replies Hlen.
    assert (Hok : timersOk s) by apply timersOk_run, timersOk_initial.
    assert (Hsy : isSyncing s = false).
    { pose proof (syncGuard_run es (initial d0) (syncGuard_initial d0))
        as [[? _]|[_ [p Hq]]]; [done|]. fold s in Hq. congruence. }
    assert (Haf : passAnyFailed s replies = true).
    { unfold passAnyFailed. apply (drainItems_unhandled item); [done | done |].
      by rewrite getOutboxItems_length. }
    destruct (runPass_effect s replies Hok Hp Hsy Ho Hm Hlen) as (_ & Hsched & _).
    destruct (Hsched Haf) as (Hidx & Hdelay & _). done.
  - intros d j reply now Hin Hid Hl. apply processItem_frame; [done | done | done].
  - intros d items replies af. apply drainItems_keeps.
Qed.

Lemma C10_unhandled_action_witness :
  processItem dbCreateThenUpdateIdea rowUpdateIdeaA (Resolved "unused"%string) 100 =
    mkOutcome dbCreateThenUpdateIdea None false /\
  scheduledRetry (runPass (initial (mkDb sampleIdeas [rowUpdateIdeaA]))
                    [(Resolved "unused"%string, 100)]) = Some 2000.
Proof.
  destruct (C10_unhandled_action (mkDb sampleIdeas [rowUpdateIdeaA]) [] rowUpdateIdeaA eq_refl)
    as (Hproc & Hpass & _).
  split.
  - exact (Hproc dbCreateThenUpdateIdea (Resolved "unused"%string) 100).
  - destruct (Hpass eq_refl eq_refl eq_refl ltac:(simpl; auto)
                [(Resolved "unused"%string, 100)] eq_refl) as (_ & _ & Hsched).
    exact Hsched.
Defined.

(** * Further properties of the code *)

(** ** The local store *)

Lemma ideasRows_In d r :
  In r (ideasRows d) <-> exists l, ideas d !! l = Some r.
Proof.
  unfold ideasRows. rewrite <- list_elem_of_In, list_elem_of_fmap. split.
  - intros ([l r'] & -> & Hin). exists l. by apply elem_of_map_to_list.
  - intros [l Hl]. exists (l, r). split; [done|]. by apply elem_of_map_to_list.
Qed.

Lemma insertByCreatedAtDesc_Permutation x l : insertByCreatedAtDesc x l ≡ₚ x :: l.
Proof.
  induction l as [|y l IH]; simpl; [done|].
  destruct (_ <=? _); [done|].
  rewrite IH. apply perm_swap.
Qed.

Lemma orderByCreatedAtDesc_Permutation l : orderByCreatedAtDesc l ≡ₚ l.
Proof.
  induction l as [|x l IH]; simpl; [done|].
  rewrite insertByCreatedAtDesc_Permutation. by rewrite IH.
Qed.

Lemma insertByCreatedAtDesc_sorted x l :
  StronglySorted ge_createdAt l ->
  StronglySorted ge_createdAt (insertByCreatedAtDesc x l).
Proof.
  induction 1 as [|y l Hs IH Hy]; simpl.
  - repeat constructor.
  - destruct (Z.leb_spec (IdeaRecord.createdAt y) (IdeaRecord.createdAt x)).
    + constructor; [by constructor|].
      constructor; [done|].
      eapply Forall_impl; [exact Hy|]. unfold ge_createdAt in *. intros; lia.
    + constructor; [done|].
      rewrite insertByCreatedAtDesc_Permutation.
      constructor; [unfold ge_createdAt; lia | done].
Qed.

Lemma orderByCreatedAtDesc_sorted l : StronglySorted ge_createdAt (orderByCreatedAtDesc l).
Proof.
  induction l; simpl; [constructor | by apply insertByCreatedAtDesc_sorted].
Qed.

Lemma selectIdeas_In where_ d r :
  In r (selectIdeas where_ d) <->
  (exists l, ideas d !! l = Some r) /\ where_ r = true.
Proof.
  unfold selectIdeas.
  rewrite <- list_elem_of_In, orderByCreatedAtDesc_Permutation, list_elem_of_In.
  by rewrite List.filter_In, ideasRows_In.
Qed.

Lemma selectIdeas_sorted where_ d : StronglySorted ge_createdAt (selectIdeas where_ d).
Proof. apply orderByCreatedAtDesc_sorted. Qed.

Lemma listProjectsLocal_In d r :
  In r (listProjectsLocal d) <->
  (exists l, ideas d !! l = Some r) /\
  IdeaRecord.type r = PROJECT /\ IdeaRecord.archived r = false.
Proof.
  unfold listProjectsLocal. rewrite selectIdeas_In, andb_true_iff, negb_true_iff.
  by destruct (IdeaRecord.type r); simpl; intuition.
Qed.

Lemma listInboxLocal_In d r :
  In r (listInboxLocal d) <->
  (exists l, ideas d !! l = Some r) /\
  IdeaRecord.status r = INBOX /\ IdeaRecord.archived r = false.
Proof.
  unfold listInboxLocal. rewrite selectIdeas_In, andb_true_iff, negb_true_iff.
  by destruct (IdeaRecord.status r); simpl; intuition.
Qed.

Lemma listFeaturesByProjectLocal_In d p r :
  In r (listFeaturesByProjectLocal d p) <->
  (exists l, ideas d !! l = Some r) /\
  IdeaRecord.type r = FEATURE /\
  IdeaRecord.parentProjectLocalId r = Some p /\
  IdeaRecord.archived r = false.
Proof.
  unfold listFeaturesByProjectLocal.
  rewrite selectIdeas_In, !andb_true_iff, negb_true_iff, bool_decide_eq_true.
  by destruct (IdeaRecord.type r); simpl; intuition.
Qed.

Lemma listAllIdeas_In d r :
  In r (listAllIdeas d) <->
  (exists l, ideas d !! l = Some r) /\ IdeaRecord.archived r = false.
Proof. unfold listAllIdeas. by rewrite selectIdeas_In, negb_true_iff. Qed.

Lemma listRecentIdeas_In d limit r :
  In r (listRecentIdeas d limit) -> In r (listAllIdeas d).
Proof.
  unfold listRecentIdeas. fold (listAllIdeas d).
  destruct (_ <? _); [done|].
  intros Hr. apply list_elem_of_In in Hr. apply list_elem_of_In.
  rewrite <- (take_drop (Z.to_nat (default 3 limit)) (listAllIdeas d)).
  apply elem_of_app. by left.
Qed.

(** X1: each list query of the local store returns exactly the rows of
    [ideas] that are not archived and pass its filter (type [PROJECT];
    status [INBOX]; type [FEATURE] under the given project; no filter),
    newest first. *)
Theorem list_queries_select (d : Db) (projectLocalId : string) :
  (forall r, In r (listProjectsLocal d) <->
     (exists l, ideas d !! l = Some r) /\
     IdeaRecord.type r = PROJECT /\ IdeaRecord.archived r = false) /\
  (forall r, In r (listInboxLocal d) <->
     (exists l, ideas d !! l = Some r) /\
     IdeaRecord.status r = INBOX /\ IdeaRecord.archived r = false) /\
  (forall r, In r (listFeaturesByProjectLocal d projectLocalId) <->
     (exists l, ideas d !! l = Some r) /\
     IdeaRecord.type r = FEATURE /\
     IdeaRecord.parentProjectLocalId r = Some projectLocalId /\
     IdeaRecord.archived r = false) /\
  (forall r, In r (listAllIdeas d) <->
     (exists l, ideas d !! l = Some r) /\ IdeaRecord.archived r = false) /\
  StronglySorted ge_createdAt (listProjectsLocal d) /\
  StronglySorted ge_createdAt (listInboxLocal d) /\
  StronglySorted ge_createdAt (listFeaturesByProjectLocal d projectLocalId) /\
  StronglySorted ge_createdAt (listAllIdeas d).
Proof.
  split_and!; try apply selectIdeas_sorted; intros r.
  - apply listProjectsLocal_In.
  - apply listInboxLocal_In.
  - apply listFeaturesByProjectLocal_In.
  - apply listAllIdeas_In.
Qed.

(** X2: [listRecentIdeas] returns at most [limit] rows (3 when no limit
    is given, all rows when the limit is negative), none of them
    archived, newest first, and no unarchived row it leaves out is newer
    than one it returns. *)
Theorem listRecentIdeas_most_recent (d : Db) (limit : option Z) :
  let rows := listRecentIdeas d limit in
  (0 <= default 3 limit -> Z.of_nat (length rows) <= default 3 limit) /\
  (default 3 limit < 0 -> rows = listAllIdeas d) /\
  (forall r, In r rows -> In r (listAllIdeas d)) /\
  StronglySorted ge_createdAt rows /\
  (forall r r', In r rows -> In r' (listAllIdeas d) -> ~ In r' rows ->
     IdeaRecord.createdAt r' <= IdeaRecord.createdAt r).
Proof.
  intros rows. subst rows. unfold listRecentIdeas. fold (listAllIdeas d).
  pose proof (selectIdeas_sorted (fun r => negb (IdeaRecord.archived r)) d) as Hs.
  fold (listAllIdeas d) in Hs.
  destruct (Z.ltb_spec (default 3 limit) 0) as [Hneg|Hpos].
  - split_and!; try done; lia.
  - set (n := Z.to_nat (default 3 limit)).
    rewrite <- (take_drop n (listAllIdeas d)) in Hs.
    apply StronglySorted_app in Hs as (Hcross & Hs1 & _).
    split_and!; try done; try lia.
    + intros _. rewrite length_take. lia.
    + intros r Hr. apply list_elem_of_In in Hr. apply list_elem_of_In.
      rewrite <- (take_drop n (listAllIdeas d)). apply elem_of_app. by left.
    + intros r r' Hr Hr' Hnot.
      apply list_elem_of_In in Hr, Hr'.
      rewrite <- (take_drop n (listAllIdeas d)) in Hr'.
      apply elem_of_app in Hr' as [Hr'|Hr'].
      * by apply list_elem_of_In in Hr'.
      * apply (Hcross r r'); done.
Qed.

(** X3: [insertIdeaLocal] stores the new record under a [localId] that
    is not in the table yet, unsynced and unarchived, with status
    [BACKLOG] for a project and [INBOX] for a feature unless one is
    given; the record can be read back, shows in [listAllIdeas], and no
    other row and no outbox entry changes.  On a [localId] that is
    already there it fails and the store is as before. *)
Theorem insertIdeaLocal_lookup (d : Db) (content : string) (type : IdeaType)
    (parent : option string) (status : option IdeaStatus) (localId : string) (now : Z) :
  (ideas d !! localId = None ->
   exists d' r,
     insertIdeaLocal d content type parent status localId now = Some (d', r) /\
     ideas d' !! localId = Some r /\
     (forall l, l <> localId -> ideas d' !! l = ideas d !! l) /\
     outbox d' = outbox d /\
     getServerIdByLocalId d' (Some localId) = None /\
     IdeaRecord.localId r = localId /\ IdeaRecord.content r = content /\
     IdeaRecord.status r =
       default (match type with PROJECT => BACKLOG | FEATURE => INBOX end) status /\
     In r (listAllIdeas d')) /\
  (is_Some (ideas d !! localId) ->
   insertIdeaLocal d content type parent status localId now = None).
Proof.
  split.
  - intros Hfresh. unfold insertIdeaLocal. rewrite Hfresh.
    eexists _, _. split; [reflexivity|]. simpl.
    split_and!; try done.
    + apply lookup_insert_eq.
    + intros l Hl. by apply lookup_insert_ne.
    + unfold getServerIdByLocalId; simpl. by rewrite lookup_insert_eq.
    + apply listAllIdeas_In.
      split; [|done]. exists localId. simpl. apply lookup_insert_eq.
  - intros [r Hr]. unfold insertIdeaLocal. by rewrite Hr.
Qed.

Lemma insertIdeaLocal_lookup_witness :
  exists d' r,
    insertIdeaLocal dbCreateOnly "Dark mode" FEATURE (Some "A"%string) None "G" 7 =
      Some (d', r) /\
    IdeaRecord.status r = INBOX /\ In r (listAllIdeas d').
Proof.
  destruct (proj1 (insertIdeaLocal_lookup dbCreateOnly "Dark mode" FEATURE
                     (Some "A"%string) None "G" 7) eq_refl)
    as (d' & r & Hins & _ & _ & _ & _ & _ & _ & Hst & Hin).
  exists d', r. split_and!; [exact Hins | exact Hst | exact Hin].
Defined.

(** X4: the writes that address a row by [localId] change nothing when
    no row has that [localId]: [updateIdeaLocalStatus],
    [archiveIdeaLocal], [deleteIdeaLocal] and [markIdeaSynced] return
    the store unchanged. *)
Theorem writes_on_missing_localId (d : Db) (localId : string) (status : IdeaStatus)
    (serverId : string) (now : Z) :
  ideas d !! localId = None ->
  updateIdeaLocalStatus d localId status now = d /\
  archiveIdeaLocal d localId now = d /\
  deleteIdeaLocal d localId = d /\
  markIdeaSynced d (Some localId) serverId now = d.
Proof.
  intros Hnone. destruct d as [m ob]; simpl in *.
  assert (Halter : forall f : IdeaRecord.t -> IdeaRecord.t, alter f localId m = m).
  { intros f. apply alter_id. intros x Hx. congruence. }
  unfold updateIdeaLocalStatus, archiveIdeaLocal, deleteIdeaLocal, markIdeaSynced; simpl.
  rewrite !Halter, delete_id by done. done.
Qed.

Lemma writes_on_missing_localId_witness :
  deleteIdeaLocal dbCreateOnly "nobody" = dbCreateOnly /\
  archiveIdeaLocal dbCreateOnly "nobody" 9 = dbCreateOnly.
Proof.
  destruct (writes_on_missing_localId dbCreateOnly "nobody" DONE "srv" 9 eq_refl)
    as (_ & Ha & Hd & _).
  split; [exact Hd | exact Ha].
Defined.

Lemma listRecentIdeas_most_recent_witness :
  length (listRecentIdeas dbCreateOnly (Some 1)) = 1%nat /\
  listRecentIdeas dbCreateOnly (Some (-1)) = listAllIdeas dbCreateOnly.
Proof.
  destruct (listRecentIdeas_most_recent dbCreateOnly (Some (-1)))
    as (_ & Hall & _).
  split; [reflexivity | exact (Hall ltac:(simpl; lia))].
Defined.

Lemma enqueueOutboxChecked_fresh d action payload id createdAt :
  ~ In id (List.map OutboxItem.id (outbox d)) ->
  enqueueOutboxChecked d action payload id createdAt =
    Some (enqueueOutbox d action payload id createdAt).
Proof.
  intros Hfresh. unfold enqueueOutboxChecked.
  rewrite bool_decide_eq_false_2; [done|]. by rewrite list_elem_of_In.
Qed.

(** X5: [archiveIdeaLocal] takes the row out of every list query and
    keeps it in the table: its [serverId] still resolves, no row is
    added or removed, and the other rows and the outbox are
    untouched. *)
Theorem archive_hides_row (d : Db) (localId : string) (now : Z) :
  let d' := archiveIdeaLocal d localId now in
  (forall r, ideas d' !! localId = Some r ->
     ~ In r (listProjectsLocal d') /\ ~ In r (listInboxLocal d') /\
     ~ In r (listAllIdeas d') /\ ~ In r (listRecentIdeas d' None) /\
     forall p, ~ In r (listFeaturesByProjectLocal d' p)) /\
  (forall l, is_Some (ideas d' !! l) <-> is_Some (ideas d !! l)) /\
  (forall l, getServerIdByLocalId d' l = getServerIdByLocalId d l) /\
  (forall l, l <> localId -> ideas d' !! l = ideas d !! l) /\
  outbox d' = outbox d.
Proof.
  intros d'. subst d'. unfold archiveIdeaLocal.
  split_and!; simpl; try done.
  - intros r Hr. simpl in Hr. rewrite lookup_alter_eq in Hr.
    destruct (ideas d !! localId) as [r0|]; [|done]. simpl in Hr. simplify_eq.
    assert (Hall : ~ In (setArchived now r0)
              (listAllIdeas (mkDb (alter (setArchived now) localId (ideas d)) (outbox d)))).
    { intros Hin. apply listAllIdeas_In in Hin as [_ Harch]. done. }
    split_and!; try done.
    + intros Hin. apply listProjectsLocal_In in Hin as (_ & _ & Harch). done.
    + intros Hin. apply listInboxLocal_In in Hin as (_ & _ & Harch). done.
    + intros Hin. apply Hall. by apply (listRecentIdeas_In _ None).
    + intros p Hin. apply listFeaturesByProjectLocal_In in Hin as (_ & _ & _ & Harch).
      done.
  - intros l. rewrite lookup_alter. case_decide; [subst|done].
    rewrite !is_Some_alt. by destruct (ideas d !! l).
  - intros [l|]; [|done]. unfold getServerIdByLocalId; simpl.
    rewrite lookup_alter. case_decide; [subst|done].
    by destruct (ideas d !! l).
  - intros l Hl. by apply lookup_alter_ne.
Qed.

Lemma deleted_rows d p r :
  keysOk d ->
  (exists l, delete p (ideas d) !! l = Some r) <->
  (exists l, ideas d !! l = Some r) /\ IdeaRecord.localId r <> p.
Proof.
  intros Hk. split.
  - intros [l Hl]. apply lookup_delete_Some in Hl as [Hne Hl].
    split; [eauto|]. by rewrite (Hk l r Hl).
  - intros [[l Hl] Hne]. exists l. apply lookup_delete_Some. split; [|done].
    intros ->. apply Hne. by apply Hk.
Qed.

(** X6: [deleteIdeaLocal] removes the one row and nothing else.  Its
    [serverId] no longer resolves, the features stored under the deleted
    project are still in the table and still listed for it, and the
    outbox is untouched: the delete does not cascade. *)
Theorem delete_does_not_cascade (d : Db) (p : string) :
  keysOk d ->
  let d' := deleteIdeaLocal d p in
  ideas d' !! p = None /\
  getServerIdByLocalId d' (Some p) = None /\
  (forall l, l <> p -> ideas d' !! l = ideas d !! l) /\
  (forall r, In r (listFeaturesByProjectLocal d' p) <->
     In r (listFeaturesByProjectLocal d p) /\ IdeaRecord.localId r <> p) /\
  (forall r, In r (listAllIdeas d') <->
     In r (listAllIdeas d) /\ IdeaRecord.localId r <> p) /\
  outbox d' = outbox d.
Proof.
  intros Hk d'. subst d'. unfold deleteIdeaLocal.
  split_and!; simpl; try done.
  - apply lookup_delete_eq.
  - unfold getServerIdByLocalId; simpl. by rewrite lookup_delete_eq.
  - intros l Hl. by apply lookup_delete_ne.
  - intros r. unfold listFeaturesByProjectLocal. rewrite !selectIdeas_In. simpl.
    rewrite (deleted_rows d p r Hk). tauto.
  - intros r. unfold listAllIdeas. rewrite !selectIdeas_In. simpl.
    rewrite (deleted_rows d p r Hk). tauto.
Qed.

Lemma keysOk_sample : keysOk dbProjectFeature.
Proof.
  intros l r Hl. unfold dbProjectFeature, sampleIdeas in Hl. simpl in Hl.
  apply lookup_insert_Some in Hl as [[<- <-]|[_ Hl]]; [done|].
  apply lookup_singleton_Some in Hl as [<- <-]. done.
Qed.

Lemma delete_does_not_cascade_witness :
  getServerIdByLocalId (deleteIdeaLocal dbProjectFeature "A") (Some "A"%string) = None /\
  is_Some (ideas (deleteIdeaLocal dbProjectFeature "A") !! "F"%string).
Proof.
  destruct (delete_does_not_cascade dbProjectFeature "A" keysOk_sample)
    as (_ & Hsrv & Hother & _).
  split; [exact Hsrv|].
  rewrite (Hother "F"%string ltac:(discriminate)). by eexists.
Defined.

(** ** The engine and the store *)

(** The store after a step: unchanged, or changed by one [processItem],
    or by one enqueue. *)
Lemma finishPass_db k af s : db (finishPass k af s) = db s.
Proof. by destruct (finishPass_flags k af s) as (_&_&_&_&?&_). Qed.

Lemma loopHead_db k items af s : db (loopHead k items af s) = db s.
Proof.
  unfold loopHead. destruct items; [apply finishPass_db|].
  destruct (_ || _); [apply finishPass_db | by destruct s].
Qed.

Lemma flushOutbox_db s : db (flushOutbox s) = db s.
Proof. by destruct (flushOutbox_passes s) as (? & _). Qed.

Lemma step_db s e :
  db (step s e) = db s \/
  (exists item reply now, db (step s e) = out_db (processItem (db s) item reply now)) \/
  (exists a p i t, e = EvEnqueue a p i t /\ db (step s e) = enqueueOutbox (db s) a p i t).
Proof.
  destruct e; simpl.
  - left. unfold mount. rewrite flushOutbox_db. by destruct s.
  - left. unfold unmount. destruct s as [o sy rt m idx d ps ts nt lg].
    by destruct rt as [[|?]|].
  - left. unfold handleConnectivityChange.
    destruct (_ && _); [rewrite flushOutbox_db|]; by destruct s.
  - left. unfold handleAppStateChange. destruct st; try done.
    destruct (_ && _); [apply flushOutbox_db | done].
  - left. unfold syncNow. destruct (negb _); by destruct s.
  - left. unfold fireTimer. destruct (List.find _ _) as [t|]; [|done].
    destruct (timerKind t); [destruct (_ && _)|]; rewrite ?flushOutbox_db; by destruct s.
  - left. unfold fetched. destruct (passes s !! k) as [[|]|]; try done.
    destruct (getOutboxItems (db s)); [by destruct s | apply loopHead_db].
  - unfold itemDone. destruct (passes s !! k) as [[|item rest af]|]; auto.
    right. left. exists item, reply, now. rewrite loopHead_db. by destruct s.
  - right. right. exists action, payload, id, createdAt. split; [done | by destruct s].
Qed.

Lemma runPass_db s replies :
  passes s = [] -> isSyncing s = false -> isOnline s = true -> mountedRef s = true ->
  length replies = length (outbox (db s)) ->
  db (runPass s replies) =
    fst (fst (drainItems (db s) (getOutboxItems (db s)) replies false)).
Proof.
  intros Hp Hsy Ho Hm Hlen.
  rewrite (runPass_spec s replies Hp Hsy Ho Hm Hlen).
  destruct (drainItems (db s) _ replies false) as [[d' af] l]. cbn [fst].
  rewrite finishPass_db. by destruct s.
Qed.

Lemma sameLocalFields_refl r : sameLocalFields r r.
Proof. by repeat split. Qed.

Lemma sameLocalFields_trans r1 r2 r3 :
  sameLocalFields r1 r2 -> sameLocalFields r2 r3 -> sameLocalFields r1 r3.
Proof.
  unfold sameLocalFields. intros (?&?&?&?&?&?&?&?) (?&?&?&?&?&?&?&?).
  split_and!; congruence.
Qed.

Lemma processItem_record d item reply now l r :
  ideas d !! l = Some r ->
  exists r', ideas (out_db (processItem d item reply now)) !! l = Some r' /\
             sameLocalFields r r'.
Proof.
  intros Hl. destruct (processItem_ideas d item reply now)
    as [->|(l' & v & _ & _ & _ & ->)].
  - exists r. split; [done | apply sameLocalFields_refl].
  - rewrite lookup_alter. case_decide; [subst l'|].
    + rewrite Hl. simpl. eexists. split; [done|]. by repeat split.
    + exists r. split; [done | apply sameLocalFields_refl].
Qed.

Lemma processItem_no_record d item reply now l :
  ideas d !! l = None ->
  ideas (out_db (processItem d item reply now)) !! l = None.
Proof.
  intros Hl. destruct (processItem_ideas d item reply now)
    as [->|(l' & v & _ & _ & _ & ->)]; [done|].
  rewrite lookup_alter. case_decide; [subst l'|done]. by rewrite Hl.
Qed.

(** X7: whatever events run, the engine neither adds nor deletes a row
    of [ideas], and in a row it only ever writes [serverId] and
    [updatedAt]: content, type, parent, status, archived flag and
    creation time stay as the user left them. *)
Theorem sync_keeps_local_fields (s : State) (es : list Event) (l : string) :
  (ideas (db s) !! l = None -> ideas (db (run s es)) !! l = None) /\
  (forall r, ideas (db s) !! l = Some r ->
     exists r', ideas (db (run s es)) !! l = Some r' /\ sameLocalFields r r').
Proof.
  revert s. induction es as [|e es IH]; intros s.
  - split; [done|]. intros r Hr. exists r. split; [done | apply sameLocalFields_refl].
  - simpl. destruct (IH (step s e)) as [IHn IHs]. split.
    + intros Hl. apply IHn.
      destruct (step_db s e) as [->|[(item & reply & now & ->)|(a & p & i & t & _ & ->)]];
        [done | by apply processItem_no_record | done].
    + intros r Hr.
      assert (exists r1, ideas (db (step s e)) !! l = Some r1 /\ sameLocalFields r r1)
        as (r1 & Hr1 & Hs1).
      { destruct (step_db s e)
          as [->|[(item & reply & now & ->)|(a & p & i & t & _ & ->)]].
        - exists r. split; [done | apply sameLocalFields_refl].
        - by apply processItem_record.
        - exists r. split; [done | apply sameLocalFields_refl]. }
      destruct (IHs r1 Hr1) as (r' & Hr' & Hs').
      exists r'. split; [done|]. by eapply sameLocalFields_trans.
Qed.

Lemma sync_keeps_local_fields_witness :
  exists r', ideas (db (runPass (initial dbCreateOnly)
                         [(Resolved "srv_1"%string, 100)])) !! "A"%string = Some r' /\
             IdeaRecord.content r' = "Ship v1"%string.
Proof.
  destruct (proj2 (sync_keeps_local_fields (initial dbCreateOnly)
                     [EvMount; EvFetched 0; EvItemDone 0 (Resolved "srv_1"%string) 100]
                     "A") (sampleIdea "A" PROJECT) eq_refl)
    as (r' & Hr' & Hsame).
  exists r'. split; [exact Hr'|].
  destruct Hsame as (_ & Hc & _). exact Hc.
Defined.

Lemma processItem_ids_sublist d item reply now :
  List.map OutboxItem.id (outbox (out_db (processItem d item reply now)))
    `sublist_of` List.map OutboxItem.id (outbox d).
Proof.
  assert (Hfilter : forall (f : OutboxItem.t -> bool) (l : list OutboxItem.t),
            List.map OutboxItem.id (List.filter f l)
              `sublist_of` List.map OutboxItem.id l).
  { intros f l. induction l as [|x l IH]; simpl; [done|].
    destruct (f x); simpl; [by apply sublist_skip | by apply sublist_cons]. }
  assert (Hmk : forall v, outbox (markIdeaSynced d
                    (Payload.localId (OutboxItem.payload item)) v now) = outbox d).
  { intros v. unfold markIdeaSynced. by destruct (Payload.localId _). }
  assert (Hfail : forall m,
            List.map OutboxItem.id (outbox (fst (onFailure d item m)))
              `sublist_of` List.map OutboxItem.id (outbox d)).
  { intros m. unfold onFailure.
    set (d1 := match Payload.localId _ with Some _ => _ | None => _ end).
    assert (Hd1 : List.map OutboxItem.id (outbox d1) = List.map OutboxItem.id (outbox d)).
    { subst d1. destruct (Payload.localId _) as [l|]; [|done].
      destruct (truthy l); [apply incrementOutboxAttempt_ids | done]. }
    destruct (_ <=? _); cbn [fst]; rewrite <- Hd1; [apply Hfilter | done]. }
  unfold processItem, awaitRemote.
  destruct (OutboxItem.action item); try destruct (whenTruthy _);
    destruct reply as [v|m];
    try (specialize (Hfail m); destruct (onFailure d item m));
    cbn [out_db fst] in *; try done;
    unfold removeOutboxByLocalId, removeOutboxById; cbn [outbox];
    rewrite ?Hmk; apply Hfilter.
Qed.

(** X8: entry ids stay unique.  If the ids of the outbox are pairwise
    distinct and every enqueue along the way uses an id that is not in
    the outbox, they are pairwise distinct after any run of events; and
    a step never puts an id into the outbox except the one it
    enqueues. *)
Theorem outbox_ids_stay_unique (s : State) (es : list Event) :
  uniqueIds (db s) -> freshRun s es ->
  uniqueIds (db (run s es)) /\
  forall e i, In i (List.map OutboxItem.id (outbox (db (step s e)))) ->
    In i (List.map OutboxItem.id (outbox (db s))) \/
    exists a p t, e = EvEnqueue a p i t.
Proof.
  intros Hu Hf. split.
  - revert s Hu Hf. induction es as [|e es IH]; intros s Hu Hf; [done|].
    destruct Hf as [He Hf]. simpl. apply IH; [|done].
    unfold uniqueIds in *.
    destruct (step_db s e) as [->|[(item & reply & now & ->)|(a & p & i & t & -> & ->)]].
    + done.
    + eapply sublist_NoDup; [exact Hu | apply processItem_ids_sublist].
    + simpl in He. simpl. rewrite List.map_app. simpl.
      apply NoDup_app. split_and!; [done | | apply NoDup_singleton].
      intros x Hx Hx'. apply list_elem_of_singleton in Hx'. subst x.
      apply He. by apply list_elem_of_In.
  - intros e i Hin.
    destruct (step_db s e) as [Hd|[(item & reply & now & Hd)|(a & p & i' & t & -> & Hd)]];
      rewrite Hd in Hin.
    + by left.
    + left. by apply (processItem_ids_subset (db s) item reply now).
    + simpl in Hin. rewrite List.map_app, List.in_app_iff in Hin. simpl in Hin.
      destruct Hin as [?|[<-|[]]]; [by left|]. right. eauto.
Qed.

Lemma outbox_ids_stay_unique_witness :
  uniqueIds (db (run (initial dbCreateOnly)
                   [EvEnqueue updateStatus (payloadStatus "A") "o3" 30; EvMount;
                    EvFetched 0])).
Proof.
  refine (proj1 (outbox_ids_stay_unique (initial dbCreateOnly)
                   [EvEnqueue updateStatus (payloadStatus "A") "o3" 30; EvMount;
                    EvFetched 0] _ _)).
  - unfold uniqueIds. simpl. apply NoDup_singleton.
  - simpl. split_and!; try done. intros [H|[]]. discriminate H.
Defined.

(** An entry that settles is out of the outbox once its call has
    resolved or turned out unnecessary, and no other row is touched. *)
Lemma processItem_settles d item value now row :
  settles item ->
  In row (outbox (out_db (processItem d item (Resolved value) now))) ->
  In row (outbox d) /\ row <> item.
Proof.
  intros [Hact [l Hl]] Hin.
  assert (Hby_l : In row (outbox (removeOutboxByLocalId d (Some l))) ->
                  In row (outbox d) /\ row <> item).
  { unfold removeOutboxByLocalId; simpl. rewrite List.filter_In, negb_true_iff.
    intros [Hrow Hno]. split; [done|]. intros ->.
    unfold payloadLocalIdIs in Hno. rewrite Hl in Hno.
    by rewrite bool_decide_eq_true_2 in Hno. }
  assert (Hby_id : In row (outbox (removeOutboxById d (OutboxItem.id item))) ->
                   In row (outbox d) /\ row <> item).
  { rewrite removeOutboxById_In. intros [Hrow Hno]. split; [done|]. by intros ->. }
  revert Hin. unfold processItem, awaitRemote, markIdeaSynced. rewrite Hl.
  destruct (OutboxItem.action item); try destruct (whenTruthy _);
    cbn [out_db]; try done.
Qed.

Lemma processItem_resolved_success d item value now :
  OutboxItem.action item <> updateIdea ->
  out_success (processItem d item (Resolved value) now) = true.
Proof.
  intros Hact. unfold processItem, awaitRemote.
  destruct (OutboxItem.action item); try destruct (whenTruthy _); done.
Qed.

Lemma drainItems_settles items : forall d replies af row,
  Forall settles items ->
  Forall (fun r => exists value, fst r = Resolved value) replies ->
  length replies = length items ->
  snd (fst (drainItems d items replies af)) = af /\
  (In row (outbox (fst (fst (drainItems d items replies af)))) ->
   In row (outbox d) /\ ~ In row items).
Proof.
  induction items as [|item rest IH]; intros d replies af row Hall Hres Hlen.
  - destruct replies; [|done]. simpl. tauto.
  - destruct replies as [|[reply now] replies]; [done|].
    apply Forall_cons in Hall as [Hitem Hall].
    apply Forall_cons in Hres as [[value Hv] Hres]. simpl in Hv. subst reply.
    simpl in Hlen. rewrite drainItems_cons. cbn [fst snd].
    rewrite processItem_resolved_success by apply Hitem.
    destruct (IH (out_db (processItem d item (Resolved value) now)) replies af row
                Hall Hres ltac:(lia)) as [Haf Hrows].
    split; [done|]. intros Hin. destruct (Hrows Hin) as [Hin' Hnot].
    destruct (processItem_settles d item value now row Hitem Hin') as [Hd Hne].
    split; [done|]. simpl. intros [->|?]; done.
Qed.

(** X9: a pass in which every call resolves drains the outbox.  For an
    idle, online, mounted engine whose outbox holds only handled actions
    with a [localId] in the payload, the pass leaves the outbox empty,
    ends without [anyFailed], schedules nothing and resets
    [currentRetryIndex]; a pass started right after it makes no remote
    call and changes nothing in the store. *)
Theorem resolved_pass_drains_outbox (d : Db) (es : list Event)
    (replies : list (Reply * Z)) :
  let s := run (initial d) es in
  passes s = [] -> isOnline s = true -> mountedRef s = true ->
  Forall settles (outbox (db s)) ->
  Forall (fun r => exists value, fst r = Resolved value) replies ->
  length replies = length (outbox (db s)) ->
  let s' := runPass s replies in
  outbox (db s') = [] /\
  passAnyFailed s replies = false /\
  currentRetryIndex s' = 0%nat /\ timers s' = timers s /\ isSyncing s' = false /\
  log (runPass s' []) = log s' /\ db (runPass s' []) = db s'.
Proof.
  intros s Hp Ho Hm Hall Hres Hlen s'.
  assert (Hok : timersOk s) by apply timersOk_run, timersOk_initial.
  assert (Hsy : isSyncing s = false).
  { pose proof (syncGuard_run es (initial d) (syncGuard_initial d)) as [[? _]|[_ [p Hq]]];
      [done|]. fold s in Hq. congruence. }
  assert (Hperm : getOutboxItems (db s) ≡ₚ outbox (db s))
    by apply orderByCreatedAt_Permutation.
  assert (Hall' : Forall settles (getOutboxItems (db s))) by (by rewrite Hperm).
  assert (Hlen' : length replies = length (getOutboxItems (db s)))
    by (by rewrite getOutboxItems_length).
  assert (Hempty : outbox (db s') = []).
  { subst s'. rewrite runPass_db by done.
    destruct (outbox (fst (fst (drainItems (db s) (getOutboxItems (db s)) replies false))))
      as [|row l] eqn:Hout; [done|]. exfalso.
    destruct (drainItems_settles _ (db s) replies false row Hall' Hres Hlen') as [_ Hrows].
    destruct Hrows as [Hin Hnot]; [rewrite Hout; by left|].
    apply Hnot. apply list_elem_of_In. rewrite Hperm. by apply list_elem_of_In. }
  assert (Haf : passAnyFailed s replies = false).
  { unfold passAnyFailed.
    by destruct (drainItems_settles _ (db s) replies false
                   (OutboxItem.mk EmptyString updateIdea
                      (Payload.mk None None None None None None) 0 0 None)
                   Hall' Hres Hlen') as [-> _]. }
  destruct (runPass_effect s replies Hok Hp Hsy Ho Hm Hlen)
    as ((Hok' & Hp' & Hsy' & Ho' & Hm') & _ & Hclean).
  destruct (Hclean Haf) as [Hidx Ht]. fold s' in Hok', Hp', Hsy', Ho', Hm', Hidx, Ht.
  split_and!; try done.
  - rewrite runPass_log by (try done; by rewrite Hempty).
    unfold getOutboxItems. rewrite Hempty. simpl. apply app_nil_r.
  - rewrite runPass_db by (try done; by rewrite Hempty).
    unfold getOutboxItems. by rewrite Hempty.
Qed.

Lemma resolved_pass_drains_outbox_witness :
  outbox (db (runPass (initial dbCreateThenStatus)
                [(Resolved "srv_1"%string, 100); (Resolved "srv_1"%string, 101)])) = [].
Proof.
  refine (proj1 (resolved_pass_drains_outbox dbCreateThenStatus []
                   [(Resolved "srv_1"%string, 100); (Resolved "srv_1"%string, 101)]
                   eq_refl eq_refl eq_refl _ _ eq_refl)).
  - repeat constructor; try discriminate; by eexists.
  - repeat constructor; by eexists.
Defined.

(** While the engine is offline and idle, an event other than
    connectivity coming back starts nothing. *)
Lemma offline_step s e :
  isOnline s = false -> passes s = [] -> e <> EvConnectivity (Some true) ->
  isOnline (step s e) = false /\ passes (step s e) = [] /\
  log (step s e) = log s /\ ideas (db (step s e)) = ideas (db s) /\
  (forall row, In row (outbox (db s)) -> In row (outbox (db (step s e)))) /\
  (forall t, In t (timers (step s e)) -> In t (timers s)).
Proof.
  intros Ho Hp He. destruct s as [o sy rt m idx d ps ts nt lg]; simpl in Ho, Hp; subst.
  destruct e; simpl.
  - unfold mount, flushOutbox; simpl. by rewrite orb_true_r.
  - unfold unmount; simpl.
    destruct rt as [[|n]|]; simpl; split_and!; try done.
    intros t Ht. by apply clearTimeout_In in Ht as [? _].
  - unfold handleConnectivityChange; simpl.
    destruct isConnected as [[|]|]; simpl; try done.
  - unfold handleAppStateChange; simpl. by destruct st.
  - done.
  - unfold fireTimer, flushOutbox; simpl.
    destruct (List.find _ ts) as [t|]; [|done]. simpl.
    assert (forall t', In t' (clearTimeout id ts) -> In t' ts).
    { intros t' Ht. by apply clearTimeout_In in Ht as [? _]. }
    destruct (timerKind t), m; simpl; rewrite ?orb_true_r; done.
  - by destruct k.
  - by destruct k.
  - simpl. split_and!; try done. intros row Hrow. apply List.in_app_iff. by left.
Qed.

(** X10: nothing is sent while offline.  From an idle, offline engine
    and until a connectivity event reports a connection, no event
    starts a pass: no [processItem] runs, no timer is set, the [ideas]
    table is untouched and no outbox entry is removed or changed;
    enqueued entries just accumulate. *)
Theorem offline_engine_is_quiet (s : State) (es : list Event) :
  isOnline s = false -> passes s = [] ->
  Forall (fun e => e <> EvConnectivity (Some true)) es ->
  let s' := run s es in
  isOnline s' = false /\ passes s' = [] /\ log s' = log s /\
  ideas (db s') = ideas (db s) /\
  (forall row, In row (outbox (db s)) -> In row (outbox (db s'))) /\
  (forall t, In t (timers s') -> In t (timers s)).
Proof.
  revert s. induction es as [|e es IH]; intros s Ho Hp Hall; [done|].
  apply Forall_cons in Hall as [He Hall].
  destruct (offline_step s e Ho Hp He) as (Ho' & Hp' & Hl & Hi & Hrows & Ht).
  destruct (IH (step s e) Ho' Hp' Hall) as (Ho'' & Hp'' & Hl' & Hi' & Hrows' & Ht').
  simpl. split_and!; try done; try congruence; auto.
Qed.

Lemma offline_engine_is_quiet_witness :
  let s := run (handleConnectivityChange (Some false) (initial dbCreateOnly))
             [EvMount; EvSyncNow; EvAppState active; EvFetched 0] in
  log s = [] /\ passes s = [] /\ timers s = [].
Proof.
  destruct (offline_engine_is_quiet
              (handleConnectivityChange (Some false) (initial dbCreateOnly))
              [EvMount; EvSyncNow; EvAppState active; EvFetched 0] eq_refl eq_refl
              ltac:(repeat constructor; discriminate))
    as (_ & Hp & Hl & _).
  split_and!; [exact Hl | exact Hp | reflexivity].
Defined.

(** X11: [handleConnectivityChange] starts a pass only on the edge from
    offline to online.  While the engine is online, a connectivity event
    only records the new state (an unknown state counts as offline).
    When it is offline, mounted and idle, a report of a connection
    resets [currentRetryIndex] and starts a pass. *)
Theorem connectivity_edge_triggers (s : State) (isConnected : option bool) :
  let s' := handleConnectivityChange isConnected s in
  isOnline s' = default false isConnected /\
  (isOnline s = true ->
     passes s' = passes s /\ isSyncing s' = isSyncing s /\
     currentRetryIndex s' = currentRetryIndex s /\ timers s' = timers s) /\
  (isOnline s = false -> isConnected = Some true ->
     mountedRef s = true -> isSyncing s = false ->
     passes s' = passes s ++ [Fetching] /\ isSyncing s' = true /\
     currentRetryIndex s' = 0%nat) /\
  db s' = db s /\ log s' = log s.
Proof.
  intros s'. subst s'. destruct s as [o sy rt m idx d ps ts nt lg].
  unfold handleConnectivityChange, flushOutbox; simpl.
  split_and!.
  - by destruct o, isConnected as [[|]|], m, sy.
  - intros ->. by destruct isConnected as [[|]|].
  - intros -> -> -> ->. done.
  - by destruct o, isConnected as [[|]|], m, sy.
  - by destruct o, isConnected as [[|]|], m, sy.
Qed.

Lemma connectivity_edge_triggers_witness :
  let s := handleConnectivityChange (Some false) (initial dbCreateOnly) in
  passes (handleConnectivityChange (Some true) s) = [Fetching] /\
  passes (handleConnectivityChange (Some true) (initial dbCreateOnly)) = [].
Proof.
  split.
  - exact (proj1 (proj1 (proj2 (proj2 (connectivity_edge_triggers
             (handleConnectivityChange (Some false) (initial dbCreateOnly))
             (Some true)))) eq_refl eq_refl eq_refl eq_refl)).
  - exact (proj1 (proj1 (proj2 (connectivity_edge_triggers
             (initial dbCreateOnly) (Some true))) eq_refl)).
Defined.

(** X12: a pass stops when the engine is offline or unmounted at the
    head of the loop.  When the call in flight completes in such a
    state, that item is still settled and logged, the items left in the
    list are not processed, the pass ends with [isSyncing] cleared,
    no retry is scheduled and [currentRetryIndex] is reset, even if an
    item had failed. *)
Theorem pass_aborts_when_offline_or_unmounted (s : State) (item : OutboxItem.t)
    (rest : list OutboxItem.t) (anyFailed : bool) (reply : Reply) (now : Z) :
  passes s = [InFlight item rest anyFailed] ->
  isOnline s = false \/ mountedRef s = false ->
  let o := processItem (db s) item reply now in
  let s' := step s (EvItemDone 0 reply now) in
  passes s' = [] /\ isSyncing s' = false /\
  db s' = out_db o /\
  log s' = log s ++ [(OutboxItem.id item, out_call o)] /\
  timers s' = timers s /\ retryTimeoutId s' = retryTimeoutId s /\
  currentRetryIndex s' = 0%nat.
Proof.
  intros Hp Hflag o s'. subst o s'.
  destruct s as [on sy rt m idx d ps ts nt lg]; simpl in Hp, Hflag; subst ps.
  simpl. unfold itemDone; simpl.
  set (o := processItem d item reply now).
  unfold loopHead, finishPass; simpl.
  destruct Hflag as [-> | ->].
  - destruct rest; simpl; rewrite ?andb_false_r; simpl;
      try destruct m; simpl; rewrite ?andb_false_r; done.
  - destruct rest; simpl; rewrite ?andb_false_r; simpl; done.
Qed.

Lemma pass_aborts_when_offline_or_unmounted_witness :
  let s := run (initial dbProjectFeature)
             [EvMount; EvFetched 0; EvConnectivity (Some false)] in
  let s' := step s (EvItemDone 0 (Rejected None) 100) in
  passes s' = [] /\ timers s' = [] /\ List.map fst (log s') = ["o1"%string].
Proof.
  destruct (pass_aborts_when_offline_or_unmounted
              (run (initial dbProjectFeature)
                 [EvMount; EvFetched 0; EvConnectivity (Some false)])
              rowCreateA [rowFeatureF] false (Rejected None) 100 eq_refl
              (or_introl eq_refl))
    as (Hp & _ & _ & Hl & Ht & _).
  split_and!; [exact Hp | exact Ht | rewrite Hl; reflexivity].
Defined.

Lemma getOutboxItems_singleton d row : outbox d = [row] -> getOutboxItems d = [row].
Proof. unfold getOutboxItems. by intros ->. Qed.

Lemma bumpAttempt_iter n e row :
  OutboxItem.id (Nat.iter n (bumpAttempt e) row) = OutboxItem.id row /\
  OutboxItem.action (Nat.iter n (bumpAttempt e) row) = OutboxItem.action row /\
  OutboxItem.payload (Nat.iter n (bumpAttempt e) row) = OutboxItem.payload row /\
  OutboxItem.attemptCount (Nat.iter n (bumpAttempt e) row) =
    OutboxItem.attemptCount row + Z.of_nat n.
Proof.
  induction n as [|n (Hi & Ha & Hp & Hc)]; simpl; [by rewrite Z.add_0_r|].
  split_and!; try done. lia.
Qed.

(** One pass over an outbox that holds a single create entry, with the
    call rejected. *)
Lemma failed_pass_single s row message now :
  timersOk s ->
  passes s = [] -> isSyncing s = false -> isOnline s = true -> mountedRef s = true ->
  outbox (db s) = [row] ->
  OutboxItem.action row = createProject \/ OutboxItem.action row = createFeature ->
  truthyOpt (Payload.localId (OutboxItem.payload row)) = true ->
  let s' := runPass s [(Rejected message, now)] in
  (timersOk s' /\ passes s' = [] /\ isSyncing s' = false /\
   isOnline s' = true /\ mountedRef s' = true) /\
  length (log s') = S (length (log s)) /\
  outbox (db s') =
    if MAX_RETRY_ATTEMPTS <=? OutboxItem.attemptCount row then []
    else [bumpAttempt (Some (default "Sync failed"%string message)) row].
Proof.
  intros Hok Hp Hsy Ho Hm Hout Hact Ht s'.
  assert (Hlen : length [(Rejected message, now)] = length (outbox (db s)))
    by (by rewrite Hout).
  destruct (runPass_effect s _ Hok Hp Hsy Ho Hm Hlen) as (Hinv & _).
  split; [done|]. subst s'.
  rewrite runPass_log, runPass_db by done.
  rewrite (getOutboxItems_singleton _ _ Hout). simpl.
  split; [rewrite length_app; simpl; lia|].
  destruct (Payload.localId (OutboxItem.payload row)) as [l|] eqn:Hl; [|done].
  simpl in Ht.
  assert (Hfail : outbox (fst (onFailure (db s) row message)) =
    if MAX_RETRY_ATTEMPTS <=? OutboxItem.attemptCount row then []
    else [bumpAttempt (Some (default "Sync failed"%string message)) row]).
  { unfold onFailure. rewrite Hl, Ht.
    assert (Hinc : outbox (incrementOutboxAttempt (db s) l
                     (Some (default "Sync failed"%string message))) =
                   [bumpAttempt (Some (default "Sync failed"%string message)) row]).
    { unfold incrementOutboxAttempt. simpl. rewrite Hout. simpl.
      unfold payloadLocalIdIs. rewrite Hl. by rewrite bool_decide_eq_true_2. }
    destruct (_ <=? _); cbn [fst]; [|done].
    unfold removeOutboxById. cbn [outbox]. rewrite Hinc. simpl.
    by rewrite bool_decide_eq_true_2. }
  unfold processItem, awaitRemote.
  destruct Hact as [-> | ->]; destruct (onFailure (db s) row message); simpl in *; done.
Qed.

Lemma failedPasses_S n message now s :
  failedPasses (S n) message now s =
    runPass (failedPasses n message now s) [(Rejected message, now)].
Proof. reflexivity. Qed.

(** X13: retries are bounded.  A create entry that is alone in the
    outbox, carries a [localId] and has never been attempted is still
    queued after each of the first ten passes in which its call is
    rejected, with [attemptCount] equal to the number of failures; the
    eleventh rejected call removes it.  It is sent eleven times in
    all. *)
Theorem retries_are_bounded (d : Db) (es : list Event) (row : OutboxItem.t)
    (message : option string) (now : Z) :
  let s := run (initial d) es in
  passes s = [] -> isOnline s = true -> mountedRef s = true ->
  outbox (db s) = [row] ->
  OutboxItem.action row = createProject \/ OutboxItem.action row = createFeature ->
  truthyOpt (Payload.localId (OutboxItem.payload row)) = true ->
  OutboxItem.attemptCount row = 0 ->
  (forall n, (n <= 10)%nat ->
     exists row',
       outbox (db (failedPasses n message now s)) = [row'] /\
       OutboxItem.id row' = OutboxItem.id row /\
       OutboxItem.payload row' = OutboxItem.payload row /\
       OutboxItem.attemptCount row' = Z.of_nat n /\
       length (log (failedPasses n message now s)) = (length (log s) + n)%nat) /\
  outbox (db (failedPasses 11 message now s)) = [] /\
  length (log (failedPasses 11 message now s)) = (length (log s) + 11)%nat.
Proof.
  intros s Hp Ho Hm Hout Hact Ht Hc.
  assert (Hok : timersOk s) by apply timersOk_run, timersOk_initial.
  assert (Hsy : isSyncing s = false).
  { pose proof (syncGuard_run es (initial d) (syncGuard_initial d)) as [[? _]|[_ [p Hq]]];
      [done|]. fold s in Hq. congruence. }
  set (e := Some (default "Sync failed"%string message)).
  assert (Hinv : forall n, (n <= 10)%nat ->
    let sn := failedPasses n message now s in
    (timersOk sn /\ passes sn = [] /\ isSyncing sn = false /\
     isOnline sn = true /\ mountedRef sn = true) /\
    outbox (db sn) = [Nat.iter n (bumpAttempt e) row] /\
    length (log sn) = (length (log s) + n)%nat).
  { induction n as [|n IH]; intros Hn sn.
    - subst sn. unfold failedPasses. cbn [Nat.iter]. split_and!; try done; lia.
    - destruct (IH ltac:(lia)) as ((Hok' & Hp' & Hsy' & Ho' & Hm') & Hout' & Hlog').
      destruct (bumpAttempt_iter n e row) as (Hi & Ha & Hpay & Hcnt).
      destruct (failed_pass_single (failedPasses n message now s)
                  (Nat.iter n (bumpAttempt e) row) message now
                  Hok' Hp' Hsy' Ho' Hm' Hout'
                  ltac:(by rewrite Ha) ltac:(by rewrite Hpay))
        as (Hinv' & Hlog'' & Hout'').
      subst sn. rewrite failedPasses_S. split; [done|]. split; [|rewrite Hlog''; lia].
      rewrite Hout''. rewrite Hcnt, Hc. cbn [Nat.iter].
      destruct (Z.leb_spec MAX_RETRY_ATTEMPTS (0 + Z.of_nat n));
        [unfold MAX_RETRY_ATTEMPTS in *; lia | done]. }
  split_and!.
  - intros n Hn. destruct (Hinv n Hn) as (_ & Hout' & Hlog').
    destruct (bumpAttempt_iter n e row) as (Hi & Ha & Hpay & Hcnt).
    eexists. split_and!; try done. by rewrite Hcnt, Hc.
  - destruct (Hinv 10%nat ltac:(lia)) as ((Hok' & Hp' & Hsy' & Ho' & Hm') & Hout' & _).
    destruct (bumpAttempt_iter 10 e row) as (Hi & Ha & Hpay & Hcnt).
    destruct (failed_pass_single (failedPasses 10 message now s)
                (Nat.iter 10 (bumpAttempt e) row) message now
                Hok' Hp' Hsy' Ho' Hm' Hout'
                ltac:(by rewrite Ha) ltac:(by rewrite Hpay))
      as (_ & _ & Hout'').
    rewrite (failedPasses_S 10), Hout'', Hcnt, Hc. done.
  - destruct (Hinv 10%nat ltac:(lia)) as ((Hok' & Hp' & Hsy' & Ho' & Hm') & Hout' & Hlog').
    destruct (bumpAttempt_iter 10 e row) as (Hi & Ha & Hpay & Hcnt).
    destruct (failed_pass_single (failedPasses 10 message now s)
                (Nat.iter 10 (bumpAttempt e) row) message now
                Hok' Hp' Hsy' Ho' Hm' Hout'
                ltac:(by rewrite Ha) ltac:(by rewrite Hpay))
      as (_ & Hlog'' & _).
    rewrite (failedPasses_S 10), Hlog'', Hlog'. lia.
Qed.

Lemma retries_are_bounded_witness :
  outbox (db (failedPasses 11 (Some "timeout"%string) 100 (initial dbCreateOnly))) = [] /\
  length (log (failedPasses 11 (Some "timeout"%string) 100 (initial dbCreateOnly))) =
    11%nat.
Proof.
  destruct (retries_are_bounded dbCreateOnly [] rowCreateA (Some "timeout"%string) 100
              eq_refl eq_refl eq_refl eq_refl (or_introl eq_refl) eq_refl eq_refl)
    as (_ & Hout & Hlog).
  split; [exact Hout | exact Hlog].
Defined.

(** ** The screens' handlers and the engine *)

(** X14: capture, then sync.  [onSubmit] with a non-empty text, a
    [localId] that is not in [ideas] and an entry id that is not in the
    outbox stores the record and appends one create entry for it.  When
    that entry is processed and the remote resolves with [value], the
    call made is [createProject] (or [createFeature] with no parent and
    status [INBOX]) with the text, the record's [serverId] becomes
    [value], and the entry is gone from the outbox.  With an empty text
    [onSubmit] does nothing. *)
Theorem capture_then_sync (d : Db) (trimmed : string) (mode : IdeaType)
    (localId : string) (createdAt : Z) (id : string) (now : Z)
    (value : string) (now' : Z) :
  (truthy trimmed = false -> onSubmit d trimmed mode localId createdAt id now = d) /\
  (truthy trimmed = true ->
   ideas d !! localId = None ->
   ~ In id (List.map OutboxItem.id (outbox d)) ->
   let d1 := onSubmit d trimmed mode localId createdAt id now in
   let row :=
     OutboxItem.mk id
       (match mode with PROJECT => createProject | FEATURE => createFeature end)
       (Payload.mk (Some localId) (Some trimmed)
          (match mode with PROJECT => None | FEATURE => Some INBOX end) None None None)
       now 0 None in
   let o := processItem d1 row (Resolved value) now' in
   outbox d1 = outbox d ++ [row] /\
   getServerIdByLocalId d1 (Some localId) = None /\
   out_call o =
     Some (match mode with
           | PROJECT => CallCreateProject (Some trimmed)
           | FEATURE => CallCreateFeature (Some trimmed) None INBOX
           end) /\
   out_success o = true /\
   getServerIdByLocalId (out_db o) (Some localId) = Some value /\
   ~ In row (outbox (out_db o)) /\
   forall row', In row' (outbox (out_db o)) -> In row' (outbox d)).
Proof.
  split.
  - intros Hempty. unfold onSubmit. by rewrite Hempty.
  - intros Ht Hfresh Hid d1 row o.
    assert (Hd1 : d1 = enqueueOutbox
              (mkDb (<[localId :=
                        IdeaRecord.mk localId None trimmed mode None None
                          (match mode with PROJECT => BACKLOG | FEATURE => INBOX end)
                          false createdAt createdAt]> (ideas d)) (outbox d))
              (match mode with PROJECT => createProject | FEATURE => createFeature end)
              (OutboxItem.payload row) id now).
    { subst d1. unfold onSubmit, insertIdeaLocal. rewrite Ht, Hfresh. simpl.
      rewrite enqueueOutboxChecked_fresh by done. by destruct mode. }
    assert (Hout1 : outbox d1 = outbox d ++ [row]) by (rewrite Hd1; by destruct mode).
    assert (Hideas1 : ideas d1 !! localId =
              Some (IdeaRecord.mk localId None trimmed mode None None
                      (match mode with PROJECT => BACKLOG | FEATURE => INBOX end)
                      false createdAt createdAt)).
    { rewrite Hd1. simpl. apply lookup_insert_eq. }
    assert (Ho : o = mkOutcome
              (removeOutboxByLocalId (markIdeaSynced d1 (Some localId) value now')
                 (Some localId))
              (Some (match mode with
                     | PROJECT => CallCreateProject (Some trimmed)
                     | FEATURE => CallCreateFeature (Some trimmed) None INBOX
                     end)) true).
    { subst o row. unfold processItem, awaitRemote, resolveParent. by destruct mode. }
    split_and!; try (rewrite Ho; done); try done.
    + unfold getServerIdByLocalId. by rewrite Hideas1.
    + rewrite Ho. unfold getServerIdByLocalId, markIdeaSynced; simpl.
      rewrite lookup_alter_eq, Hideas1. done.
    + rewrite Ho. unfold removeOutboxByLocalId, markIdeaSynced; simpl.
      rewrite List.filter_In, negb_true_iff. intros [_ Hno].
      subst row. unfold payloadLocalIdIs in Hno. simpl in Hno.
      by rewrite bool_decide_eq_true_2 in Hno.
    + rewrite Ho. unfold removeOutboxByLocalId, markIdeaSynced; simpl.
      intros row'. rewrite List.filter_In, negb_true_iff, Hout1, List.in_app_iff.
      intros [[?|[<-|[]]] Hno]; [done|]. exfalso.
      subst row. unfold payloadLocalIdIs in Hno. simpl in Hno.
      by rewrite bool_decide_eq_true_2 in Hno.
Qed.

Lemma capture_then_sync_witness :
  let d1 := onSubmit dbEmpty "Ship v1" PROJECT "A" 10 "o1" 11 in
  let o := processItem d1 rowCreateA (Resolved "srv_1"%string) 100 in
  outbox d1 = [OutboxItem.mk "o1" createProject (payloadCreate "A") 11 0 None] /\
  getServerIdByLocalId
    (out_db (processItem d1
               (OutboxItem.mk "o1" createProject (payloadCreate "A") 11 0 None)
               (Resolved "srv_1"%string) 100)) (Some "A"%string) = Some "srv_1"%string.
Proof.
  destruct (proj2 (capture_then_sync dbEmpty "Ship v1" PROJECT "A" 10 "o1" 11
                     "srv_1" 100) eq_refl ltac:(vm_compute; reflexivity)
                  ltac:(simpl; tauto))
    as (Hout & _ & _ & _ & Hsrv & _).
  split; [exact Hout | exact Hsrv].
Defined.

(** X15: deleting a synced record.  [deleteItem] notes the record's
    server id (from the record at hand, else from the store) before it
    deletes the row, and queues it in the payload; so although the row
    is gone when the entry is processed, the remote [deleteIdea] is
    called with that id, in whatever store the entry is processed. *)
Theorem delete_reaches_remote (d : Db) (item : IdeaRecord.t) (id : string) (now : Z)
    (serverId : string) :
  knownServerId d item = Some serverId ->
  truthy serverId = true ->
  ~ In id (List.map OutboxItem.id (outbox d)) ->
  let d1 := deleteItem d item id now in
  let row :=
    OutboxItem.mk id deleteIdea
      (Payload.mk (Some (IdeaRecord.localId item)) None None (Some serverId) None None)
      now 0 None in
  ideas d1 !! IdeaRecord.localId item = None /\
  outbox d1 = outbox d ++ [row] /\
  (forall d2 reply now',
     out_call (processItem d2 row reply now') = Some (CallDeleteIdea serverId)) /\
  ~ In row (outbox (out_db (processItem d1 row (Resolved serverId) now))).
Proof.
  intros Hknown Ht Hid d1 row.
  assert (Hd1 : d1 = enqueueOutbox (deleteIdeaLocal d (IdeaRecord.localId item))
                       deleteIdea (OutboxItem.payload row) id now).
  { subst d1. unfold deleteItem. rewrite Hknown.
    by rewrite enqueueOutboxChecked_fresh. }
  assert (Hcall : forall d2 reply now',
     out_call (processItem d2 row reply now') = Some (CallDeleteIdea serverId)).
  { intros d2 reply now'. unfold processItem, resolveServerId. simpl. rewrite Ht.
    apply awaitRemote_call. }
  split_and!; try done.
  - rewrite Hd1. simpl. apply lookup_delete_eq.
  - by rewrite Hd1.
  - destruct (processItem_resolved d1 row serverId now _ (Hcall d1 _ now)) as [_ Hout].
    rewrite Hout, List.filter_In, negb_true_iff. intros [_ Hno].
    unfold payloadLocalIdIs in Hno. simpl in Hno.
    by rewrite bool_decide_eq_true_2 in Hno.
Qed.

Lemma delete_reaches_remote_witness :
  let synced := setSynced "srv_1" 50 (sampleIdea "A" PROJECT) in
  let d1 := deleteItem dbCreateOnly synced "o9" 60 in
  ideas d1 !! "A"%string = None /\
  out_call (processItem d1
              (OutboxItem.mk "o9" deleteIdea
                 (Payload.mk (Some "A"%string) None None (Some "srv_1"%string) None None)
                 60 0 None) (Rejected None) 70) = Some (CallDeleteIdea "srv_1").
Proof.
  destruct (delete_reaches_remote dbCreateOnly
              (setSynced "srv_1" 50 (sampleIdea "A" PROJECT)) "o9" 60 "srv_1"
              eq_refl eq_refl ltac:(simpl; intros [H|[]]; discriminate H))
    as (Hgone & _ & Hcall & _).
  split; [exact Hgone | apply Hcall].
Defined.

Lemma getOutboxItems_pair d a b :
  outbox d = [a; b] -> OutboxItem.createdAt a <= OutboxItem.createdAt b ->
  getOutboxItems d = [a; b].
Proof.
  intros Hout Hle. unfold getOutboxItems. rewrite Hout. simpl.
  by destruct (Z.leb_spec (OutboxItem.createdAt a) (OutboxItem.createdAt b)); [|lia].
Qed.

(** X16: deleting a record whose creation has not been sent yet.  With
    the [createProject] entry still alone in the outbox, [deleteItem]
    queues a [deleteIdea] entry without server id behind it.  The next
    pass, with the remote accepting, still sends [createProject], and
    then drops the delete entry with no remote call: the outbox ends
    empty, the record is gone locally, and the remote has been asked to
    create the project and never to delete it. *)
Theorem unsynced_delete_still_creates (d : Db) (item : IdeaRecord.t)
    (create : OutboxItem.t) (id : string) (now : Z) (value value' : string)
    (t1 t2 : Z) :
  outbox d = [create] ->
  OutboxItem.action create = createProject ->
  Payload.localId (OutboxItem.payload create) = Some (IdeaRecord.localId item) ->
  knownServerId d item = None ->
  id <> OutboxItem.id create ->
  OutboxItem.createdAt create <= now ->
  let d1 := deleteItem d item id now in
  let del :=
    OutboxItem.mk id deleteIdea
      (Payload.mk (Some (IdeaRecord.localId item)) None None None None None) now 0 None in
  let result := drainItems d1 (getOutboxItems d1)
                  [(Resolved value, t1); (Resolved value', t2)] false in
  getOutboxItems d1 = [create; del] /\
  snd result =
    [(OutboxItem.id create,
      Some (CallCreateProject (Payload.content (OutboxItem.payload create))));
     (id, None)] /\
  snd (fst result) = false /\
  outbox (fst (fst result)) = [] /\
  ideas (fst (fst result)) !! IdeaRecord.localId item = None.
Proof.
  intros Hout Hact Hl Hknown Hid Hle d1 del result.
  assert (Hd1 : d1 = enqueueOutbox (deleteIdeaLocal d (IdeaRecord.localId item))
                       deleteIdea (OutboxItem.payload del) id now).
  { subst d1. unfold deleteItem. rewrite Hknown.
    rewrite enqueueOutboxChecked_fresh; [done|].
    simpl. rewrite Hout. simpl. intros [H|[]]. by apply Hid. }
  assert (Hout1 : outbox d1 = [create; del]) by (rewrite Hd1; simpl; by rewrite Hout).
  assert (Hitems : getOutboxItems d1 = [create; del]) by (by apply getOutboxItems_pair).
  split; [done|]. subst result. rewrite Hitems.
  rewrite drainItems_cons. cbn zeta.
  set (o1 := processItem d1 create (Resolved value) t1).
  assert (Ho1 : o1 = mkOutcome
            (mkDb (delete (IdeaRecord.localId item) (ideas d)) [])
            (Some (CallCreateProject (Payload.content (OutboxItem.payload create))))
            true).
  { subst o1. unfold processItem, awaitRemote. rewrite Hact, Hl.
    f_equal. unfold removeOutboxByLocalId, markIdeaSynced. cbn [ideas outbox].
    f_equal.
    - rewrite Hd1. simpl. apply alter_id. intros x Hx.
      by rewrite lookup_delete_eq in Hx.
    - rewrite Hout1. simpl. unfold payloadLocalIdIs. rewrite Hl. simpl.
      by rewrite !bool_decide_eq_true_2. }
  rewrite Ho1. cbn [out_db out_call out_success].
  assert (Ho2 : processItem (mkDb (delete (IdeaRecord.localId item) (ideas d)) [])
                  del (Resolved value') t2 =
                mkOutcome (mkDb (delete (IdeaRecord.localId item) (ideas d)) []) None true).
  { unfold processItem, resolveServerId, getServerIdByLocalId. simpl.
    by rewrite lookup_delete_eq. }
  rewrite drainItems_cons. cbn zeta. rewrite Ho2. simpl.
  split_and!; try done. apply lookup_delete_eq.
Qed.

Lemma unsynced_delete_still_creates_witness :
  let d1 := deleteItem dbCreateOnly (sampleIdea "A" PROJECT) "o9" 60 in
  snd (drainItems d1 (getOutboxItems d1)
         [(Resolved "srv_1"%string, 100); (Resolved "unused"%string, 101)] false) =
    [("o1"%string, Some (CallCreateProject (Some "Ship v1"%string)));
     ("o9"%string, None)].
Proof.
  destruct (unsynced_delete_still_creates dbCreateOnly (sampleIdea "A" PROJECT)
              rowCreateA "o9" 60 "srv_1" "unused" 100 101
              eq_refl eq_refl eq_refl eq_refl ltac:(discriminate)
              ltac:(simpl; lia))
    as (_ & Hlog & _).
  exact Hlog.
Defined.

(** X17: a status change made before the first sync is delivered.  With
    the create entry of an unsynced record alone in the outbox,
    [markDone] queues an [updateStatus] entry without server id behind
    it.  In the next pass, once the create call has resolved with
    [value], the [updateStatus] entry resolves its server id from the
    store and the remote is asked to set the status [DONE] on [value];
    the outbox ends empty. *)
Theorem early_status_change_is_delivered (d : Db) (item : IdeaRecord.t)
    (create : OutboxItem.t) (updatedAt : Z) (id : string) (now : Z)
    (value value' : string) (t1 t2 : Z) :
  outbox d = [create] ->
  OutboxItem.action create = createProject \/ OutboxItem.action create = createFeature ->
  Payload.localId (OutboxItem.payload create) = Some (IdeaRecord.localId item) ->
  is_Some (ideas d !! IdeaRecord.localId item) ->
  knownServerId d item = None ->
  id <> OutboxItem.id create ->
  OutboxItem.createdAt create <= now ->
  truthy value = true ->
  let d1 := markDone d item updatedAt id now in
  let upd :=
    OutboxItem.mk id updateStatus
      (Payload.mk (Some (IdeaRecord.localId item)) None (Some DONE) None None None)
      now 0 None in
  let result := drainItems d1 (getOutboxItems d1)
                  [(Resolved value, t1); (Resolved value', t2)] false in
  getOutboxItems d1 = [create; upd] /\
  List.map fst (snd result) = [OutboxItem.id create; id] /\
  snd result !! 1%nat = Some (id, Some (CallUpdateStatus value (Some DONE))) /\
  snd (fst result) = false /\
  outbox (fst (fst result)) = [] /\
  getServerIdByLocalId (fst (fst result)) (Some (IdeaRecord.localId item)) = Some value.
Proof.
  intros Hout Hact Hl [r Hr] Hknown Hid Hle Ht d1 upd result.
  assert (Hd1 : d1 = enqueueOutbox
                       (updateIdeaLocalStatus d (IdeaRecord.localId item) DONE updatedAt)
                       updateStatus (OutboxItem.payload upd) id now).
  { subst d1. unfold markDone. rewrite Hknown.
    rewrite enqueueOutboxChecked_fresh; [done|].
    simpl. rewrite Hout. simpl. intros [H|[]]. by apply Hid. }
  assert (Hout1 : outbox d1 = [create; upd]) by (rewrite Hd1; simpl; by rewrite Hout).
  assert (Hitems : getOutboxItems d1 = [create; upd]) by (by apply getOutboxItems_pair).
  assert (Hr1 : ideas d1 !! IdeaRecord.localId item = Some (setStatus DONE updatedAt r)).
  { rewrite Hd1. simpl. by rewrite lookup_alter_eq, Hr. }
  split; [done|]. subst result. rewrite Hitems.
  rewrite drainItems_cons. cbn zeta.
  set (o1 := processItem d1 create (Resolved value) t1).
  assert (Ho1 : out_success o1 = true /\ outbox (out_db o1) = [] /\
                ideas (out_db o1) !! IdeaRecord.localId item =
                  Some (setSynced value t1 (setStatus DONE updatedAt r))).
  { assert (Hdb : out_db o1 = removeOutboxByLocalId
              (markIdeaSynced d1 (Some (IdeaRecord.localId item)) value t1)
              (Some (IdeaRecord.localId item))
            /\ out_success o1 = true).
    { subst o1. unfold processItem, awaitRemote. rewrite Hl.
      by destruct Hact as [-> | ->]. }
    destruct Hdb as [-> ->]. split_and!; [done | |].
    - unfold removeOutboxByLocalId, markIdeaSynced. cbn [outbox]. rewrite Hout1. simpl.
      unfold payloadLocalIdIs. rewrite Hl. simpl. by rewrite !bool_decide_eq_true_2.
    - unfold removeOutboxByLocalId, markIdeaSynced. cbn [ideas].
      by rewrite lookup_alter_eq, Hr1. }
  destruct Ho1 as (Hs1 & Hob1 & Hi1). rewrite Hs1.
  rewrite drainItems_cons. cbn zeta.
  set (o2 := processItem (out_db o1) upd (Resolved value') t2).
  assert (Ho2 : o2 = mkOutcome (removeOutboxByLocalId (out_db o1)
                                  (Some (IdeaRecord.localId item)))
                       (Some (CallUpdateStatus value (Some DONE))) true).
  { subst o2. unfold processItem, resolveServerId, getServerIdByLocalId. simpl.
    rewrite Hi1. simpl. by rewrite Ht. }
  rewrite Ho2. simpl.
  split_and!; try done.
  - by rewrite Hob1.
  - unfold getServerIdByLocalId. by rewrite Hi1.
Qed.

Lemma early_status_change_is_delivered_witness :
  let d1 := markDone dbCreateOnly (sampleIdea "A" PROJECT) 55 "o9" 60 in
  snd (drainItems d1 (getOutboxItems d1)
         [(Resolved "srv_1"%string, 100); (Resolved "srv_1"%string, 101)] false)
    !! 1%nat = Some ("o9"%string, Some (CallUpdateStatus "srv_1" (Some DONE))).
Proof.
  destruct (early_status_change_is_delivered dbCreateOnly (sampleIdea "A" PROJECT)
              rowCreateA 55 "o9" 60 "srv_1" "srv_1" 100 101
              eq_refl (or_introl eq_refl) eq_refl
              ltac:(exists (sampleIdea "A" PROJECT); vm_compute; reflexivity)
              eq_refl ltac:(discriminate) ltac:(simpl; lia) eq_refl)
    as (_ & _ & Hcall & _).
  exact Hcall.
Defined.

(** X18: [updateIdeaLocalStatus] moves exactly one row between the
    status listings.  Afterwards the row with that [localId] is in
    [listInboxLocal] if and only if the new status is [INBOX] and the
    row is not archived; every other row is listed as before; and
    [markDone] does this with status [DONE] and appends one
    [updateStatus] entry carrying the server id known at that time. *)
Theorem status_update_moves_one_row (d : Db) (localId : string) (status : IdeaStatus)
    (now : Z) :
  keysOk d ->
  let d' := updateIdeaLocalStatus d localId status now in
  (forall r, ideas d !! localId = Some r ->
     ideas d' !! localId = Some (setStatus status now r) /\
     (In (setStatus status now r) (listInboxLocal d') <->
      status = INBOX /\ IdeaRecord.archived r = false)) /\
  (forall r, IdeaRecord.localId r <> localId ->
     (In r (listInboxLocal d') <-> In r (listInboxLocal d)) /\
     (In r (listAllIdeas d') <-> In r (listAllIdeas d))) /\
  keysOk d' /\
  (forall item id t,
     IdeaRecord.localId item = localId -> status = DONE ->
     ~ In id (List.map OutboxItem.id (outbox d)) ->
     markDone d item now id t =
       enqueueOutbox d' updateStatus
         (Payload.mk (Some localId) None (Some DONE) (knownServerId d item) None None)
         id t).
Proof.
  intros Hk d'. subst d'. unfold updateIdeaLocalStatus.
  assert (Hk' : keysOk (mkDb (alter (setStatus status now) localId (ideas d)) (outbox d))).
  { intros l r Hl. simpl in Hl. apply lookup_alter_Some in Hl
      as [(-> & r0 & Hr0 & ->)|[_ Hl]]; [|by apply Hk].
    simpl. by apply Hk. }
  assert (Hother : forall r, IdeaRecord.localId r <> localId ->
            (exists l, alter (setStatus status now) localId (ideas d) !! l = Some r) <->
            (exists l, ideas d !! l = Some r)).
  { intros r Hne. split; intros [l Hl].
    - apply lookup_alter_Some in Hl as [(-> & r0 & Hr0 & ->)|[_ Hl]]; [|eauto].
      exfalso. apply Hne. simpl. by apply Hk.
    - exists l. rewrite lookup_alter_ne; [done|]. intros ->. apply Hne. by apply Hk. }
  split_and!; [| |done|].
  - intros r Hr. simpl. split; [by rewrite lookup_alter_eq, Hr|].
    unfold listInboxLocal. rewrite selectIdeas_In. simpl.
    rewrite andb_true_iff, negb_true_iff. split.
    + intros [_ [Hst Harch]]. by destruct status.
    + intros [-> Harch]. split; [|done].
      exists localId. by rewrite lookup_alter_eq, Hr.
  - intros r Hne. unfold listInboxLocal, listAllIdeas. rewrite !selectIdeas_In. simpl.
    by rewrite (Hother r Hne).
  - intros item id t <- -> Hid. unfold markDone.
    by rewrite enqueueOutboxChecked_fresh.
Qed.

Lemma status_update_moves_one_row_witness :
  ~ In (setStatus DONE 9 (sampleIdea "A" PROJECT))
       (listInboxLocal (updateIdeaLocalStatus dbProjectFeature "A" DONE 9)).
Proof.
  destruct (status_update_moves_one_row dbProjectFeature "A" DONE 9 keysOk_sample)
    as (Hrow & _).
  destruct (Hrow (sampleIdea "A" PROJECT) eq_refl) as [_ Hiff].
  intros Hin. apply Hiff in Hin as [Hst _]. discriminate Hst.
Defined.

(** ** The older flush and the status view *)

(** X19: the older [flush] of [useOutboxSync] and [processItem] make
    the same remote call and leave the same store whenever the call
    resolves, and whenever it is rejected below the retry ceiling.  They
    differ in two cases only: an [updateStatus], [archiveIdea] or
    [deleteIdea] entry without a server id, which the older code leaves
    in the outbox, and a rejection at the ceiling, after which the older
    code keeps the entry and counts on. *)
Theorem legacy_flush_vs_processItem (d : Db) (item : OutboxItem.t) (reply : Reply)
    (now : Z) :
  let o := processItem d item reply now in
  let legacy := legacyFlushItem d item reply now in
  snd legacy = out_call o /\
  ideas (fst legacy) = ideas (out_db o) /\
  (forall value, reply = Resolved value -> is_Some (out_call o) ->
     fst legacy = out_db o) /\
  (forall message, reply = Rejected message -> is_Some (out_call o) ->
     OutboxItem.attemptCount item < MAX_RETRY_ATTEMPTS ->
     fst legacy = out_db o) /\
  (out_call o = None -> fst legacy = d) /\
  (forall message, reply = Rejected message -> is_Some (out_call o) ->
     List.map OutboxItem.id (outbox (fst legacy)) = List.map OutboxItem.id (outbox d)).
Proof.
  intros o legacy. subst o legacy.
  assert (Hbelow : forall m, OutboxItem.attemptCount item < MAX_RETRY_ATTEMPTS ->
            fst (onFailure d item m) = legacyCatch d item m).
  { intros m Hlt. unfold onFailure, legacyCatch.
    by destruct (Z.leb_spec MAX_RETRY_ATTEMPTS (OutboxItem.attemptCount item)); [lia|]. }
  assert (Hideas : forall m, ideas (legacyCatch d item m) = ideas d).
  { intros m. unfold legacyCatch. destruct (Payload.localId _) as [l|]; [|done].
    by destruct (truthy l). }
  assert (Hids : forall m, List.map OutboxItem.id (outbox (legacyCatch d item m)) =
                           List.map OutboxItem.id (outbox d)).
  { intros m. unfold legacyCatch. destruct (Payload.localId _) as [l|]; [|done].
    destruct (truthy l); [apply incrementOutboxAttempt_ids | done]. }
  unfold processItem, legacyFlushItem, awaitRemote, legacyAwait.
  destruct (OutboxItem.action item); try destruct (whenTruthy _);
    destruct reply as [v|m];
    try (pose proof (onFailure_ideas d item m) as Hfi;
         specialize (Hbelow m); specialize (Hideas m); specialize (Hids m);
         destruct (onFailure d item m) as [d' ok]);
    cbn [fst snd out_db out_call] in *;
    (split_and!; [done | first [done | congruence] | | | | ]);
    try (intros; simplify_eq; done);
    try (intros ? ? [? ?]; simplify_eq; done);
    try (intros ? ? ? ?; simplify_eq; symmetry; auto).
Qed.

Lemma legacy_flush_vs_processItem_witness :
  fst (legacyFlushItem dbCreateOnly rowCreateA (Rejected None) 100) =
    out_db (processItem dbCreateOnly rowCreateA (Rejected None) 100) /\
  fst (legacyFlushItem dbCreateThenStatus rowStatusA (Resolved "unused"%string) 100) =
    dbCreateThenStatus.
Proof.
  split.
  - destruct (legacy_flush_vs_processItem dbCreateOnly rowCreateA (Rejected None) 100)
      as (_ & _ & _ & Hbelow & _).
    exact (Hbelow None eq_refl ltac:(by eexists) ltac:(vm_compute; reflexivity)).
  - destruct (legacy_flush_vs_processItem dbCreateThenStatus rowStatusA
                (Resolved "unused"%string) 100) as (_ & _ & _ & _ & Hnone & _).
    exact (Hnone eq_refl).
Defined.

(** X20: [getOutboxStatusAll] lists, in table order, one entry per
    outbox row whose payload has a non-empty [localId], skipping the
    others.  A newly enqueued entry shows with no attempt and no error;
    after [incrementOutboxAttempt] every entry of that [localId] shows
    one more attempt and the error message, and the other entries are
    as before. *)
Theorem outbox_status_view (d : Db) :
  (forall st, In st (getOutboxStatusAll d) <->
     exists row, In row (outbox d) /\
       Payload.localId (OutboxItem.payload row) = Some (OutboxStatus.localId st) /\
       truthy (OutboxStatus.localId st) = true /\
       OutboxStatus.action st = OutboxItem.action row /\
       OutboxStatus.attemptCount st = OutboxItem.attemptCount row /\
       OutboxStatus.lastError st = OutboxItem.lastError row) /\
  (forall action payload id t,
     getOutboxStatusAll (enqueueOutbox d action payload id t) =
       getOutboxStatusAll d ++
       match Payload.localId payload with
       | Some l => if truthy l then [OutboxStatus.mk l action 0 None] else []
       | None => []
       end) /\
  (forall l e,
     getOutboxStatusAll (incrementOutboxAttempt d l e) =
       List.map (fun st =>
                   if bool_decide (OutboxStatus.localId st = l)
                   then OutboxStatus.mk l (OutboxStatus.action st)
                          (OutboxStatus.attemptCount st + 1) e
                   else st)
                (getOutboxStatusAll d)).
Proof.
  split_and!.
  - intros st. unfold getOutboxStatusAll.
    rewrite <- list_elem_of_In, list_elem_of_omap. split.
    + intros (row & Hin & Hst). exists row. apply list_elem_of_In in Hin.
      unfold outboxStatusOf in Hst.
      destruct (Payload.localId (OutboxItem.payload row)) as [l|]; [|done].
      destruct (truthy l) eqn:Ht; [|done]. by simplify_eq.
    + intros (row & Hin & Hl & Ht & Ha & Hc & He). exists row.
      split; [by apply list_elem_of_In|]. unfold outboxStatusOf. rewrite Hl, Ht.
      destruct st; simpl in *. by subst.
  - intros action payload id t. unfold getOutboxStatusAll, enqueueOutbox.
    cbn [outbox]. rewrite omap_app. f_equal. unfold outboxStatusOf. simpl.
    destruct (Payload.localId payload) as [l|]; [|done]. by destruct (truthy l).
  - intros l e. unfold getOutboxStatusAll, incrementOutboxAttempt. cbn [outbox].
    assert (Hrow : forall row,
      outboxStatusOf (if payloadLocalIdIs (Some l) row then bumpAttempt e row else row) =
      (fun st =>
         if bool_decide (OutboxStatus.localId st = l)
         then OutboxStatus.mk l (OutboxStatus.action st)
                (OutboxStatus.attemptCount st + 1) e
         else st) <$> outboxStatusOf row).
    { intros row. unfold payloadLocalIdIs, outboxStatusOf.
      destruct (Payload.localId (OutboxItem.payload row)) as [l'|] eqn:Hl'.
      - destruct (decide (l = l')) as [->|Hne].
        + rewrite bool_decide_eq_true_2 by done. simpl. rewrite Hl'.
          destruct (truthy l'); simpl; [|done].
          by rewrite bool_decide_eq_true_2.
        + rewrite bool_decide_eq_false_2 by done. rewrite Hl'.
          destruct (truthy l'); simpl; [|done].
          by rewrite bool_decide_eq_false_2.
      - by rewrite Hl'. }
    induction (outbox d) as [|row rows IH]; [done|].
    cbn [List.map].
    change (omap outboxStatusOf
              ((if payloadLocalIdIs (Some l) row then bumpAttempt e row else row)
               :: List.map (fun row0 => if payloadLocalIdIs (Some l) row0
                                        then bumpAttempt e row0 else row0) rows))
      with (match outboxStatusOf
                    (if payloadLocalIdIs (Some l) row then bumpAttempt e row else row)
            with
            | Some y => y :: omap outboxStatusOf
                          (List.map (fun row0 => if payloadLocalIdIs (Some l) row0
                                                 then bumpAttempt e row0 else row0) rows)
            | None => omap outboxStatusOf
                        (List.map (fun row0 => if payloadLocalIdIs (Some l) row0
                                               then bumpAttempt e row0 else row0) rows)
            end).
    change (omap outboxStatusOf (row :: rows))
      with (match outboxStatusOf row with
            | Some y => y :: omap outboxStatusOf rows
            | None => omap outboxStatusOf rows
            end).
    rewrite Hrow, IH. by destruct (outboxStatusOf row).
Qed.

(** ** The remote mutations *)

Lemma get_app r l i :
  Convex.get (r ++ l) i =
    match Convex.get r i with Some doc => Some doc | None => Convex.get l i end.
Proof.
  unfold Convex.get. induction r as [|doc r IH]; simpl; [done|].
  by case_bool_decide.
Qed.

Lemma get_Some r i doc :
  Convex.get r i = Some doc -> RemoteIdea.id doc = i /\ In doc r.
Proof.
  unfold Convex.get. intros H. apply find_some in H as [Hin Hb].
  by apply bool_decide_eq_true in Hb.
Qed.

Lemma get_patch r i f j :
  (forall doc, RemoteIdea.id (f doc) = RemoteIdea.id doc) ->
  Convex.get (Convex.patch r i f) j =
    if decide (j = i) then f <$> Convex.get r i else Convex.get r j.
Proof.
  intros Hf. unfold Convex.get, Convex.patch.
  induction r as [|doc r IH]; [by case_decide|].
  cbn [List.map List.find]. rewrite IH. clear IH.
  destruct (decide (j = i)) as [->|Hne].
  - destruct (bool_decide (RemoteIdea.id doc = i)) eqn:Hd.
    + rewrite bool_decide_eq_true_2; [done|].
      rewrite Hf. by apply bool_decide_eq_true in Hd.
    + by rewrite Hd.
  - destruct (bool_decide (RemoteIdea.id doc = i)) eqn:Hd.
    + apply bool_decide_eq_true in Hd.
      rewrite !bool_decide_eq_false_2; [done|congruence|rewrite Hf; congruence].
    + done.
Qed.

Lemma patch_ids r i f :
  (forall doc, RemoteIdea.id (f doc) = RemoteIdea.id doc) ->
  List.map RemoteIdea.id (Convex.patch r i f) = List.map RemoteIdea.id r.
Proof.
  intros Hf. unfold Convex.patch. induction r as [|doc r IH]; simpl; [done|].
  rewrite IH. by case_bool_decide; rewrite ?Hf.
Qed.

Lemma get_filter_out r i j :
  Convex.get (List.filter (fun doc => negb (bool_decide (RemoteIdea.id doc = i))) r) j =
    if decide (j = i) then None else Convex.get r j.
Proof.
  unfold Convex.get. induction r as [|doc r IH]; simpl; [by case_decide|].
  case_bool_decide as Hd; simpl.
  - rewrite IH. case_decide; [done|].
    by rewrite bool_decide_eq_false_2 by congruence.
  - rewrite IH. case_decide as Hj; [subst j; by rewrite bool_decide_eq_false_2|done].
Qed.

(** X21: [createFeature] stores a feature under a parent only when the
    parent id is the id of a document of type [PROJECT].  With a new id
    that is not in the table, a call that returns has stored exactly one
    new document, found under the returned id, with type [FEATURE], the
    given parent, [archived = false], the given status or [INBOX], and
    every other id reads as before; a call that throws does so with
    'Invalid project', leaves the table as it was, and was given a truthy
    parent id that is missing or is not a project. *)
Theorem createFeature_parent_check (r : list RemoteIdea.t) (content : string)
    (parent : option string) (status : option IdeaStatus) (newId : string) (now : Z)
    (r' : list RemoteIdea.t) (res : HandlerResult) :
  Convex.createFeature r content parent status newId now = (r', res) ->
  Convex.get r newId = None ->
  match res with
  | Returned value =>
      value = newId /\
      (forall p, parent = Some p -> truthy p = true ->
         exists doc, Convex.get r p = Some doc /\ RemoteIdea.type doc = PROJECT) /\
      Convex.get r' newId =
        Some (RemoteIdea.mk newId content FEATURE parent (default INBOX status)
                false now now) /\
      length r' = S (length r) /\
      forall i, i <> newId -> Convex.get r' i = Convex.get r i
  | Thrown message =>
      message = Some "Invalid project"%string /\ r' = r /\
      exists p, parent = Some p /\ truthy p = true /\
        forall doc, Convex.get r p = Some doc -> RemoteIdea.type doc <> PROJECT
  end.
Proof.
  intros Hcall Hfresh. unfold Convex.createFeature in Hcall.
  destruct (match parent with Some p => _ | None => _ end) eqn:Hinv; simplify_eq.
  - split_and!; [done..|].
    destruct parent as [p|]; [|done].
    exists p. destruct (truthy p); [|done]. split_and!; [done..|].
    intros doc Hdoc. rewrite Hdoc in Hinv. by destruct (RemoteIdea.type doc).
  - split_and!.
    + done.
    + intros p -> Hp. rewrite Hp in Hinv.
      destruct (Convex.get r p) as [doc|]; [|done].
      exists doc. split; [done|]. by destruct (RemoteIdea.type doc).
    + rewrite get_app, Hfresh. unfold Convex.get. simpl.
      by rewrite bool_decide_eq_true_2.
    + rewrite length_app. simpl. lia.
    + intros i Hi. rewrite get_app. destruct (Convex.get r i); [done|].
      unfold Convex.get. simpl. by rewrite bool_decide_eq_false_2.
Qed.

Lemma createFeature_parent_check_witness :
  Convex.get (remoteSample ++
              [RemoteIdea.mk "srv_3" "Signup" FEATURE (Some "srv_1"%string) INBOX
                 false 70 70]) "srv_3" =
    Some (RemoteIdea.mk "srv_3" "Signup" FEATURE (Some "srv_1"%string) INBOX false 70 70).
Proof.
  exact (proj1 (proj2 (proj2
    (createFeature_parent_check remoteSample "Signup" (Some "srv_1"%string) None
       "srv_3" 70 _ (Returned "srv_3") eq_refl eq_refl)))).
Defined.

(** X22: [updateStatus] and [archiveIdea] on an id with no document
    throw 'Idea not found' and change nothing.  On an id with a document
    they return the id; that document gets the new status, respectively
    [archived = true], and [updatedAt = now], its other fields stay; every
    other id reads as before and the ids of the table are the same. *)
Theorem remote_patch_touches_one_document (r : list RemoteIdea.t) (id : string)
    (status : IdeaStatus) (now : Z) :
  match Convex.get r id with
  | None =>
      Convex.updateStatus r id status now = (r, Thrown (Some "Idea not found"%string)) /\
      Convex.archiveIdea r id now = (r, Thrown (Some "Idea not found"%string))
  | Some doc =>
      let r1 := fst (Convex.updateStatus r id status now) in
      let r2 := fst (Convex.archiveIdea r id now) in
      snd (Convex.updateStatus r id status now) = Returned id /\
      snd (Convex.archiveIdea r id now) = Returned id /\
      Convex.get r1 id =
        Some (RemoteIdea.mk id (RemoteIdea.content doc) (RemoteIdea.type doc)
                (RemoteIdea.parentProjectId doc) status (RemoteIdea.archived doc)
                (RemoteIdea.createdAt doc) now) /\
      Convex.get r2 id =
        Some (RemoteIdea.mk id (RemoteIdea.content doc) (RemoteIdea.type doc)
                (RemoteIdea.parentProjectId doc) (RemoteIdea.status doc) true
                (RemoteIdea.createdAt doc) now) /\
      (forall i, i <> id ->
         Convex.get r1 i = Convex.get r i /\ Convex.get r2 i = Convex.get r i) /\
      List.map RemoteIdea.id r1 = List.map RemoteIdea.id r /\
      List.map RemoteIdea.id r2 = List.map RemoteIdea.id r
  end.
Proof.
  unfold Convex.updateStatus, Convex.archiveIdea.
  destruct (Convex.get r id) as [doc|] eqn:Hget; [|done].
  destruct (get_Some _ _ _ Hget) as [Hid _].
  cbn [fst snd]. split_and!; try done.
  - rewrite get_patch by done. rewrite decide_True by done. rewrite Hget. simpl.
    by rewrite Hid.
  - rewrite get_patch by done. rewrite decide_True by done. rewrite Hget. simpl.
    by rewrite Hid.
  - intros i Hi. rewrite !get_patch by done. by rewrite !decide_False by done.
  - by apply patch_ids.
  - by apply patch_ids.
Qed.

(** X23: [deleteIdea] on an id with a document returns the id; the id
    has no document afterwards, and every other id reads as before:
    features that name the deleted document as their parent stay, with
    the parent id unchanged. *)
Theorem remote_delete_does_not_cascade (r : list RemoteIdea.t) (id : string) :
  is_Some (Convex.get r id) ->
  snd (Convex.deleteIdea r id) = Returned id /\
  Convex.get (fst (Convex.deleteIdea r id)) id = None /\
  forall i, i <> id -> Convex.get (fst (Convex.deleteIdea r id)) i = Convex.get r i.
Proof.
  intros [doc Hget]. unfold Convex.deleteIdea. rewrite Hget. cbn [fst snd].
  split_and!; [done| |].
  - rewrite get_filter_out. by rewrite decide_True.
  - intros i Hi. rewrite get_filter_out. by rewrite decide_False.
Qed.

Lemma remote_delete_does_not_cascade_witness :
  Convex.get (fst (Convex.deleteIdea remoteSample "srv_1")) "srv_2" = Some remoteLoose.
Proof.
  refine (eq_trans
    (proj2 (proj2 (remote_delete_does_not_cascade remoteSample "srv_1" _))
       "srv_2"%string _) eq_refl).
  - by exists remoteProject.
  - done.
Defined.

(** ** The engine against the remote mutations *)

Lemma syncItem_call wrap d r item newId remoteNow now call :
  out_call (processItem d item (Rejected None) now) = Some call ->
  syncItem wrap d r item newId remoteNow now =
    (out_db (processItem d item
               (toReply wrap (snd (runMutation r call newId remoteNow))) now),
     fst (runMutation r call newId remoteNow)).
Proof.
  intros Hcall. unfold syncItem. rewrite Hcall.
  by destruct (runMutation r call newId remoteNow).
Qed.

(** X24: a project and its feature, created offline, reach the remote
    table linked.  Syncing the [createProject] entry of [A] and then the
    [createFeature] entry of [F], whose payload names [A] by its local id
    only, appends to the remote table a [PROJECT] document under the new
    id [idA] and a [FEATURE] document whose [parentProjectId] is [idA]:
    the parent check of the remote [createFeature] passes.  Afterwards
    the local record of [A] carries [idA], the record of [F], when there
    is one, carries [idF], and no outbox row names [A] or [F]. *)
Theorem feature_follows_project_to_remote (wrap : option string -> option string)
    (d : Db) (r : list RemoteIdea.t) (cp cf : OutboxItem.t) (A F idA idF c1 c2 : string)
    (tA tF now1 now2 : Z) :
  OutboxItem.action cp = createProject ->
  Payload.localId (OutboxItem.payload cp) = Some A ->
  Payload.content (OutboxItem.payload cp) = Some c1 ->
  OutboxItem.action cf = createFeature ->
  Payload.localId (OutboxItem.payload cf) = Some F ->
  Payload.content (OutboxItem.payload cf) = Some c2 ->
  Payload.parentProjectLocalId (OutboxItem.payload cf) = Some A ->
  Payload.parentProjectServerId (OutboxItem.payload cf) = None ->
  truthy A = true -> truthy idA = true -> A <> F ->
  is_Some (ideas d !! A) ->
  Convex.get r idA = None ->
  let d1 := fst (syncItem wrap d r cp idA tA now1) in
  let r1 := snd (syncItem wrap d r cp idA tA now1) in
  let d2 := fst (syncItem wrap d1 r1 cf idF tF now2) in
  let r2 := snd (syncItem wrap d1 r1 cf idF tF now2) in
  r2 = r ++ [RemoteIdea.mk idA c1 PROJECT None BACKLOG false tA tA;
             RemoteIdea.mk idF c2 FEATURE (Some idA)
               (default INBOX (Payload.status (OutboxItem.payload cf))) false tF tF] /\
  getServerIdByLocalId d2 (Some A) = Some idA /\
  (is_Some (ideas d !! F) -> getServerIdByLocalId d2 (Some F) = Some idF) /\
  forall row, In row (outbox d2) ->
    Payload.localId (OutboxItem.payload row) <> Some A /\
    Payload.localId (OutboxItem.payload row) <> Some F.
Proof.
  intros Hcp HcpA Hcpc Hcf HcfF Hcfc HcfP HcfS HA HidA HAF [recA HrecA] Hfresh.
  assert (Hcall1 : out_call (processItem d cp (Rejected None) now1) =
                     Some (CallCreateProject (Some c1))).
  { unfold processItem. rewrite Hcp, Hcpc. apply awaitRemote_call. }
  rewrite (syncItem_call _ _ _ _ _ _ _ _ Hcall1).
  cbn [runMutation Convex.createProject fst snd toReply].
  set (docA := RemoteIdea.mk idA c1 PROJECT None BACKLOG false tA tA).
  assert (Hd1 : out_db (processItem d cp (Resolved idA) now1) =
                  removeOutboxByLocalId (markIdeaSynced d (Some A) idA now1) (Some A)).
  { unfold processItem. by rewrite Hcp, HcpA. }
  rewrite Hd1. clear Hd1.
  set (d1 := removeOutboxByLocalId (markIdeaSynced d (Some A) idA now1) (Some A)).
  assert (HA1 : ideas d1 !! A = Some (setSynced idA now1 recA)).
  { subst d1. simpl. rewrite lookup_alter, decide_True by done. by rewrite HrecA. }
  assert (Hpar : resolveParent d1 (OutboxItem.payload cf) = Some idA).
  { unfold resolveParent. rewrite HcfS, HcfP.
    unfold orElse, truthyOpt, getServerIdByLocalId. by rewrite HA, HA1. }
  assert (Hcall2 : out_call (processItem d1 cf (Rejected None) now2) =
                     Some (CallCreateFeature (Some c2) (Some idA)
                             (default INBOX (Payload.status (OutboxItem.payload cf))))).
  { unfold processItem. rewrite Hcf, Hcfc, Hpar. apply awaitRemote_call. }
  cbn [fst snd].
  rewrite (syncItem_call _ _ _ _ _ _ _ _ Hcall2).
  cbn [runMutation fst snd].
  assert (Hmut : Convex.createFeature (r ++ [docA]) c2 (Some idA)
                   (Some (default INBOX (Payload.status (OutboxItem.payload cf))))
                   idF tF =
                 ((r ++ [docA]) ++
                    [RemoteIdea.mk idF c2 FEATURE (Some idA)
                       (default INBOX (Payload.status (OutboxItem.payload cf)))
                       false tF tF],
                  Returned idF)).
  { unfold Convex.createFeature. rewrite HidA, get_app, Hfresh.
    unfold Convex.get at 1. simpl. by rewrite bool_decide_eq_true_2. }
  rewrite Hmut. cbn [fst snd toReply].
  assert (Hd2 : out_db (processItem d1 cf (Resolved idF) now2) =
                  removeOutboxByLocalId (markIdeaSynced d1 (Some F) idF now2) (Some F)).
  { unfold processItem. by rewrite Hcf, HcfF. }
  rewrite Hd2. clear Hd2.
  split_and!.
  - by rewrite <- app_assoc.
  - simpl. rewrite lookup_alter_ne by congruence.
    rewrite lookup_alter, decide_True by done. by rewrite HrecA.
  - intros [recF HrecF]. simpl. rewrite lookup_alter, decide_True by done.
    rewrite lookup_alter_ne by done. by rewrite HrecF.
  - intros row Hin. simpl in Hin.
    apply filter_In in Hin as [Hin HnF]. apply filter_In in Hin as [_ HnA].
    unfold payloadLocalIdIs in HnF, HnA.
    destruct (Payload.localId (OutboxItem.payload row)) as [l|]; [|done].
    apply negb_true_iff, bool_decide_eq_false in HnF, HnA. split; congruence.
Qed.

Lemma feature_follows_project_to_remote_witness :
  snd (syncItem noWrap
         (fst (syncItem noWrap dbProjectFeature [] rowCreateA "srv_1" 100 101))
         (snd (syncItem noWrap dbProjectFeature [] rowCreateA "srv_1" 100 101))
         rowFeatureF "srv_2" 102 103) =
    [RemoteIdea.mk "srv_1" "Ship v1" PROJECT None BACKLOG false 100 100;
     RemoteIdea.mk "srv_2" "Login" FEATURE (Some "srv_1"%string) BACKLOG false 102 102].
Proof.
  refine (proj1 (feature_follows_project_to_remote noWrap dbProjectFeature []
                   rowCreateA rowFeatureF "A" "F" "srv_1" "srv_2" "Ship v1" "Login"
                   100 102 101 103
                   eq_refl eq_refl eq_refl eq_refl eq_refl eq_refl eq_refl eq_refl
                   eq_refl eq_refl _ _ eq_refl)).
  - done.
  - exists (sampleIdea "A" PROJECT). vm_compute. reflexivity.
Defined.

(** X25: a feature whose parent is not a project on the remote side
    cannot sync.  When the parent id that [processItem] resolves for a
    [createFeature] entry is truthy and is, in the remote table, missing
    or not a [PROJECT], the remote call throws 'Invalid project': the
    remote table and the local records stay as they were, and below the
    retry ceiling the entry stays queued with its attempt count raised by
    one and the error message recorded. *)
Theorem invalid_parent_is_retried (wrap : option string -> option string)
    (d : Db) (r : list RemoteIdea.t) (cf : OutboxItem.t) (c p newId : string)
    (remoteNow now : Z) :
  OutboxItem.action cf = createFeature ->
  Payload.content (OutboxItem.payload cf) = Some c ->
  resolveParent d (OutboxItem.payload cf) = Some p ->
  truthy p = true ->
  (forall doc, Convex.get r p = Some doc -> RemoteIdea.type doc <> PROJECT) ->
  truthyOpt (Payload.localId (OutboxItem.payload cf)) = true ->
  OutboxItem.attemptCount cf < MAX_RETRY_ATTEMPTS ->
  In cf (outbox d) ->
  snd (syncItem wrap d r cf newId remoteNow now) = r /\
  ideas (fst (syncItem wrap d r cf newId remoteNow now)) = ideas d /\
  In (bumpAttempt
        (Some (default "Sync failed"%string (wrap (Some "Invalid project"%string)))) cf)
     (outbox (fst (syncItem wrap d r cf newId remoteNow now))).
Proof.
  intros Hcf Hc Hpar Hp Hbad Hl Hlt Hin.
  assert (Hcall : out_call (processItem d cf (Rejected None) now) =
                    Some (CallCreateFeature (Some c) (Some p)
                            (default INBOX (Payload.status (OutboxItem.payload cf))))).
  { unfold processItem. rewrite Hcf, Hc, Hpar. apply awaitRemote_call. }
  rewrite (syncItem_call _ _ _ _ _ _ _ _ Hcall).
  cbn [runMutation].
  assert (Hmut : Convex.createFeature r c (Some p)
                   (Some (default INBOX (Payload.status (OutboxItem.payload cf))))
                   newId remoteNow =
                 (r, Thrown (Some "Invalid project"%string))).
  { unfold Convex.createFeature. rewrite Hp.
    destruct (Convex.get r p) as [doc|] eqn:Hget; [|done].
    specialize (Hbad doc eq_refl). by destruct (RemoteIdea.type doc). }
  rewrite Hmut. cbn [fst snd toReply].
  rewrite (processItem_call_indep d cf (Rejected None) now
             (Rejected (wrap (Some "Invalid project"%string))) now) in Hcall.
  rewrite (processItem_rejected _ _ _ _ _ Hcall). cbn [out_db].
  split_and!; [done | apply onFailure_ideas |].
  by apply onFailure_bumps_row.
Qed.

Lemma invalid_parent_is_retried_witness :
  In (bumpAttempt (Some "Invalid project"%string) rowFeatureStale)
     (outbox (fst (syncItem noWrap dbStaleParent remoteSample rowFeatureStale
                     "srv_3" 100 101))).
Proof.
  refine (proj2 (proj2 (invalid_parent_is_retried noWrap dbStaleParent remoteSample
                          rowFeatureStale "Login" "srv_9" "srv_3" 100 101
                          eq_refl eq_refl eq_refl eq_refl _ eq_refl _ _))).
  - intros doc Hdoc. vm_compute in Hdoc. discriminate Hdoc.
  - vm_compute. reflexivity.
  - left. reflexivity.
Defined.

(** ** The screens, the engine and the remote mutations *)

Lemma syncItem_by_serverId wrap d r row P sid st newId remoteNow now :
  OutboxItem.payload row = Payload.mk (Some P) None st (Some sid) None None ->
  truthy sid = true ->
  (OutboxItem.action row = archiveIdea /\
   syncItem wrap d r row newId remoteNow now =
     (out_db (processItem d row
                (toReply wrap (snd (Convex.archiveIdea r sid remoteNow))) now),
      fst (Convex.archiveIdea r sid remoteNow))) \/
  (OutboxItem.action row = deleteIdea /\
   syncItem wrap d r row newId remoteNow now =
     (out_db (processItem d row (toReply wrap (snd (Convex.deleteIdea r sid))) now),
      fst (Convex.deleteIdea r sid))) \/
  (OutboxItem.action row <> archiveIdea /\ OutboxItem.action row <> deleteIdea).
Proof.
  intros Hp Ht.
  destruct (OutboxItem.action row) eqn:Hact; try (right; right; done).
  - left. split; [done|]. apply (syncItem_call _ _ _ _ _ _ _ (CallArchiveIdea sid)).
    unfold processItem, resolveServerId. rewrite Hact, Hp. simpl. rewrite Ht.
    by destruct (onFailure _ _ _).
  - right. left. split; [done|]. apply (syncItem_call _ _ _ _ _ _ _ (CallDeleteIdea sid)).
    unfold processItem, resolveServerId. rewrite Hact, Hp. simpl. rewrite Ht.
    by destruct (onFailure _ _ _).
Qed.

Lemma processItem_by_serverId d row P sid st value now :
  OutboxItem.payload row = Payload.mk (Some P) None st (Some sid) None None ->
  truthy sid = true ->
  OutboxItem.action row = archiveIdea \/ OutboxItem.action row = deleteIdea ->
  out_db (processItem d row (Resolved value) now) = removeOutboxByLocalId d (Some P).
Proof.
  intros Hp Ht [Hact|Hact]; unfold processItem, resolveServerId;
    rewrite Hact, Hp; simpl; by rewrite Ht.
Qed.

Lemma removeOutboxByLocalId_after_enqueue d action payload id now P row :
  Payload.localId payload = Some P ->
  In row (outbox (removeOutboxByLocalId (enqueueOutbox d action payload id now) (Some P))) ->
  In row (outbox d) /\ Payload.localId (OutboxItem.payload row) <> Some P.
Proof.
  intros HP. simpl. rewrite List.filter_In, negb_true_iff, List.in_app_iff.
  unfold payloadLocalIdIs.
  intros [[Hin|[<-|[]]] Hno].
  - split; [done|]. destruct (Payload.localId (OutboxItem.payload row)); [|done].
    apply bool_decide_eq_false in Hno. congruence.
  - simpl in Hno. rewrite HP in Hno. by rewrite bool_decide_eq_true_2 in Hno.
Qed.

(** X26: a feature added under a synced project arrives under that
    project.  [addFeature] with a non-empty text stores a [FEATURE]
    record with status [BACKLOG] under the project's local id, listed by
    [listFeaturesByProjectLocal], and queues one [createFeature] entry
    that names the project by local id.  When the entry is synced, the
    project's server id is read from the store; if that id is a
    [PROJECT] document of the remote table, the table gains one
    [FEATURE] document with that parent and status [BACKLOG], the new
    record carries the new document's id, and the entry is gone. *)
Theorem addFeature_under_synced_project (wrap : option string -> option string)
    (d : Db) (r : list RemoteIdea.t) (text P localId id sid newId : string)
    (recP : IdeaRecord.t) (doc : RemoteIdea.t) (createdAt now remoteNow now' : Z) :
  truthy text = true -> truthy P = true -> truthy sid = true ->
  ideas d !! localId = None ->
  ~ In id (List.map OutboxItem.id (outbox d)) ->
  ideas d !! P = Some recP -> IdeaRecord.serverId recP = Some sid ->
  Convex.get r sid = Some doc -> RemoteIdea.type doc = PROJECT ->
  let d1 := addFeature d text P localId createdAt id now in
  let local :=
    IdeaRecord.mk localId None text FEATURE (Some P) None BACKLOG false
      createdAt createdAt in
  let row :=
    OutboxItem.mk id createFeature
      (Payload.mk (Some localId) (Some text) (Some BACKLOG) None (Some P) None)
      now 0 None in
  let d2 := fst (syncItem wrap d1 r row newId remoteNow now') in
  let r2 := snd (syncItem wrap d1 r row newId remoteNow now') in
  outbox d1 = outbox d ++ [row] /\
  In local (listFeaturesByProjectLocal d1 P) /\
  r2 = r ++ [RemoteIdea.mk newId text FEATURE (Some sid) BACKLOG false
               remoteNow remoteNow] /\
  getServerIdByLocalId d2 (Some localId) = Some newId /\
  forall row', In row' (outbox d2) ->
    In row' (outbox d) /\ Payload.localId (OutboxItem.payload row') <> Some localId.
Proof.
  intros Htext HP Hsid Hfresh Hid HrecP Hsrv Hdoc Htype d1 local row.
  assert (HPl : P <> localId) by (intros ->; congruence).
  assert (Hd1 : d1 = enqueueOutbox (mkDb (<[localId := local]> (ideas d)) (outbox d))
                       createFeature (OutboxItem.payload row) id now).
  { subst d1. unfold addFeature, insertIdeaLocal. rewrite Htext, Hfresh. simpl.
    by rewrite enqueueOutboxChecked_fresh. }
  assert (Hcall : out_call (processItem d1 row (Rejected None) now') =
                    Some (CallCreateFeature (Some text) (Some sid) BACKLOG)).
  { unfold processItem, resolveParent, orElse, truthyOpt, getServerIdByLocalId.
    simpl. rewrite HP, Hd1. simpl. rewrite lookup_insert_ne by done.
    rewrite HrecP, Hsrv. first [done | by destruct (onFailure _ _ _)]. }
  assert (Hmut : Convex.createFeature r text (Some sid) (Some BACKLOG) newId remoteNow =
                 (r ++ [RemoteIdea.mk newId text FEATURE (Some sid) BACKLOG false
                          remoteNow remoteNow], Returned newId)).
  { unfold Convex.createFeature. by rewrite Hsid, Hdoc, Htype. }
  cbn zeta. rewrite (syncItem_call _ _ _ _ _ _ _ _ Hcall).
  cbn [runMutation]. rewrite Hmut. cbn [fst snd toReply].
  assert (Hd2 : out_db (processItem d1 row (Resolved newId) now') =
                  removeOutboxByLocalId (markIdeaSynced d1 (Some localId) newId now')
                    (Some localId)) by done.
  rewrite Hd2. clear Hd2.
  split_and!.
  - by rewrite Hd1.
  - apply listFeaturesByProjectLocal_In. split; [|done].
    exists localId. rewrite Hd1. simpl. apply lookup_insert_eq.
  - done.
  - rewrite Hd1. unfold getServerIdByLocalId. simpl.
    rewrite lookup_alter_eq, lookup_insert_eq. done.
  - intros row' Hin. rewrite Hd1 in Hin.
    by apply (removeOutboxByLocalId_after_enqueue
                (mkDb (alter (setSynced newId now') localId
                         (<[localId := local]> (ideas d))) (outbox d))
                createFeature (OutboxItem.payload row) id now localId row').
Qed.

Lemma addFeature_under_synced_project_witness :
  snd (syncItem noWrap (addFeature dbSynced "Signup" "A" "G" 70 "o7" 71) remoteSynced
         (OutboxItem.mk "o7" createFeature
            (Payload.mk (Some "G"%string) (Some "Signup"%string) (Some BACKLOG) None
               (Some "A"%string) None) 71 0 None)
         "srv_3" 80 81) =
    remoteSynced ++
      [RemoteIdea.mk "srv_3" "Signup" FEATURE (Some "srv_1"%string) BACKLOG false 80 80].
Proof.
  refine (proj1 (proj2 (proj2
    (addFeature_under_synced_project noWrap dbSynced remoteSynced "Signup" "A" "G" "o7"
       "srv_1" "srv_3" syncedProject remoteProject 70 71 80 81
       eq_refl eq_refl eq_refl _ _ _ eq_refl eq_refl eq_refl)))).
  - vm_compute. reflexivity.
  - simpl. tauto.
  - vm_compute. reflexivity.
Defined.

(** X27: archiving a synced project.  [archiveProject] hides the project
    from [listProjectsLocal] and queues one [archiveIdea] entry with the
    server id known at that time; the features stored under the project
    are listed as before.  When the entry is synced and the id has a
    document in the remote table, that document gets [archived = true]
    and every other document is as before; the entry is gone. *)
Theorem archiveProject_end_to_end (wrap : option string -> option string)
    (d : Db) (r : list RemoteIdea.t) (project : IdeaRecord.t) (sid id newId : string)
    (doc : RemoteIdea.t) (updatedAt now remoteNow now' : Z) :
  keysOk d ->
  knownServerId d project = Some sid -> truthy sid = true ->
  ~ In id (List.map OutboxItem.id (outbox d)) ->
  Convex.get r sid = Some doc ->
  let P := IdeaRecord.localId project in
  let d1 := archiveProject d project updatedAt id now in
  let row :=
    OutboxItem.mk id archiveIdea (Payload.mk (Some P) None None (Some sid) None None)
      now 0 None in
  let d2 := fst (syncItem wrap d1 r row newId remoteNow now') in
  let r2 := snd (syncItem wrap d1 r row newId remoteNow now') in
  outbox d1 = outbox d ++ [row] /\
  (forall p, In p (listProjectsLocal d2) -> IdeaRecord.localId p <> P) /\
  (forall f, IdeaRecord.localId f <> P ->
     (In f (listFeaturesByProjectLocal d2 P) <-> In f (listFeaturesByProjectLocal d P))) /\
  Convex.get r2 sid =
    Some (RemoteIdea.mk sid (RemoteIdea.content doc) (RemoteIdea.type doc)
            (RemoteIdea.parentProjectId doc) (RemoteIdea.status doc) true
            (RemoteIdea.createdAt doc) remoteNow) /\
  (forall i, i <> sid -> Convex.get r2 i = Convex.get r i) /\
  forall row', In row' (outbox d2) ->
    In row' (outbox d) /\ Payload.localId (OutboxItem.payload row') <> Some P.
Proof.
  intros Hk Hknown Hsid Hid Hdoc P d1 row.
  assert (Hd1 : d1 = enqueueOutbox (archiveIdeaLocal d P updatedAt) archiveIdea
                       (OutboxItem.payload row) id now).
  { subst d1. unfold archiveProject. rewrite Hknown.
    by rewrite enqueueOutboxChecked_fresh. }
  destruct (syncItem_by_serverId wrap d1 r row P sid None newId remoteNow now'
              eq_refl Hsid) as [[_ Hsync]|[[Hact _]|[Hact _]]]; try done.
  cbn zeta. rewrite Hsync. clear Hsync.
  unfold Convex.archiveIdea. rewrite Hdoc. cbn [fst snd toReply].
  rewrite (processItem_by_serverId d1 row P sid None sid now' eq_refl Hsid)
    by (by left).
  destruct (get_Some _ _ _ Hdoc) as [Hdocid _].
  assert (Hrows : forall f l,
            alter (setArchived updatedAt) P (ideas d) !! l = Some f ->
            IdeaRecord.localId f = l).
  { intros f l. rewrite lookup_alter. case_decide as Hl; [subst l|apply Hk].
    destruct (ideas d !! P) as [r0|] eqn:Hr0; [|done]. simpl. intros [= <-].
    simpl. by apply Hk. }
  split_and!.
  - by rewrite Hd1.
  - intros p Hp HpP. apply listProjectsLocal_In in Hp as ([l Hl] & _ & Harch).
    rewrite Hd1 in Hl. simpl in Hl.
    pose proof (Hrows _ _ Hl) as Hkey. rewrite HpP in Hkey. subst l.
    rewrite lookup_alter_eq in Hl.
    destruct (ideas d !! P) as [r0|]; [|done]. simpl in Hl. by simplify_eq.
  - intros f Hf. rewrite !listFeaturesByProjectLocal_In.
    assert (Hsame : (exists l, ideas (removeOutboxByLocalId d1 (Some P)) !! l = Some f) <->
                    (exists l, ideas d !! l = Some f)).
    { rewrite Hd1. simpl. split; intros [l Hl].
      - pose proof (Hrows _ _ Hl) as Hkey.
        exists l. rewrite lookup_alter_ne in Hl by congruence. done.
      - pose proof (Hk _ _ Hl) as Hkey.
        exists l. rewrite lookup_alter_ne by congruence. done. }
    by rewrite Hsame.
  - rewrite get_patch by done. rewrite decide_True by done. rewrite Hdoc. simpl.
    by rewrite Hdocid.
  - intros i Hi. rewrite get_patch by done. by rewrite decide_False.
  - intros row' Hin. rewrite Hd1 in Hin.
    apply removeOutboxByLocalId_after_enqueue in Hin; done.
Qed.

Lemma keysOk_synced : keysOk dbSynced.
Proof.
  intros l r Hl. unfold dbSynced in Hl. simpl in Hl.
  apply lookup_insert_Some in Hl as [[<- <-]|[_ Hl]]; [done|].
  apply lookup_singleton_Some in Hl as [<- <-]. done.
Qed.

Lemma archiveProject_end_to_end_witness :
  Convex.get
    (snd (syncItem noWrap (archiveProject dbSynced syncedProject 90 "o8" 91) remoteSynced
            (OutboxItem.mk "o8" archiveIdea
               (Payload.mk (Some "A"%string) None None (Some "srv_1"%string) None None)
               91 0 None)
            "unused" 100 101)) "srv_1" =
    Some (RemoteIdea.mk "srv_1" "Garden" PROJECT None BACKLOG true 50 100).
Proof.
  refine (proj1 (proj2 (proj2 (proj2
    (archiveProject_end_to_end noWrap dbSynced remoteSynced syncedProject "srv_1" "o8"
       "unused" remoteProject 90 91 100 101 keysOk_synced eq_refl eq_refl _ eq_refl))))).
  simpl. tauto.
Defined.

(** X28: deleting a project deletes the project only.  [deleteProject]
    removes the project's row and queues one [deleteIdea] entry with the
    server id known at that time.  After the entry is synced the id has
    no document in the remote table, but every other document is still
    there, and every feature stored locally under the project is still
    listed for it: neither side deletes the project's features, and no
    further entry is queued for them. *)
Theorem deleteProject_leaves_features (wrap : option string -> option string)
    (d : Db) (r : list RemoteIdea.t) (project : IdeaRecord.t) (sid id newId : string)
    (remoteNow now now' : Z) :
  keysOk d ->
  knownServerId d project = Some sid -> truthy sid = true ->
  ~ In id (List.map OutboxItem.id (outbox d)) ->
  is_Some (Convex.get r sid) ->
  let P := IdeaRecord.localId project in
  let d1 := deleteProject d project id now in
  let row :=
    OutboxItem.mk id deleteIdea (Payload.mk (Some P) None None (Some sid) None None)
      now 0 None in
  let d2 := fst (syncItem wrap d1 r row newId remoteNow now') in
  let r2 := snd (syncItem wrap d1 r row newId remoteNow now') in
  outbox d1 = outbox d ++ [row] /\
  ideas d2 !! P = None /\
  (forall f, In f (listFeaturesByProjectLocal d2 P) <->
     In f (listFeaturesByProjectLocal d P) /\ IdeaRecord.localId f <> P) /\
  Convex.get r2 sid = None /\
  (forall child, In child r -> RemoteIdea.id child <> sid -> In child r2) /\
  forall row', In row' (outbox d2) ->
    In row' (outbox d) /\ Payload.localId (OutboxItem.payload row') <> Some P.
Proof.
  intros Hk Hknown Hsid Hid [doc Hdoc] P d1 row.
  assert (Hd1 : d1 = enqueueOutbox (deleteIdeaLocal d P) deleteIdea
                       (OutboxItem.payload row) id now).
  { subst d1. unfold deleteProject. rewrite Hknown.
    by rewrite enqueueOutboxChecked_fresh. }
  destruct (syncItem_by_serverId wrap d1 r row P sid None newId remoteNow now'
              eq_refl Hsid) as [[Hact _]|[[_ Hsync]|[_ Hact]]]; try done.
  cbn zeta. rewrite Hsync. clear Hsync.
  unfold Convex.deleteIdea. rewrite Hdoc. cbn [fst snd toReply].
  rewrite (processItem_by_serverId d1 row P sid None sid now' eq_refl Hsid)
    by (by right).
  split_and!.
  - by rewrite Hd1.
  - rewrite Hd1. simpl. apply lookup_delete_eq.
  - intros f. rewrite !listFeaturesByProjectLocal_In. rewrite Hd1. simpl.
    rewrite (deleted_rows d P f Hk). tauto.
  - rewrite get_filter_out. by rewrite decide_True.
  - intros child Hin Hne. apply filter_In. split; [done|].
    by rewrite bool_decide_eq_false_2.
  - intros row' Hin. rewrite Hd1 in Hin.
    apply removeOutboxByLocalId_after_enqueue in Hin; done.
Qed.

Lemma deleteProject_leaves_features_witness :
  let d1 := deleteProject dbSynced syncedProject "o8" 91 in
  let row :=
    OutboxItem.mk "o8" deleteIdea
      (Payload.mk (Some "A"%string) None None (Some "srv_1"%string) None None)
      91 0 None in
  In remoteFeatureOfA (snd (syncItem noWrap d1 remoteSynced row "unused" 100 101)) /\
  In featureOfA
    (listFeaturesByProjectLocal (fst (syncItem noWrap d1 remoteSynced row "unused" 100 101))
       "A").
Proof.
  destruct (deleteProject_leaves_features noWrap dbSynced remoteSynced syncedProject
              "srv_1" "o8" "unused" 100 91 101 keysOk_synced eq_refl eq_refl
              ltac:(simpl; tauto) ltac:(by exists remoteProject))
    as (_ & _ & Hlocal & _ & Hremote & _).
  split.
  - apply Hremote; [right; left; reflexivity | discriminate].
  - apply Hlocal. split; [|discriminate].
    apply listFeaturesByProjectLocal_In. split; [|done].
    exists "F"%string. vm_compute. reflexivity.
Defined.
